(** * Math-problem assistant: a shallow embedding and its verified properties

    The repository holds two notebooks.  The model notebook defines an
    attention-based encoder/decoder (classes [Encoder], [Attention],
    [Decoder]), a vocabulary with its tokenizer, two data sets
    ([BasicMathWordProblemDataset], [DynamicMathWordProblemDataset]) with
    the padding and the data loader in front of them, a teacher-forced
    training loop ([train]), the loop of the hyperparameter search
    ([objective]) and two greedy inference loops ([test],
    [generate_predictions]).  The generator notebook defines
    [SimpleMathProblemsGenerator].

    Conventions of the embedding:
    - Python exceptions are values of [error]; fallible code returns [result].
    - A Python [dict] is an insertion-ordered association list.
    - Tensors are a shape together with an indexing function; tensor entries
      of floating type are idealised as real numbers.
    - The tensors of token ids that the corpus cell builds, pads and loads
      carry their element type: [int64], or [float32] for the tensor made
      of an empty list.
    - Random sources are an oracle: an arbitrary infinite sequence of raw
      draws with a cursor.
    - Loops that the program runs over a [range] are fixpoints on what is
      left of the range; the one loop that need not end ([while True] in the
      generator) takes fuel.

    The file has three parts: the embedding of the program, the predicates
    the theorems are stated with, and the theorems. *)

From Stdlib Require Import Reals Lra Lia ZArith List String Ascii.
From stdpp Require Import gmap strings list.

Local Open Scope string_scope.
Local Open Scope list_scope.

(* ================================================================== *)
(** * The program *)
(* ================================================================== *)

(** ** Python-level basics *)

Inductive error : Type :=
| KeyError
| IndexError
| ValueError
| RuntimeError.

Inductive result (A : Type) : Type :=
| Ok (a : A)
| Raise (e : error).

Arguments Ok {A} a.
Arguments Raise {A} e.

Definition rbind {A B : Type} (c : result A) (k : A -> result B) : result B :=
  match c with
  | Ok a => k a
  | Raise e => Raise e
  end.

Notation "'let!' x ':=' c 'in' k" := (rbind c (fun x => k))
  (at level 10, x pattern, c at level 100, k at level 200).

(** [[f(x) for x in xs]] where [f] may raise. *)
Fixpoint list_comp {A B : Type} (f : A -> result B) (xs : list A) : result (list B) :=
  match xs with
  | [] => Ok []
  | x :: rest =>
      let! y := f x in
      let! ys := list_comp f rest in
      Ok (y :: ys)
  end.

Section dict.
Context {K V : Type} `{EqDecision K}.

(** [d.get(k)]: the value stored under the first (and, in a dict, only)
    entry for [k]. *)
Fixpoint dict_get (d : list (K * V)) (k : K) : option V :=
  match d with
  | [] => None
  | (k', v) :: rest => if decide (k = k') then Some v else dict_get rest k
  end.

(** [k in d] *)
Definition dict_in (k : K) (d : list (K * V)) : bool :=
  match dict_get d k with
  | Some _ => true
  | None => false
  end.

(** [d[k]] *)
Definition dict_getitem (d : list (K * V)) (k : K) : result V :=
  match dict_get d k with
  | Some v => Ok v
  | None => Raise KeyError
  end.

(** [d[k] = v]: overwrite in place, or append a new entry. *)
Fixpoint dict_set (d : list (K * V)) (k : K) (v : V) : list (K * V) :=
  match d with
  | [] => [(k, v)]
  | (k', v') :: rest =>
      if decide (k = k') then (k', v) :: rest else (k', v') :: dict_set rest k v
  end.

End dict.

(** ** Strings: [str.lower] and [str.split] on ASCII text *)

Definition is_upper (c : ascii) : bool :=
  let n := nat_of_ascii c in (65 <=? n)%nat && (n <=? 90)%nat.

Definition lower_char (c : ascii) : ascii :=
  if is_upper c then ascii_of_nat (nat_of_ascii c + 32) else c.

Fixpoint lower (s : string) : string :=
  match s with
  | EmptyString => EmptyString
  | String c rest => String (lower_char c) (lower rest)
  end.

(** Whitespace as [str.split()] sees it below code point 128. *)
Definition is_space (c : ascii) : bool :=
  let n := nat_of_ascii c in
  ((9 <=? n)%nat && (n <=? 13)%nat) || ((28 <=? n)%nat && (n <=? 32)%nat).

Definition flush (cur : string) (rest : list string) : list string :=
  match cur with
  | EmptyString => rest
  | _ => cur :: rest
  end.

(** [split_from cur s]: [cur] is the word being read. *)
Fixpoint split_from (cur : string) (s : string) : list string :=
  match s with
  | EmptyString => flush cur []
  | String c rest =>
      if is_space c then flush cur (split_from EmptyString rest)
      else split_from (cur ++ String c EmptyString)%string rest
  end.

(** [s.split()] *)
Definition split (s : string) : list string := split_from EmptyString s.

(** [s.replace(old, new)] for a one-character [old]. *)
Fixpoint replace (old : ascii) (new : string) (s : string) : string :=
  match s with
  | EmptyString => EmptyString
  | String c rest =>
      if decide (c = old) then (new ++ replace old new rest)%string
      else String c (replace old new rest)
  end.

(** ** Vocabulary and tokenizer *)

Definition START_OF_SEQUENCE : string := "<SOS>".
Definition END_OF_SEQUENCE : string := "<EOS>".
Definition PADDING_SEQUENCE : string := "<PAD>".

(** The baseline vocabulary of the second half of the notebook. *)
Definition word_to_index0 : list (string * nat) :=
  [(START_OF_SEQUENCE, 0); (END_OF_SEQUENCE, 1); (PADDING_SEQUENCE, 2)].

(** The body of [tokenize]'s loop over the words; the dictionary is mutated
    in place, so it is threaded through and returned. *)
Fixpoint tokenize_words (words : list string) (tokens : list nat)
    (word_to_index : list (string * nat)) : result (list nat * list (string * nat)) :=
  match words with
  | [] => Ok (tokens, word_to_index)
  | word :: rest =>
      let word_to_index :=
        if dict_in word word_to_index then word_to_index
        else dict_set word_to_index word (length word_to_index) in
      let! i := dict_getitem word_to_index word in
      tokenize_words rest (tokens ++ [i]) word_to_index
  end.

Definition tokenize (sentence : string) (word_to_index : list (string * nat))
    : result (list nat * list (string * nat)) :=
  tokenize_words (split (lower sentence)) [] word_to_index.

(** [[tokenize(sentence, word_to_index) for sentence in sentences]] *)
Fixpoint tokenize_inputs (sentences : list string) (word_to_index : list (string * nat))
    : result (list (list nat) * list (string * nat)) :=
  match sentences with
  | [] => Ok ([], word_to_index)
  | sentence :: rest =>
      let! (tokens, word_to_index) := tokenize sentence word_to_index in
      let! (data, word_to_index) := tokenize_inputs rest word_to_index in
      Ok (tokens :: data, word_to_index)
  end.

(** [[[w2i[SOS]] + tokenize(sentence, w2i) + [w2i[EOS]] for sentence in ...]] *)
Fixpoint tokenize_targets (sentences : list string) (word_to_index : list (string * nat))
    : result (list (list nat) * list (string * nat)) :=
  match sentences with
  | [] => Ok ([], word_to_index)
  | sentence :: rest =>
      let! sos := dict_getitem word_to_index START_OF_SEQUENCE in
      let! (tokens, word_to_index) := tokenize sentence word_to_index in
      let! eos := dict_getitem word_to_index END_OF_SEQUENCE in
      let! (data, word_to_index) := tokenize_targets rest word_to_index in
      Ok (([sos] ++ tokens ++ [eos]) :: data, word_to_index)
  end.

(** [{v: k for k, v in word_to_index.items()}] *)
Definition invert_vocab (word_to_index : list (string * nat)) : list (nat * string) :=
  fold_left (fun acc kv => dict_set acc (snd kv) (fst kv)) word_to_index [].

Record corpus : Type := {
  input_data : list (list nat);
  target_data : list (list nat);
  word_to_index : list (string * nat);
  index_to_word : list (nat * string)
}.

(** The cell that tokenizes the CSV columns, starting from the baseline
    vocabulary, and then builds the reverse mapping. *)
Definition build_corpus (input_sentences target_sentences : list string) : result corpus :=
  let! (inputs, w2i) := tokenize_inputs input_sentences word_to_index0 in
  let! (targets, w2i) := tokenize_targets target_sentences w2i in
  Ok {| input_data := inputs; target_data := targets;
        word_to_index := w2i; index_to_word := invert_vocab w2i |}.

(** ** Tensors

    A tensor is its shape and an indexing function.  Reading outside the
    shape is impossible in the framework; here the function is total and
    only its values inside the shape are meaningful. *)

Record tensor1 (A : Type) : Type := {
  len1 : nat;
  at1 : nat -> A
}.

Record tensor2 (A : Type) : Type := {
  rows : nat;
  cols : nat;
  at2 : nat -> nat -> A
}.

Record tensor3 (A : Type) : Type := {
  dim0 : nat;
  dim1 : nat;
  dim2 : nat;
  at3 : nat -> nat -> nat -> A
}.

Arguments len1 {A} t.
Arguments at1 {A} t i.
Arguments rows {A} t.
Arguments cols {A} t.
Arguments at2 {A} t i j.
Arguments dim0 {A} t.
Arguments dim1 {A} t.
Arguments dim2 {A} t.
Arguments at3 {A} t i j k.

(** Sum of [f 0 .. f (n-1)]. *)
Fixpoint Rsum (n : nat) (f : nat -> R) : R :=
  match n with
  | O => 0%R
  | S k => (Rsum k f + f k)%R
  end.

(** Number of [i < n] with [p i]. *)
Fixpoint count_upto (n : nat) (p : nat -> bool) : nat :=
  match n with
  | O => O
  | S k => count_upto k p + (if p k then 1 else 0)
  end.

(** Whether [p i] holds for all / for some [i < n]. *)
Fixpoint all_upto (n : nat) (p : nat -> bool) : bool :=
  match n with
  | O => true
  | S k => all_upto k p && p k
  end.

Fixpoint any_upto (n : nat) (p : nat -> bool) : bool :=
  match n with
  | O => false
  | S k => any_upto k p || p k
  end.

(** Largest of [f 0 .. f (n-1)], 0 when [n = 0]. *)
Fixpoint max_upto (n : nat) (f : nat -> nat) : nat :=
  match n with
  | O => O
  | S k => Nat.max (max_upto k f) (f k)
  end.

(** [torch.tensor(xs)] for a flat list and for a list of equally long rows. *)
Definition tensor_of_list {A : Type} (d : A) (xs : list A) : tensor1 A :=
  {| len1 := length xs; at1 := fun i => nth i xs d |}.

Definition tensor_of_rows {A : Type} (d : A) (n : nat) (xss : list (list A)) : tensor2 A :=
  {| rows := length xss; cols := n; at2 := fun i j => nth j (nth i xss []) d |}.

Definition row_list {A : Type} (x : tensor2 A) (i : nat) : list A :=
  map (at2 x i) (seq 0 (cols x)).

(** [x.unsqueeze(0)] and [x.unsqueeze(1)] *)
Definition unsqueeze0_1 {A : Type} (x : tensor1 A) : tensor2 A :=
  {| rows := 1; cols := len1 x; at2 := fun _ j => at1 x j |}.

Definition unsqueeze1_1 {A : Type} (x : tensor1 A) : tensor2 A :=
  {| rows := len1 x; cols := 1; at2 := fun i _ => at1 x i |}.

Definition unsqueeze1_2 {A : Type} (x : tensor2 A) : tensor3 A :=
  {| dim0 := rows x; dim1 := 1; dim2 := cols x; at3 := fun i _ k => at2 x i k |}.

(** [x.squeeze(1)] on a tensor whose middle dimension is 1.  Every call in
    the notebook passes such a tensor; on any other the framework would
    leave the rank unchanged, which no caller relies on. *)
Definition squeeze1 {A : Type} (x : tensor3 A) : result (tensor2 A) :=
  if decide (dim1 x = 1) then
    Ok {| rows := dim0 x; cols := dim2 x; at2 := fun i k => at3 x i 0 k |}
  else Raise RuntimeError.

(** [x.repeat(r0, r1, r2)]: tiling. *)
Definition repeat3 {A : Type} (x : tensor3 A) (r0 r1 r2 : nat) : tensor3 A :=
  {| dim0 := dim0 x * r0; dim1 := dim1 x * r1; dim2 := dim2 x * r2;
     at3 := fun i j k => at3 x (i mod dim0 x) (j mod dim1 x) (k mod dim2 x) |}.

(** [v.repeat(r0, r1)] on a 1-D tensor, which is first read as [1 x n]. *)
Definition repeat1_2 {A : Type} (v : tensor1 A) (r0 r1 : nat) : tensor2 A :=
  {| rows := 1 * r0; cols := len1 v * r1; at2 := fun _ j => at1 v (j mod len1 v) |}.

(** [torch.cat((x, y), dim=2)] and [torch.cat((x, y), dim=1)] *)
Definition cat_dim2 {A : Type} (x y : tensor3 A) : result (tensor3 A) :=
  if decide (dim0 x = dim0 y /\ dim1 x = dim1 y) then
    Ok {| dim0 := dim0 x; dim1 := dim1 x; dim2 := dim2 x + dim2 y;
          at3 := fun i j k =>
                   if (k <? dim2 x)%nat then at3 x i j k else at3 y i j (k - dim2 x) |}
  else Raise RuntimeError.

Definition cat_dim1 {A : Type} (x y : tensor2 A) : result (tensor2 A) :=
  if decide (rows x = rows y) then
    Ok {| rows := rows x; cols := cols x + cols y;
          at2 := fun i k => if (k <? cols x)%nat then at2 x i k else at2 y i (k - cols x) |}
  else Raise RuntimeError.

(** [x.permute(0, 2, 1)] *)
Definition permute021 {A : Type} (x : tensor3 A) : tensor3 A :=
  {| dim0 := dim0 x; dim1 := dim2 x; dim2 := dim1 x; at3 := fun i j k => at3 x i k j |}.

(** [torch.bmm(x, y)] *)
Definition bmm (x y : tensor3 R) : result (tensor3 R) :=
  if decide (dim0 x = dim0 y /\ dim2 x = dim1 y) then
    Ok {| dim0 := dim0 x; dim1 := dim1 x; dim2 := dim2 y;
          at3 := fun b i j => Rsum (dim2 x) (fun k => at3 x b i k * at3 y b k j)%R |}
  else Raise RuntimeError.

(** [torch.tanh(x)] *)
Definition tanh3 (x : tensor3 R) : tensor3 R :=
  {| dim0 := dim0 x; dim1 := dim1 x; dim2 := dim2 x;
     at3 := fun i j k => tanh (at3 x i j k) |}.

(** [torch.softmax(x, dim=1)] on a 2-D tensor. *)
Definition softmax_dim1 (x : tensor2 R) : tensor2 R :=
  {| rows := rows x; cols := cols x;
     at2 := fun i j => (exp (at2 x i j) / Rsum (cols x) (fun k => exp (at2 x i k)))%R |}.

(** [x[-1]] on a 3-D tensor. *)
Definition last_dim0 {A : Type} (x : tensor3 A) : result (tensor2 A) :=
  if decide (dim0 x = 0) then Raise IndexError
  else Ok {| rows := dim1 x; cols := dim2 x; at2 := fun i j => at3 x (dim0 x - 1) i j |}.

(** [x[:, t]] on a 2-D tensor. *)
Definition select_col {A : Type} (x : tensor2 A) (t : nat) : result (tensor1 A) :=
  if decide (t < cols x) then Ok {| len1 := rows x; at1 := fun i => at2 x i t |}
  else Raise IndexError.

(** [x[idx]] on a 2-D tensor, for a non-negative index. *)
Definition select_row {A : Type} (x : tensor2 A) (idx : nat) : result (tensor1 A) :=
  if decide (idx < rows x) then Ok {| len1 := cols x; at1 := fun j => at2 x idx j |}
  else Raise IndexError.

(** The element types the tensors of the notebook have.  A tensor of token
    ids is a [tensor2 nat] or [tensor1 nat]; where a cell can build one of
    floating type, the tensor is paired with its element type, and a tensor
    of type [float32] holds its ids as floating-point numbers. *)
Inductive dtype : Type :=
| int64
| float32.

(** [torch.tensor(seq)] for a list of ints: the element type and the
    entries.  An empty list holds no int to infer the type from, and gets
    the default floating type. *)
Definition torch_tensor (seq : list nat) : dtype * list nat :=
  (match seq with
   | [] => float32
   | _ :: _ => int64
   end, seq).

(** The element type of a tensor made of tensors of these two types. *)
Definition promote (a b : dtype) : dtype :=
  match a, b with
  | int64, int64 => int64
  | _, _ => float32
  end.

(** ** Random sources and the monad of framework calls

    A random source is an oracle: an arbitrary sequence of raw draws and a
    cursor.  Quantifying over all oracles covers every possible outcome. *)

Record oracle : Type := {
  raw : nat -> nat;
  cursor : nat
}.

Definition draw (g : oracle) : nat * oracle :=
  (raw g (cursor g), {| raw := raw g; cursor := S (cursor g) |}).

Definition skip (n : nat) (g : oracle) : oracle :=
  {| raw := raw g; cursor := cursor g + n |}.

(** A call into the framework may raise, and may advance the generator. *)
Definition M (A : Type) : Type := oracle -> result (A * oracle).

Definition ret {A : Type} (a : A) : M A := fun g => Ok (a, g).

Definition lift {A : Type} (r : result A) : M A :=
  fun g => match r with Ok a => Ok (a, g) | Raise e => Raise e end.

Definition bindM {A B : Type} (c : M A) (k : A -> M B) : M B :=
  fun g => match c g with
           | Ok (a, g') => k a g'
           | Raise e => Raise e
           end.

Notation "'run!' x ':=' c 'in' k" := (bindM c (fun x => k))
  (at level 10, x pattern, c at level 100, k at level 200).

Definition sigmoid (x : R) : R := (1 / (1 + exp (- x)))%R.

(** ** Framework layers: [nn.Dropout], [nn.Embedding], [nn.Linear], [nn.LSTM] *)

Module Dropout.

Record t : Type := {
  p : R;
  training : bool
}.

(** In training mode every entry is kept or zeroed by one draw and the kept
    ones are rescaled; in evaluation mode the layer is the identity. *)
Definition forward (self : t) (x : tensor3 R) : M (tensor3 R) :=
  fun g =>
    if training self then
      let n := dim0 x * dim1 x * dim2 x in
      let keep i j k :=
        Nat.even (raw g (cursor g + (i * dim1 x + j) * dim2 x + k)) in
      Ok ({| dim0 := dim0 x; dim1 := dim1 x; dim2 := dim2 x;
             at3 := fun i j k =>
                      if keep i j k then (at3 x i j k / (1 - p self))%R else 0%R |},
          skip n g)
    else Ok (x, g).

Definition eval (self : t) : t := {| p := p self; training := false |}.

End Dropout.

Module Embedding.

Record t : Type := {
  num_embeddings : nat;
  embedding_dim : nat;
  weight : nat -> nat -> R
}.

Definition forward (self : t) (input : tensor2 nat) : M (tensor3 R) :=
  lift (
    if all_upto (rows input) (fun i =>
         all_upto (cols input) (fun j => (at2 input i j <? num_embeddings self)%nat))
    then Ok {| dim0 := rows input; dim1 := cols input; dim2 := embedding_dim self;
               at3 := fun i j k => weight self (at2 input i j) k |}
    else Raise IndexError).

End Embedding.

Module Linear.

Record t : Type := {
  in_features : nat;
  out_features : nat;
  weight : nat -> nat -> R;
  bias : nat -> R
}.

Definition apply (self : t) (x : nat -> R) (o : nat) : R :=
  (Rsum (in_features self) (fun i => weight self o i * x i) + bias self o)%R.

Definition forward2 (self : t) (x : tensor2 R) : M (tensor2 R) :=
  lift (
    if decide (cols x = in_features self) then
      Ok {| rows := rows x; cols := out_features self;
            at2 := fun i o => apply self (at2 x i) o |}
    else Raise RuntimeError).

Definition forward3 (self : t) (x : tensor3 R) : M (tensor3 R) :=
  lift (
    if decide (dim2 x = in_features self) then
      Ok {| dim0 := dim0 x; dim1 := dim1 x; dim2 := out_features self;
            at3 := fun i j o => apply self (at3 x i j) o |}
    else Raise RuntimeError).

End Linear.

Module LSTM.

(** A single-layer, unidirectional, batch-first LSTM.  With one layer the
    framework applies no dropout between layers, whatever its [dropout]
    attribute holds.  It rejects an input without time steps. *)
Record t : Type := {
  input_size : nat;
  hidden_size : nat;
  weight_ih : nat -> nat -> R;
  weight_hh : nat -> nat -> R;
  bias_ih : nat -> R;
  bias_hh : nat -> R;
  dropout : R
}.

Definition gate (self : t) (x h : nat -> R) (j : nat) : R :=
  (Rsum (input_size self) (fun i => weight_ih self j i * x i) + bias_ih self j
   + Rsum (hidden_size self) (fun k => weight_hh self j k * h k) + bias_hh self j)%R.

(** One time step for one batch element: gates in the order i, f, g, o. *)
Definition cell (self : t) (x h c : nat -> R) : (nat -> R) * (nat -> R) :=
  let H := hidden_size self in
  let i_ j := sigmoid (gate self x h j) in
  let f_ j := sigmoid (gate self x h (H + j)) in
  let g_ j := tanh (gate self x h (2 * H + j)) in
  let o_ j := sigmoid (gate self x h (3 * H + j)) in
  let c' j := (f_ j * c j + i_ j * g_ j)%R in
  let h' j := (o_ j * tanh (c' j))%R in
  (h', c').

(** The recurrent state of one batch element after [s] time steps. *)
Fixpoint states (self : t) (x : nat -> nat -> R) (h0 c0 : nat -> R) (s : nat)
    : (nat -> R) * (nat -> R) :=
  match s with
  | O => (h0, c0)
  | S k => let hc := states self x h0 c0 k in cell self (x k) (fst hc) (snd hc)
  end.

Definition zeros (n0 n1 n2 : nat) : tensor3 R :=
  {| dim0 := n0; dim1 := n1; dim2 := n2; at3 := fun _ _ _ => 0%R |}.

Definition forward (self : t) (input : tensor3 R) (hx : option (tensor3 R * tensor3 R))
    : M (tensor3 R * (tensor3 R * tensor3 R)) :=
  lift (
    let B := dim0 input in
    let H := hidden_size self in
    let hx := match hx with
              | Some hc => hc
              | None => (zeros 1 B H, zeros 1 B H)
              end in
    let h0 := fst hx in
    let c0 := snd hx in
    if decide (dim1 input <> 0
               /\ dim2 input = input_size self
               /\ (dim0 h0 = 1 /\ dim1 h0 = B /\ dim2 h0 = H)
               /\ (dim0 c0 = 1 /\ dim1 c0 = B /\ dim2 c0 = H)) then
      let st b s := states self (at3 input b) (at3 h0 0 b) (at3 c0 0 b) s in
      Ok ({| dim0 := B; dim1 := dim1 input; dim2 := H;
             at3 := fun b s j => fst (st b (S s)) j |},
          ({| dim0 := 1; dim1 := B; dim2 := H;
              at3 := fun _ b j => fst (st b (dim1 input)) j |},
           {| dim0 := 1; dim1 := B; dim2 := H;
              at3 := fun _ b j => snd (st b (dim1 input)) j |}))
    else Raise RuntimeError).

End LSTM.

(** ** The model: [Encoder], [Attention], [Decoder] *)

Module Encoder.

Record t : Type := {
  hidden_size : nat;
  embedding : Embedding.t;
  lstm : LSTM.t;
  dropout : Dropout.t
}.

Definition forward (self : t) (input_seq : tensor2 nat)
    : M (tensor3 R * (tensor3 R * tensor3 R)) :=
  run! embedded := Embedding.forward (embedding self) input_seq in
  run! (outputs, hc) := LSTM.forward (lstm self) embedded None in
  ret (outputs, hc).

Definition eval (self : t) : t :=
  {| hidden_size := hidden_size self; embedding := embedding self;
     lstm := lstm self; dropout := Dropout.eval (dropout self) |}.

(** [encoder(input_seq)] on a tensor paired with its element type: the
    embedding, which is the first layer [forward] applies, looks up integer
    tensors only. *)
Definition call (self : t) (input_seq : dtype * tensor2 nat)
    : M (tensor3 R * (tensor3 R * tensor3 R)) :=
  match fst input_seq with
  | int64 => forward self (snd input_seq)
  | float32 => lift (Raise RuntimeError)
  end.

End Encoder.

Module Attention.

Record t : Type := {
  attn : Linear.t;
  v : tensor1 R;
  dropout : Dropout.t
}.

Definition forward (self : t) (hidden : tensor2 R) (encoder_outputs : tensor3 R)
    : M (tensor2 R) :=
  let seq_len := dim1 encoder_outputs in
  let hidden := repeat3 (unsqueeze1_2 hidden) 1 seq_len 1 in
  run! joined := lift (cat_dim2 hidden encoder_outputs) in
  run! projected := Linear.forward3 (attn self) joined in
  let energy := tanh3 projected in
  let energy := permute021 energy in
  let v := unsqueeze1_2 (repeat1_2 (v self) (dim0 encoder_outputs) 1) in
  run! scores := lift (bmm v energy) in
  run! attention_weights := lift (squeeze1 scores) in
  ret (softmax_dim1 attention_weights).

Definition eval (self : t) : t :=
  {| attn := attn self; v := v self; dropout := Dropout.eval (dropout self) |}.

End Attention.

Module Decoder.

Record t : Type := {
  embedding : Embedding.t;
  lstm : LSTM.t;
  fc : Linear.t;
  dropout : Dropout.t;
  attention : Attention.t
}.

Definition forward (self : t) (input : tensor1 nat) (hidden cell : tensor3 R)
    (encoder_outputs : tensor3 R)
    : M (tensor2 R * tensor3 R * tensor3 R * tensor2 R) :=
  let input := unsqueeze1_1 input in
  run! embedded := Embedding.forward (embedding self) input in
  run! (lstm_output, (hidden, cell)) :=
    LSTM.forward (lstm self) embedded (Some (hidden, cell)) in
  run! top := lift (last_dim0 hidden) in
  run! attention_weights := Attention.forward (attention self) top encoder_outputs in
  run! context := lift (bmm (unsqueeze1_2 attention_weights) encoder_outputs) in
  run! lstm_output := lift (squeeze1 lstm_output) in
  run! context := lift (squeeze1 context) in
  run! joined := lift (cat_dim1 lstm_output context) in
  run! output := Linear.forward2 (fc self) joined in
  ret (output, hidden, cell, attention_weights).

Definition eval (self : t) : t :=
  {| embedding := embedding self; lstm := lstm self; fc := fc self;
     dropout := Dropout.eval (dropout self);
     attention := Attention.eval (attention self) |}.

End Decoder.

(** ** The loss: [nn.CrossEntropyLoss(ignore_index=...)], mean reduction *)

Module CrossEntropyLoss.

Record t : Type := {
  ignore_index : nat
}.

(** Cross-entropy of one row of logits against class [y]:
    [-log(softmax(row)[y])]. *)
Definition nll (input : tensor2 R) (b y : nat) : R :=
  (ln (Rsum (cols input) (fun j => exp (at2 input b j))) - at2 input b y)%R.

Definition counted (self : t) (target : tensor1 nat) (b : nat) : bool :=
  negb (at1 target b =? ignore_index self)%nat.

(** The mean of [nll] over the rows whose target is not [ignore_index].
    With no such row the framework yields a not-a-number, which the reals do
    not have: the value below is then meaningless, and every statement
    about it assumes at least one counted row. *)
Definition forward (self : t) (input : tensor2 R) (target : tensor1 nat) : result R :=
  if decide (rows input = len1 target) then
    if all_upto (len1 target) (fun b =>
         negb (counted self target b) || (at1 target b <? cols input)%nat)
    then
      Ok (Rsum (len1 target) (fun b =>
            if counted self target b then nll input b (at1 target b) else 0%R)
          / INR (count_upto (len1 target) (counted self target)))%R
    else Raise IndexError
  else Raise ValueError.

End CrossEntropyLoss.

(** ** Batching: [pad_sequence] and the data loader *)

(** The entries of the tensor that holds the sequences row by row, each one
    filled up with [padding_value] to the length of the longest. *)
Definition pad_rows (sequences : list (list nat)) (padding_value : nat) : tensor2 nat :=
  {| rows := length sequences;
     cols := fold_right Nat.max 0 (map (@length nat) sequences);
     at2 := fun i j => nth j (nth i sequences []) padding_value |}.

(** [pad_sequence(sequences, batch_first=True, padding_value=...)] on 1-D
    tensors: an empty list is rejected, and the result has the element type
    of the first sequence. *)
Definition pad_sequence (sequences : list (dtype * list nat)) (padding_value : nat)
    : result (dtype * tensor2 nat) :=
  match sequences with
  | [] => Raise RuntimeError
  | (element_type, _) :: _ =>
      Ok (element_type, pad_rows (map snd sequences) padding_value)
  end.

(** The batch a data loader stacks from the rows [indices] of a data set. *)
Definition batch_of {A : Type} (data : tensor2 A) (indices : list nat) : tensor2 A :=
  {| rows := length indices; cols := cols data;
     at2 := fun i j => at2 data (nth i indices 0) j |}.

(** The two callables the loops are handed: [encoder(input_seq)] and
    [decoder(input, hidden, cell, encoder_outputs)]. *)
Abbreviation encoder_call := (tensor2 nat -> M (tensor3 R * (tensor3 R * tensor3 R))).
Abbreviation decoder_call :=
  (tensor1 nat -> tensor3 R -> tensor3 R -> tensor3 R
   -> M (tensor2 R * tensor3 R * tensor3 R * tensor2 R)).

(** ** The data sets and the data loader

    Indices are the non-negative ones a data loader passes. *)

Module BasicMathWordProblemDataset.

Record t : Type := {
  input_data : list (list nat);
  target_data : list (list nat)
}.

Definition init (input_sentences target_sentences : list string)
    (word_to_index : list (string * nat)) : result t :=
  let! input_data :=
    list_comp (fun sentence => list_comp (dict_getitem word_to_index) (split sentence))
              input_sentences in
  let! target_data :=
    list_comp (fun sentence =>
                 let! sos := dict_getitem word_to_index START_OF_SEQUENCE in
                 let! tokens := list_comp (dict_getitem word_to_index) (split sentence) in
                 let! eos := dict_getitem word_to_index END_OF_SEQUENCE in
                 Ok ([sos] ++ tokens ++ [eos]))
              target_sentences in
  Ok {| input_data := input_data; target_data := target_data |}.

Definition len (self : t) : nat := length (input_data self).

Definition getitem (self : t) (idx : nat) : result (tensor1 nat * tensor1 nat) :=
  match input_data self !! idx with
  | None => Raise IndexError
  | Some input =>
      match target_data self !! idx with
      | None => Raise IndexError
      | Some target => Ok (tensor_of_list 0 input, tensor_of_list 0 target)
      end
  end.

End BasicMathWordProblemDataset.

Module DynamicMathWordProblemDataset.

Record t : Type := {
  input_data : dtype * tensor2 nat;
  target_data : dtype * tensor2 nat
}.

Definition init (input_padded target_padded : dtype * tensor2 nat) : t :=
  {| input_data := input_padded; target_data := target_padded |}.

Definition len (self : t) : nat := rows (snd (input_data self)).

Definition getitem (self : t) (idx : nat)
    : result ((dtype * tensor1 nat) * (dtype * tensor1 nat)) :=
  let! input := select_row (snd (input_data self)) idx in
  let! target := select_row (snd (target_data self)) idx in
  Ok ((fst (input_data self), input), (fst (target_data self), target)).

End DynamicMathWordProblemDataset.

(** [DataLoader(dataset, batch_size=..., shuffle=False)] over a data set
    given by its [__len__] and [__getitem__].  Without shuffling the indices
    come in order, [batch_size] at a time, the last batch holding what is
    left; the items of a batch are fetched in order and stacked, which needs
    them to be equally long.  The loader yields its batches one by one; here
    they are the list of all of them. *)
Module DataLoader.

Definition batch_indices (n batch_size : nat) : list (list nat) :=
  map (fun k => seq (k * batch_size) (Nat.min batch_size (n - k * batch_size)))
      (seq 0 ((n + batch_size - 1) / batch_size)).

(** [torch.stack(xs)] on 1-D tensors paired with their element types. *)
Definition stack {A : Type} (xs : list (dtype * tensor1 A)) : result (dtype * tensor2 A) :=
  match xs with
  | [] => Raise RuntimeError
  | x :: _ =>
      if forallb (fun y => (len1 (snd y) =? len1 (snd x))%nat) xs then
        Ok (fold_right promote int64 (map fst xs),
            {| rows := length xs; cols := len1 (snd x);
               at2 := fun i j => at1 (snd (nth i xs x)) j |})
      else Raise RuntimeError
  end.

Definition collate (items : list ((dtype * tensor1 nat) * (dtype * tensor1 nat)))
    : result ((dtype * tensor2 nat) * (dtype * tensor2 nat)) :=
  let! inputs := stack (map fst items) in
  let! targets := stack (map snd items) in
  Ok (inputs, targets).

Definition batches (len : nat)
    (getitem : nat -> result ((dtype * tensor1 nat) * (dtype * tensor1 nat)))
    (batch_size : nat) : result (list ((dtype * tensor2 nat) * (dtype * tensor2 nat))) :=
  if decide (batch_size = 0) then Raise ValueError
  else list_comp (fun indices => let! items := list_comp getitem indices in collate items)
                 (batch_indices len batch_size).

End DataLoader.

(** The cells that turn the rows of the corpus into tensors, pad them, wrap
    them in a [DynamicMathWordProblemDataset] and load it unshuffled
    ([batch_size] is 64 in the notebook). *)
Definition build_dataset (c : corpus) : result DynamicMathWordProblemDataset.t :=
  let input_tensors := map torch_tensor (input_data c) in
  let target_tensors := map torch_tensor (target_data c) in
  let! pad := dict_getitem (word_to_index c) PADDING_SEQUENCE in
  let! input_padded := pad_sequence input_tensors pad in
  let! pad := dict_getitem (word_to_index c) PADDING_SEQUENCE in
  let! target_padded := pad_sequence target_tensors pad in
  Ok (DynamicMathWordProblemDataset.init input_padded target_padded).

Definition dataloader (c : corpus) (batch_size : nat)
    : result (list ((dtype * tensor2 nat) * (dtype * tensor2 nat))) :=
  let! dataset := build_dataset c in
  DataLoader.batches (DynamicMathWordProblemDataset.len dataset)
                     (DynamicMathWordProblemDataset.getitem dataset) batch_size.

(** ** The training loop: one batch of [train]

    [train] reads [encoder], [decoder], [criterion] and [word_to_index] from
    the notebook's globals; they are the section's variables.  Only what
    [train] does with a batch up to the backward pass is embedded: gradients
    and optimizer steps are the framework's. *)

Module Training.

Record state : Type := {
  decoder_input : tensor1 nat;
  decoder_hidden : tensor3 R;
  decoder_cell : tensor3 R;
  loss : R;
  attention_weights : option (tensor2 R);
  (** ghost: the inputs handed to the decoder and the logits it returned,
      one entry per time step, oldest first *)
  fed : list (tensor1 nat);
  outputs : list (tensor2 R)
}.

Section train.
Variable encoder : encoder_call.
Variable decoder : decoder_call.
Variable criterion : CrossEntropyLoss.t.
Variable word_to_index : list (string * nat).

(** [(target_seq != pad).sum(dim=1)] *)
Definition lengths (target_seq : tensor2 nat) (pad : nat) : tensor1 nat :=
  {| len1 := rows target_seq;
     at1 := fun b => count_upto (cols target_seq)
                       (fun j => negb (at2 target_seq b j =? pad)%nat) |}.

(** [t < target_lengths] *)
Definition active (t : nat) (target_lengths : tensor1 nat) : tensor1 bool :=
  {| len1 := len1 target_lengths; at1 := fun b => (t <? at1 target_lengths b)%nat |}.

(** [x.max().item()] *)
Definition max_item (x : tensor1 nat) : result nat :=
  if decide (len1 x = 0) then Raise RuntimeError else Ok (max_upto (len1 x) (at1 x)).

(** [(c * still_active.float()).sum() / still_active.sum()] *)
Definition masked_term (c : R) (still_active : tensor1 bool) : R :=
  (Rsum (len1 still_active) (fun b => c * (if at1 still_active b then 1 else 0))
   / INR (count_upto (len1 still_active) (at1 still_active)))%R.

(** [for t in range(max_target_length): ...], over the remaining values of [t]. *)
Fixpoint timestep_loop (encoder_outputs : tensor3 R) (target_seq : tensor2 nat)
    (target_lengths : tensor1 nat) (ts : list nat) (st : state) : M state :=
  match ts with
  | [] => ret st
  | t :: rest =>
      let still_active := active t target_lengths in
      if negb (any_upto (len1 still_active) (at1 still_active)) then ret st
      else
        run! (output, hidden, cell, weights) :=
          decoder (decoder_input st) (decoder_hidden st) (decoder_cell st)
                  encoder_outputs in
        run! target_t := lift (select_col target_seq t) in
        run! c := lift (CrossEntropyLoss.forward criterion output target_t) in
        let loss := (loss st + masked_term c still_active)%R in
        run! next_input := lift (select_col target_seq t) in
        timestep_loop encoder_outputs target_seq target_lengths rest
          {| decoder_input := next_input;
             decoder_hidden := hidden;
             decoder_cell := cell;
             loss := loss;
             attention_weights := Some weights;
             fed := fed st ++ [decoder_input st];
             outputs := outputs st ++ [output] |}
  end.

Definition train_batch (input_seq target_seq : tensor2 nat) : M state :=
  run! (encoder_outputs, (hidden, cell)) := encoder input_seq in
  run! sos := lift (dict_getitem word_to_index START_OF_SEQUENCE) in
  let decoder_input := tensor_of_list 0 (repeat sos (rows input_seq)) in
  run! pad := lift (dict_getitem word_to_index PADDING_SEQUENCE) in
  let target_lengths := lengths target_seq pad in
  run! max_target_length := lift (max_item target_lengths) in
  timestep_loop encoder_outputs target_seq target_lengths (seq 0 max_target_length)
    {| decoder_input := decoder_input;
       decoder_hidden := hidden;
       decoder_cell := cell;
       loss := 0%R;
       attention_weights := None;
       fed := [];
       outputs := [] |}.

End train.

End Training.

(** ** Hyperparameter tuning: one batch of [objective]

    What [objective] does with a batch up to the backward pass.  The encoder
    and the decoder are the ones the trial has built. *)

Module Objective.

Record state : Type := {
  decoder_input : tensor1 nat;
  decoder_hidden : tensor3 R;
  decoder_cell : tensor3 R;
  loss : R;
  (** ghost: the inputs handed to the decoder and the logits it returned,
      one entry per time step, oldest first *)
  fed : list (tensor1 nat);
  outputs : list (tensor2 R)
}.

Section objective.
Variable encoder : encoder_call.
Variable decoder : decoder_call.
Variable criterion : CrossEntropyLoss.t.
Variable word_to_index : list (string * nat).

(** [for t in range(target_seq.size(1)): ...], over the remaining values of [t]. *)
Fixpoint timestep_loop (encoder_outputs : tensor3 R) (target_seq : tensor2 nat)
    (ts : list nat) (st : state) : M state :=
  match ts with
  | [] => ret st
  | t :: rest =>
      run! (output, hidden, cell, _) :=
        decoder (decoder_input st) (decoder_hidden st) (decoder_cell st)
                encoder_outputs in
      run! target_t := lift (select_col target_seq t) in
      run! c := lift (CrossEntropyLoss.forward criterion output target_t) in
      let loss := (loss st + c)%R in
      run! next_input := lift (select_col target_seq t) in
      timestep_loop encoder_outputs target_seq rest
        {| decoder_input := next_input;
           decoder_hidden := hidden;
           decoder_cell := cell;
           loss := loss;
           fed := fed st ++ [decoder_input st];
           outputs := outputs st ++ [output] |}
  end.

Definition batch (input_seq target_seq : tensor2 nat) : M state :=
  run! (encoder_outputs, (hidden, cell)) := encoder input_seq in
  run! sos := lift (dict_getitem word_to_index START_OF_SEQUENCE) in
  let decoder_input := tensor_of_list 0 (repeat sos (rows input_seq)) in
  timestep_loop encoder_outputs target_seq (seq 0 (cols target_seq))
    {| decoder_input := decoder_input;
       decoder_hidden := hidden;
       decoder_cell := cell;
       loss := 0%R;
       fed := [];
       outputs := [] |}.

End objective.

End Objective.

(** ** Greedy inference: [test] and [generate_predictions] *)

(** Index of the first largest of [f 0 .. f (n-1)]. *)
Fixpoint argmax_upto (n : nat) (f : nat -> R) : nat :=
  match n with
  | O => O
  | S k => let best := argmax_upto k f in
           if Rlt_dec (f best) (f k) then k else best
  end.

(** [output.argmax(1).item()] *)
Definition argmax_item (output : tensor2 R) : result nat :=
  if decide (cols output = 0) then Raise IndexError
  else if decide (rows output = 1) then Ok (argmax_upto (cols output) (at2 output 0))
  else Raise RuntimeError.

Definition stacked_rows (ms : list (tensor2 R)) : list (nat -> R) :=
  flat_map (fun m => map (at2 m) (seq 0 (rows m))) ms.

(** [np.vstack(ms)] *)
Definition vstack (ms : list (tensor2 R)) : result (tensor2 R) :=
  match ms with
  | [] => Raise ValueError
  | m :: _ =>
      if forallb (fun m' => (cols m' =? cols m)%nat) ms then
        Ok {| rows := length (stacked_rows ms); cols := cols m;
              at2 := fun i j => nth i (stacked_rows ms) (fun _ => 0%R) j |}
      else Raise ValueError
  end.

Module Inference.

Record state : Type := {
  output_sequence : list nat;
  attention_matrices : list (tensor2 R);
  decoder_input : tensor1 nat;
  decoder_hidden : tensor3 R;
  decoder_cell : tensor3 R;
  (** ghost: how many times the decoder has been called *)
  steps : nat
}.

Section greedy.
Variable encoder : encoder_call.
Variable decoder : decoder_call.
Variable word_to_index : list (string * nat).
Variable index_to_word : list (nat * string).

(** The [for _ in range(max_target_length)] loop of [test], with [n]
    iterations left. *)
Fixpoint test_loop (encoder_outputs : tensor3 R) (n : nat) (st : state) : M state :=
  match n with
  | O => ret st
  | S n' =>
      run! (output, hidden, cell, weights) :=
        decoder (decoder_input st) (decoder_hidden st) (decoder_cell st)
                encoder_outputs in
      run! predicted_token := lift (argmax_item output) in
      run! eos := lift (dict_getitem word_to_index END_OF_SEQUENCE) in
      if decide (predicted_token = eos) then
        ret {| output_sequence := output_sequence st;
               attention_matrices := attention_matrices st;
               decoder_input := decoder_input st;
               decoder_hidden := hidden;
               decoder_cell := cell;
               steps := S (steps st) |}
      else
        test_loop encoder_outputs n'
          {| output_sequence := output_sequence st ++ [predicted_token];
             attention_matrices := attention_matrices st ++ [weights];
             decoder_input := tensor_of_list 0 [predicted_token];
             decoder_hidden := hidden;
             decoder_cell := cell;
             steps := S (steps st) |}
  end.

(** The same loop in [generate_predictions], which keeps no attention. *)
Fixpoint generate_loop (encoder_outputs : tensor3 R) (n : nat) (st : state) : M state :=
  match n with
  | O => ret st
  | S n' =>
      run! (output, hidden, cell, _) :=
        decoder (decoder_input st) (decoder_hidden st) (decoder_cell st)
                encoder_outputs in
      run! predicted_token := lift (argmax_item output) in
      run! eos := lift (dict_getitem word_to_index END_OF_SEQUENCE) in
      if decide (predicted_token = eos) then
        ret {| output_sequence := output_sequence st;
               attention_matrices := attention_matrices st;
               decoder_input := decoder_input st;
               decoder_hidden := hidden;
               decoder_cell := cell;
               steps := S (steps st) |}
      else
        generate_loop encoder_outputs n'
          {| output_sequence := output_sequence st ++ [predicted_token];
             attention_matrices := attention_matrices st;
             decoder_input := tensor_of_list 0 [predicted_token];
             decoder_hidden := hidden;
             decoder_cell := cell;
             steps := S (steps st) |}
  end.

(** [test].  The two callables stand for the modules after [eval()];
    printing and plotting have no effect on what is returned. *)
Definition test (input_sentence : string) (max_target_length : nat)
    (with_attention_plot : bool) : M (list string) :=
  run! input_tokens :=
    lift (list_comp (dict_getitem word_to_index) (split input_sentence)) in
  let input_seq := unsqueeze0_1 (tensor_of_list 0 input_tokens) in
  run! (encoder_outputs, (hidden, cell)) := encoder input_seq in
  run! sos := lift (dict_getitem word_to_index START_OF_SEQUENCE) in
  run! st := test_loop encoder_outputs max_target_length
    {| output_sequence := [];
       attention_matrices := [];
       decoder_input := tensor_of_list 0 [sos];
       decoder_hidden := hidden;
       decoder_cell := cell;
       steps := 0 |} in
  run! input_sentence_tokens :=
    lift (list_comp (dict_getitem index_to_word) input_tokens) in
  run! output_sentence_tokens :=
    lift (list_comp (dict_getitem index_to_word) (output_sequence st)) in
  run! attention_matrix := lift (vstack (attention_matrices st)) in
  lift (list_comp (dict_getitem index_to_word) (output_sequence st)).

Definition generate_predictions (input_sentence : string) (max_target_length : nat)
    : M (list string) :=
  run! input_tokens :=
    lift (list_comp (dict_getitem word_to_index) (split input_sentence)) in
  let input_seq := unsqueeze0_1 (tensor_of_list 0 input_tokens) in
  run! (encoder_outputs, (hidden, cell)) := encoder input_seq in
  run! sos := lift (dict_getitem word_to_index START_OF_SEQUENCE) in
  run! st := generate_loop encoder_outputs max_target_length
    {| output_sequence := [];
       attention_matrices := [];
       decoder_input := tensor_of_list 0 [sos];
       decoder_hidden := hidden;
       decoder_cell := cell;
       steps := 0 |} in
  lift (list_comp (dict_getitem index_to_word) (output_sequence st)).

End greedy.

End Inference.

(** ** The dataset generator: [SimpleMathProblemsGenerator]

    Python's floats, its true division and [round], and the [num2words]
    package are outside the repository: they are the section's variables. *)

(** [random.randint(a, b)]: some integer of [a .. b]. *)
Definition randint (a b : Z) : M Z :=
  fun g =>
    if decide (a <= b)%Z then
      let (r, g') := draw g in Ok ((a + Z.of_nat r mod (b - a + 1))%Z, g')
    else Raise ValueError.

(** [random.choice(xs)] *)
Definition choice {A : Type} (xs : list A) : M A :=
  fun g =>
    let (r, g') := draw g in
    match xs !! (r mod length xs) with
    | Some x => Ok (x, g')
    | None => Raise IndexError
    end.

Module SimpleMathProblemsGenerator.

Section generator.
Variable float : Type.
Variable truediv : Z -> Z -> float.
Variable round : float -> Z -> float.
Variable num2words_int : Z -> string.
Variable num2words_float : float -> string.

(** What an operation returns: an [int], a [float] or [None]. *)
Inductive value : Type :=
| Int (z : Z)
| Float (f : float)
| None_.

Definition num2words (x : value) : result string :=
  match x with
  | Int z => Ok (num2words_int z)
  | Float f => Ok (num2words_float f)
  | None_ => Raise ValueError
  end.

Record t : Type := {
  num_samples : nat;
  output_file : string;
  operations : list (string * (Z -> Z -> value));
  existing_questions_and_answers : gset (string * string)
}.

(** The four operations [__init__] installs. *)
Definition standard_operations : list (string * (Z -> Z -> value)) :=
  [("plus", fun x y => Int (x + y));
   ("minus", fun x y => Int (x - y));
   ("times", fun x y => Int (x * y));
   ("divided by", fun x y =>
      if decide (y <> 0%Z) then Float (round (truediv x y) 2) else None_)].

Definition init (num_samples : nat) (output_file : string) : t :=
  {| num_samples := num_samples;
     output_file := output_file;
     operations := standard_operations;
     existing_questions_and_answers := ∅ |}.

(** The local variables of one pass through the body of [while True]. *)
Record attempt : Type := {
  num1 : Z;
  num2 : Z;
  operation : string;
  result_ : value;
  question : string;
  answer : string
}.

Definition attempt_once (self : t) : M attempt :=
  run! num1 := randint 1 100 in
  run! num2 := randint 1 100 in
  run! (operation, func) := choice (operations self) in
  run! num2 :=
    (if decide (operation = "divided by" /\ num2 = 0%Z) then randint 1 100
     else ret num2) in
  let result := func num1 num2 in
  run! result_word :=
    lift (match result with
          | None_ => Ok "undefined"
          | _ => let! w := num2words result in
                 Ok (replace "," EmptyString (replace "-" " " w))
          end) in
  let question :=
    replace "-" " "
      (num2words_int num1 ++ " " ++ operation ++ " " ++ num2words_int num2)%string in
  let answer := result_word in
  ret {| num1 := num1; num2 := num2; operation := operation; result_ := result;
         question := question; answer := answer |}.

(** [generate_problem]: the loop runs until an unseen pair turns up, which
    need never happen; [None] is for a loop cut off after [fuel] passes. *)
Fixpoint generate_problem (fuel : nat) (self : t) (g : oracle)
    : option (result ((string * string) * t * oracle)) :=
  match fuel with
  | O => None
  | S fuel' =>
      match attempt_once self g with
      | Raise e => Some (Raise e)
      | Ok (a, g') =>
          if decide ((question a, answer a) ∉ existing_questions_and_answers self) then
            Some (Ok ((question a, answer a),
                      {| num_samples := num_samples self;
                         output_file := output_file self;
                         operations := operations self;
                         existing_questions_and_answers :=
                           {[ (question a, answer a) ]}
                           ∪ existing_questions_and_answers self |},
                      g'))
          else generate_problem fuel' self g'
      end
  end.

(** [[self.generate_problem() for _ in range(n)]] *)
Fixpoint generate_rows (fuel : nat) (n : nat) (self : t) (g : oracle)
    : option (result (list (string * string) * t * oracle)) :=
  match n with
  | O => Some (Ok ([], self, g))
  | S n' =>
      match generate_problem fuel self g with
      | None => None
      | Some (Raise e) => Some (Raise e)
      | Some (Ok (row, self', g')) =>
          match generate_rows fuel n' self' g' with
          | None => None
          | Some (Raise e) => Some (Raise e)
          | Some (Ok (data, self'', g'')) => Some (Ok (row :: data, self'', g''))
          end
      end
  end.

(** [generate_dataset]: the rows of the data frame. *)
Definition generate_dataset (fuel : nat) (self : t) (g : oracle)
    : option (result (list (string * string) * t * oracle)) :=
  generate_rows fuel (num_samples self) self g.

End generator.

Arguments Int {float} z.
Arguments Float {float} f.
Arguments None_ {float}.
Arguments num_samples {float} t.
Arguments output_file {float} t.
Arguments operations {float} t.
Arguments existing_questions_and_answers {float} t.
Arguments num1 {float} a.
Arguments num2 {float} a.
Arguments operation {float} a.
Arguments result_ {float} a.
Arguments question {float} a.
Arguments answer {float} a.

End SimpleMathProblemsGenerator.

(* ================================================================== *)
(** * Specification vocabulary

    The predicates the theorems are stated with, and small inputs on which
    they are run. *)
(* ================================================================== *)

(** ** Vocabulary *)

(** What one pass of the loop body does to the dictionary. *)
Definition learn (word : string) (d : list (string * nat)) : list (string * nat) :=
  if dict_in word d then d else dict_set d word (length d).

(** The entries of the vocabulary carry the ids 0, 1, 2, ... in order, under
    pairwise different words. *)
Definition numbered (d : list (string * nat)) : Prop :=
  map snd d = seq 0 (length d) /\ List.NoDup (map fst d).

(** The reserved tokens keep the ids 0, 1 and 2. *)
Definition reserved (d : list (string * nat)) : Prop :=
  dict_get d START_OF_SEQUENCE = Some 0
  /\ dict_get d END_OF_SEQUENCE = Some 1
  /\ dict_get d PADDING_SEQUENCE = Some 2.

(** Every word of the sentences has an id in [d]. *)
Definition covers (d : list (string * nat)) (sentences : list string) : Prop :=
  forall s w, In s sentences -> In w (split (lower s)) -> exists i, dict_get d w = Some i.

(** The dict comprehension that reverses the vocabulary. *)
Definition invert_onto (acc : list (nat * string)) (d : list (string * nat))
    : list (nat * string) :=
  fold_left (fun acc kv => dict_set acc (snd kv) (fst kv)) d acc.

(** Whether a string holds an upper-case letter. *)
Fixpoint has_upper (s : string) : bool :=
  match s with
  | EmptyString => false
  | String c rest => is_upper c || has_upper rest
  end.

(** ** Shapes *)

(** The shape of a 3-D tensor. *)
Definition shape3 {A : Type} (x : tensor3 A) : nat * nat * nat := (dim0 x, dim1 x, dim2 x).

(** The shapes [Attention.forward] needs: one hidden row per batch element,
    a linear layer that takes a hidden row joined with an encoder row, and a
    weight vector as long as that layer's output. *)
Definition attention_shapes (self : Attention.t) (hidden : tensor2 R)
    (encoder_outputs : tensor3 R) : Prop :=
  rows hidden = dim0 encoder_outputs
  /\ cols hidden + dim2 encoder_outputs = Linear.in_features (Attention.attn self)
  /\ len1 (Attention.v self) = Linear.out_features (Attention.attn self).

(** The encoder's layers fit each other. *)
Definition encoder_fits (self : Encoder.t) : Prop :=
  Embedding.embedding_dim (Encoder.embedding self) = LSTM.input_size (Encoder.lstm self).

(** The decoder's layers fit each other and encoder outputs of width
    [width], as they do when the modules are built with one hidden size. *)
Definition decoder_fits (self : Decoder.t) (width : nat) : Prop :=
  let H := LSTM.hidden_size (Decoder.lstm self) in
  let attention := Decoder.attention self in
  Embedding.embedding_dim (Decoder.embedding self) = LSTM.input_size (Decoder.lstm self)
  /\ Linear.in_features (Attention.attn attention) = H + width
  /\ len1 (Attention.v attention) = Linear.out_features (Attention.attn attention)
  /\ Linear.in_features (Decoder.fc self) = H + width.

(** An encoder and a decoder built with one hidden size, and a decoder whose
    classes are all tokens it can embed. *)
Definition model_fits (encoder : Encoder.t) (decoder : Decoder.t) : Prop :=
  encoder_fits encoder
  /\ decoder_fits decoder (LSTM.hidden_size (Encoder.lstm encoder))
  /\ LSTM.hidden_size (Decoder.lstm decoder) = LSTM.hidden_size (Encoder.lstm encoder)
  /\ Linear.out_features (Decoder.fc decoder) <> 0
  /\ Linear.out_features (Decoder.fc decoder)
     <= Embedding.num_embeddings (Decoder.embedding decoder).

(** ** Determinism *)

(** A call is deterministic when it has one outcome, whatever the state of
    the generator, and hands the generator back as it found it. *)
Definition deterministic {A : Type} (c : M A) : Prop :=
  exists r : result A, forall g, c g = lift r g.

(** ** Training *)

(** The sum of a list of reals. *)
Definition sum_list (xs : list R) : R := fold_right Rplus 0%R xs.

(** [target_seq[:, t]] as a tensor. *)
Definition column (target_seq : tensor2 nat) (t : nat) : tensor1 nat :=
  {| len1 := rows target_seq; at1 := fun i => at2 target_seq i t |}.

(** The masked mean at step [t]: over the examples whose target is longer
    than [t], the mean of the cross-entropy between the logits [output] and
    the ground-truth token at position [t]; the other examples add zero. *)
Definition masked_mean (target_seq : tensor2 nat) (target_lengths : tensor1 nat)
    (t : nat) (output : tensor2 R) : R :=
  (Rsum (rows target_seq) (fun b =>
     if (t <? at1 target_lengths b)%nat
     then CrossEntropyLoss.nll output b (at2 target_seq b t) else 0)
   / INR (count_upto (rows target_seq) (fun b => (t <? at1 target_lengths b)%nat)))%R.

(** The plain mean of the cross-entropy over the whole batch. *)
Definition plain_mean (target_seq : tensor2 nat) (t : nat) (output : tensor2 R) : R :=
  (Rsum (rows target_seq) (fun b => CrossEntropyLoss.nll output b (at2 target_seq b t))
   / INR (rows target_seq))%R.

(** Padding only follows the tokens: in each row the entries different from
    [pad] are exactly the first ones, as many as the row's length. *)
Definition right_padded (pad : nat) (target_seq : tensor2 nat) : Prop :=
  forall b j, b < rows target_seq -> j < cols target_seq ->
    (at2 target_seq b j =? pad)%nat
    = negb (j <? at1 (Training.lengths target_seq pad) b)%nat.

(** The state the loop goes on with after time step [t]. *)
Definition after_step (target_seq : tensor2 nat) (pad : nat) (st : Training.state)
    (t : nat) (output : tensor2 R) (hidden cell : tensor3 R) (weights : tensor2 R)
    (c : R) : Training.state :=
  {| Training.decoder_input := column target_seq t;
     Training.decoder_hidden := hidden;
     Training.decoder_cell := cell;
     Training.loss :=
       (Training.loss st
        + Training.masked_term c (Training.active t (Training.lengths target_seq pad)))%R;
     Training.attention_weights := Some weights;
     Training.fed := Training.fed st ++ [Training.decoder_input st];
     Training.outputs := Training.outputs st ++ [output] |}.

(** The state [train] enters the loop over the time steps with. *)
Definition first_state (sos batch_size : nat) (hidden cell : tensor3 R) : Training.state :=
  {| Training.decoder_input := tensor_of_list 0 (repeat sos batch_size);
     Training.decoder_hidden := hidden;
     Training.decoder_cell := cell;
     Training.loss := 0%R;
     Training.attention_weights := None;
     Training.fed := [];
     Training.outputs := [] |}.

(** The decoder answers its calls during training on [target_seq]: from an
    input and a state that are fit, it returns logits the criterion accepts
    against every target column, and a state that is fit again together with
    any target column. *)
Definition decoder_trains (decoder : decoder_call) (criterion : CrossEntropyLoss.t)
    (target_seq : tensor2 nat)
    (fit : tensor1 nat -> tensor3 R -> tensor3 R -> Prop)
    (encoder_outputs : tensor3 R) : Prop :=
  forall input hidden cell g,
    fit input hidden cell ->
    exists output hidden' cell' weights g',
      decoder input hidden cell encoder_outputs g
        = Ok (output, hidden', cell', weights, g')
      /\ forall t, t < cols target_seq ->
           (exists c, CrossEntropyLoss.forward criterion output (column target_seq t) = Ok c)
           /\ fit (column target_seq t) hidden' cell'.

(** The model gets through training on this batch: the encoder returns, and
    from what it returns on the decoder answers step after step. *)
Definition model_trains (encoder : encoder_call) (decoder : decoder_call)
    (criterion : CrossEntropyLoss.t) (input_seq target_seq : tensor2 nat) (sos : nat)
    : Prop :=
  exists fit : tensor3 R -> tensor1 nat -> tensor3 R -> tensor3 R -> Prop,
    (forall g,
       exists encoder_outputs hidden cell g',
         encoder input_seq g = Ok (encoder_outputs, (hidden, cell), g')
         /\ fit encoder_outputs (tensor_of_list 0 (repeat sos (rows input_seq))) hidden cell)
    /\ forall encoder_outputs,
         decoder_trains decoder criterion target_seq (fit encoder_outputs) encoder_outputs.

(** ** Greedy decoding *)

(** The state a loop is left in when the prediction is the end token, and
    the state it goes on with otherwise. *)
Definition stopped (st : Inference.state) (hidden cell : tensor3 R) : Inference.state :=
  {| Inference.output_sequence := Inference.output_sequence st;
     Inference.attention_matrices := Inference.attention_matrices st;
     Inference.decoder_input := Inference.decoder_input st;
     Inference.decoder_hidden := hidden;
     Inference.decoder_cell := cell;
     Inference.steps := S (Inference.steps st) |}.

Definition advanced (st : Inference.state) (token : nat) (attention : list (tensor2 R))
    (hidden cell : tensor3 R) : Inference.state :=
  {| Inference.output_sequence := Inference.output_sequence st ++ [token];
     Inference.attention_matrices := attention;
     Inference.decoder_input := tensor_of_list 0 [token];
     Inference.decoder_hidden := hidden;
     Inference.decoder_cell := cell;
     Inference.steps := S (Inference.steps st) |}.

(** The state the decoding loops start from. *)
Definition initial (sos : nat) (hidden cell : tensor3 R) : Inference.state :=
  {| Inference.output_sequence := [];
     Inference.attention_matrices := [];
     Inference.decoder_input := tensor_of_list 0 [sos];
     Inference.decoder_hidden := hidden;
     Inference.decoder_cell := cell;
     Inference.steps := 0 |}.

(** What a finished run of a decoding loop with [n] iterations has done to
    the state [st] it started from: it appended [new] tokens, none of them
    the end token, with one decoder call per token, plus one call more if it
    stopped at the end token. *)
Definition decoded (eos n : nat) (st st' : Inference.state) : Prop :=
  exists new,
    Inference.output_sequence st' = Inference.output_sequence st ++ new
    /\ ~ In eos new
    /\ ((Inference.steps st' = Inference.steps st + length new /\ length new = n)
        \/ (Inference.steps st' = Inference.steps st + length new + 1 /\ length new < n)).

(** How a run of greedy decoding ends: within [max_target_length] decoder
    calls, with an output free of the end token, and either because the
    calls ran out or because the last call predicted the end token, which
    was dropped. *)
Definition bounded (eos max_target_length : nat) (st : Inference.state) : Prop :=
  Inference.steps st <= max_target_length
  /\ ~ In eos (Inference.output_sequence st)
  /\ ((Inference.steps st = length (Inference.output_sequence st)
       /\ Inference.steps st = max_target_length)
      \/ Inference.steps st = S (length (Inference.output_sequence st))).



(** ** Sample inputs *)

Definition oracle0 : oracle := {| raw := fun i => i; cursor := 0 |}.

Definition oracle1 : oracle := {| raw := fun i => S i; cursor := 0 |}.

(** A vocabulary with one word besides the reserved tokens. *)
Definition sample_vocabulary : list (string * nat) := word_to_index0 ++ [("two", 3)].

(** A small attention module and inputs for it: hidden size 1, batch size 1. *)
Definition tiny_attention : Attention.t :=
  {| Attention.attn := {| Linear.in_features := 2; Linear.out_features := 1;
                          Linear.weight := fun _ _ => 1%R; Linear.bias := fun _ => 0%R |};
     Attention.v := {| len1 := 1; at1 := fun _ => 1%R |};
     Attention.dropout := {| Dropout.p := (1 / 10)%R; Dropout.training := false |} |}.

Definition tiny_hidden : tensor2 R := {| rows := 1; cols := 1; at2 := fun _ _ => 0%R |}.

Definition tiny_encoder_outputs (steps : nat) : tensor3 R :=
  {| dim0 := 1; dim1 := steps; dim2 := 1; at3 := fun _ t _ => INR t |}.

(** A model of hidden size 1 over a vocabulary of four tokens. *)
Definition tiny_embedding : Embedding.t :=
  {| Embedding.num_embeddings := 4; Embedding.embedding_dim := 1;
     Embedding.weight := fun i _ => INR i |}.

Definition tiny_lstm : LSTM.t :=
  {| LSTM.input_size := 1; LSTM.hidden_size := 1;
     LSTM.weight_ih := fun _ _ => 1%R; LSTM.weight_hh := fun _ _ => 1%R;
     LSTM.bias_ih := fun _ => 0%R; LSTM.bias_hh := fun _ => 0%R;
     LSTM.dropout := 0%R |}.

Definition tiny_dropout : Dropout.t :=
  {| Dropout.p := (1 / 10)%R; Dropout.training := false |}.

Definition tiny_encoder : Encoder.t :=
  {| Encoder.hidden_size := 1; Encoder.embedding := tiny_embedding;
     Encoder.lstm := tiny_lstm; Encoder.dropout := tiny_dropout |}.

Definition tiny_decoder : Decoder.t :=
  {| Decoder.embedding := tiny_embedding; Decoder.lstm := tiny_lstm;
     Decoder.fc := {| Linear.in_features := 2; Linear.out_features := 4;
                      Linear.weight := fun o _ => INR o; Linear.bias := fun _ => 0%R |};
     Decoder.dropout := tiny_dropout;
     Decoder.attention := tiny_attention |}.

(** Stand-ins for a trained model: an encoder that returns zeros and a
    decoder whose logits over two classes always favour class 1, the end
    token. *)
Definition sample_encoder : encoder_call :=
  fun input_seq g =>
    Ok (LSTM.zeros 1 (cols input_seq) 1, (LSTM.zeros 1 1 1, LSTM.zeros 1 1 1), g).

Definition sample_decoder : decoder_call :=
  fun input hidden cell encoder_outputs g =>
    Ok ({| rows := 1; cols := 2; at2 := fun _ j => INR j |}, hidden, cell,
        {| rows := 1; cols := dim1 encoder_outputs; at2 := fun _ _ => 1%R |}, g).

(** A batch of two targets, the second one padded. *)
Definition sample_criterion : CrossEntropyLoss.t := {| CrossEntropyLoss.ignore_index := 2 |}.

Definition sample_input_seq : tensor2 nat := tensor_of_rows 0 1 [[3]; [3]].

Definition sample_target_seq : tensor2 nat := tensor_of_rows 0 3 [[0; 3; 1]; [0; 1; 2]].

(** A generator over fractions kept as (numerator, denominator), with
    stand-ins for rounding and for spelling numbers. *)
Definition sample_truediv (x y : Z) : Z * Z := (x, y).

Definition sample_round (f : Z * Z) (ndigits : Z) : Z * Z := f.

Definition sample_num2words_int (z : Z) : string :=
  match z with
  | 2%Z => "two"
  | 3%Z => "three"
  | _ => "many"
  end.

Definition sample_num2words_float (f : Z * Z) : string :=
  match f with
  | (2%Z, 3%Z) => "zero point six seven"
  | _ => "some"
  end.

Definition sample_generator : SimpleMathProblemsGenerator.t (Z * Z) :=
  SimpleMathProblemsGenerator.init (Z * Z) sample_truediv sample_round
    3 "simple_math_problems.csv".

(** ** Corpus rows *)

(** The tokens spell the sentence in the vocabulary [d]: one token per word
    of the lower-cased sentence, each the id of its word. *)
Definition spelled (d : list (string * nat)) (sentence : string) (tokens : list nat) : Prop :=
  Forall2 (fun w i => dict_get d w = Some i) (split (lower sentence)) tokens.

(** A target row: the tokens of the sentence between the start and the end
    token. *)
Definition wrapped (d : list (string * nat)) (sos eos : nat) (sentence : string)
    (row : list nat) : Prop :=
  exists tokens, row = [sos] ++ tokens ++ [eos] /\ spelled d sentence tokens.

(** An id of a word proper: not one of the three reserved ids, and below the
    size of the vocabulary. *)
Definition word_id (d : list (string * nat)) (i : nat) : Prop := 3 <= i < length d.

(** ** Tuning *)

(** The state [objective] goes on with after time step [t]. *)
Definition objective_after_step (target_seq : tensor2 nat) (st : Objective.state)
    (t : nat) (output : tensor2 R) (hidden cell : tensor3 R) (c : R) : Objective.state :=
  {| Objective.decoder_input := column target_seq t;
     Objective.decoder_hidden := hidden;
     Objective.decoder_cell := cell;
     Objective.loss := (Objective.loss st + c)%R;
     Objective.fed := Objective.fed st ++ [Objective.decoder_input st];
     Objective.outputs := Objective.outputs st ++ [output] |}.

(** A batch of two targets of two tokens each, in a tensor padded to three
    columns, as a batch cut from a longer-padded data set is. *)
Definition sample_padded_target_seq : tensor2 nat :=
  tensor_of_rows 0 3 [[0; 1; 2]; [0; 1; 2]].

(** ** The problems the generator can make *)

Section generator_rows.
Variable float : Type.
Variable truediv : Z -> Z -> float.
Variable round : float -> Z -> float.
Variable num2words_int : Z -> string.
Variable num2words_float : float -> string.

(** How the loop body spells a result. *)
Definition spell (x : SimpleMathProblemsGenerator.value float) : string :=
  match x with
  | SimpleMathProblemsGenerator.Int z =>
      replace "," EmptyString (replace "-" " " (num2words_int z))
  | SimpleMathProblemsGenerator.Float f =>
      replace "," EmptyString (replace "-" " " (num2words_float f))
  | SimpleMathProblemsGenerator.None_ => "undefined"
  end.

(** The question and the answer the loop body makes of two operands and an
    operation. *)
Definition row_of (num1 num2 : Z)
    (operation : string * (Z -> Z -> SimpleMathProblemsGenerator.value float))
    : string * string :=
  (replace "-" " "
     (num2words_int num1 ++ " " ++ fst operation ++ " " ++ num2words_int num2)%string,
   spell (snd operation num1 num2)).

(** The integers 1..100, and every problem over them. *)
Definition operands : list Z := map Z.of_nat (seq 1 100).

Definition all_rows : list (string * string) :=
  flat_map (fun num1 =>
    flat_map (fun num2 =>
      map (row_of num1 num2)
          (SimpleMathProblemsGenerator.standard_operations float truediv round))
      operands)
    operands.

(** A row made of operands of 1..100 and one of the four operations. *)
Definition within (row : string * string) : Prop :=
  exists num1 num2 operation,
    (1 <= num1 <= 100)%Z /\ (1 <= num2 <= 100)%Z
    /\ In operation (SimpleMathProblemsGenerator.standard_operations float truediv round)
    /\ row = row_of num1 num2 operation.

(** What holds of the local variables of a pass through the loop body: both
    operands are in 1..100; the operation is one of the four, and the
    result is the sum, the difference, the product or the quotient rounded
    to two places that goes with it; the result is never [None]; the
    question is spelled from the operands and the answer from the result;
    and a division divides by the non-zero [num2], rounds the quotient to
    two places and spells that number. *)
Definition sound (a : SimpleMathProblemsGenerator.attempt float) : Prop :=
  let num1 := SimpleMathProblemsGenerator.num1 a in
  let num2 := SimpleMathProblemsGenerator.num2 a in
  let operation := SimpleMathProblemsGenerator.operation a in
  let result := SimpleMathProblemsGenerator.result_ a in
  (1 <= num1 <= 100)%Z
  /\ (1 <= num2 <= 100)%Z
  /\ (operation = "plus" /\ result = SimpleMathProblemsGenerator.Int (num1 + num2)
      \/ operation = "minus" /\ result = SimpleMathProblemsGenerator.Int (num1 - num2)
      \/ operation = "times" /\ result = SimpleMathProblemsGenerator.Int (num1 * num2)
      \/ operation = "divided by"
         /\ result = SimpleMathProblemsGenerator.Float (round (truediv num1 num2) 2))
  /\ result <> SimpleMathProblemsGenerator.None_
  /\ SimpleMathProblemsGenerator.question a
     = replace "-" " "
         (num2words_int num1 ++ " " ++ operation ++ " " ++ num2words_int num2)%string
  /\ SimpleMathProblemsGenerator.answer a = spell result
  /\ (operation = "divided by" ->
        num2 <> 0%Z
        /\ result = SimpleMathProblemsGenerator.Float (round (truediv num1 num2) 2)
        /\ SimpleMathProblemsGenerator.answer a
           = replace "," EmptyString
               (replace "-" " " (num2words_float (round (truediv num1 num2) 2)))).

(** A row that a pass through the loop body returns: the question and the
    answer of a run of the body, by a generator with the four operations of
    [__init__], whose local variables are sound. *)
Definition produced (row : string * string) : Prop :=
  exists (self : SimpleMathProblemsGenerator.t float) (g : oracle)
         (a : SimpleMathProblemsGenerator.attempt float) (g' : oracle),
    SimpleMathProblemsGenerator.operations self
    = SimpleMathProblemsGenerator.standard_operations float truediv round
    /\ SimpleMathProblemsGenerator.attempt_once float num2words_int num2words_float
         self g = Ok (a, g')
    /\ sound a
    /\ row = (SimpleMathProblemsGenerator.question a,
              SimpleMathProblemsGenerator.answer a).

End generator_rows.

(** ** Batches *)

(** Row [idx] of a 2-D tensor. *)
Definition tensor_row {A : Type} (data : tensor2 A) (idx : nat) : tensor1 A :=
  {| len1 := cols data; at1 := fun j => at2 data idx j |}.

(** [batch] stacks the rows [indices] of [data]. *)
Definition is_batch {A : Type} (data : tensor2 A) (indices : list nat) (batch : tensor2 A)
    : Prop :=
  rows batch = length indices
  /\ cols batch = cols data
  /\ forall i j, i < length indices -> at2 batch i j = at2 data (nth i indices 0) j.

(** Whether a string holds ASCII characters only.  On such a string [lower]
    and [split] are [str.lower] and [str.split]. *)
Fixpoint ascii_only (s : string) : bool :=
  match s with
  | EmptyString => true
  | String c rest => (nat_of_ascii c <? 128)%nat && ascii_only rest
  end.

(* ================================================================== *)
(** * Theorems *)
(* ================================================================== *)

(** ** Runs on small inputs *)

Example split_example : split (lower "Two  plus Four ") = ["two"; "plus"; "four"].
Proof. reflexivity. Qed.

Example tokenize_example :
  tokenize "two plus two four" word_to_index0
  = Ok ([3; 4; 3; 5], word_to_index0 ++ [("two", 3); ("plus", 4); ("four", 5)]).
Proof. vm_compute. reflexivity. Qed.

Example build_corpus_example :
  build_corpus ["two plus four"] ["six"]
  = Ok {| input_data := [[3; 4; 5]];
          target_data := [[0; 6; 1]];
          word_to_index :=
            word_to_index0 ++ [("two", 3); ("plus", 4); ("four", 5); ("six", 6)];
          index_to_word :=
            [(0, "<SOS>"); (1, "<EOS>"); (2, "<PAD>");
             (3, "two"); (4, "plus"); (5, "four"); (6, "six")] |}.
Proof. vm_compute. reflexivity. Qed.

Example pad_sequence_example :
  exists padded,
    pad_sequence (map torch_tensor [[0; 6; 7; 1]; [0; 6; 1]]) 2 = Ok (int64, padded)
    /\ (rows padded, cols padded) = (2, 4)
    /\ row_list padded 0 = [0; 6; 7; 1]
    /\ row_list padded 1 = [0; 6; 1; 2].
Proof. eexists. repeat split. Qed.

Example pad_sequence_empty_first :
  exists padded,
    pad_sequence (map torch_tensor [[]; [3; 4]]) 2 = Ok (float32, padded)
    /\ row_list padded 0 = [2; 2]
    /\ row_list padded 1 = [3; 4].
Proof. eexists. repeat split. Qed.

Example pad_sequence_no_sequence : pad_sequence [] 2 = Raise RuntimeError.
Proof. reflexivity. Qed.

Example replace_example : replace "-" " " "thirty-eight plus twenty-seven"
                          = "thirty eight plus twenty seven".
Proof. reflexivity. Qed.

(** ** Dictionaries *)

Section dict_facts.
Context {K V : Type} `{EqDecision K}.
Implicit Types (d : list (K * V)) (k : K) (v : V).

Lemma dict_get_set_eq d k v : dict_get (dict_set d k v) k = Some v.
Proof.
  induction d as [|[k' v'] d IH]; simpl.
  - destruct (decide (k = k)); congruence.
  - destruct (decide (k = k')) as [->|Hne]; simpl.
    + destruct (decide (k' = k')); congruence.
    + destruct (decide (k = k')); [congruence | exact IH].
Qed.

Lemma dict_get_set_ne d k k' v : k <> k' -> dict_get (dict_set d k v) k' = dict_get d k'.
Proof.
  intros Hne. induction d as [|[k0 v0] d IH]; simpl.
  - destruct (decide (k' = k)); congruence.
  - destruct (decide (k = k0)) as [->|Hk]; simpl.
    + destruct (decide (k' = k0)); congruence.
    + destruct (decide (k' = k0)); [reflexivity | exact IH].
Qed.

Lemma dict_set_fresh d k v : dict_get d k = None -> dict_set d k v = d ++ [(k, v)].
Proof.
  induction d as [|[k' v'] d IH]; simpl; [reflexivity|].
  destruct (decide (k = k')); [discriminate|].
  intros Hd. now rewrite IH.
Qed.

Lemma dict_get_In d k v : dict_get d k = Some v -> In (k, v) d.
Proof.
  induction d as [|[k' v'] d IH]; simpl; [discriminate|].
  destruct (decide (k = k')) as [->|Hne].
  - intros [= ->]. now left.
  - intros Hd. right. now apply IH.
Qed.

Lemma dict_get_None_keys d k : dict_get d k = None -> ~ In k (map fst d).
Proof.
  induction d as [|[k' v'] d IH]; simpl; [tauto|].
  destruct (decide (k = k')) as [->|Hne]; [discriminate|].
  intros Hd [Heq|Hin]; [congruence | now apply IH].
Qed.

End dict_facts.

(** ** The tokenizer *)

Lemma learn_cases word d :
  (exists i, dict_get d word = Some i /\ learn word d = d)
  \/ (dict_get d word = None /\ learn word d = d ++ [(word, length d)]).
Proof.
  unfold learn, dict_in. destruct (dict_get d word) as [i|] eqn:Hd.
  - left. now exists i.
  - right. split; [reflexivity|]. now apply dict_set_fresh.
Qed.

Lemma dict_get_app_l {K V : Type} `{EqDecision K} (d d' : list (K * V)) k v :
  dict_get d k = Some v -> dict_get (d ++ d') k = Some v.
Proof.
  induction d as [|[k0 v0] d IH]; simpl; [discriminate|].
  destruct (decide (k = k0)); [trivial | exact IH].
Qed.

Lemma dict_get_app_r {K V : Type} `{EqDecision K} (d d' : list (K * V)) k :
  dict_get d k = None -> dict_get (d ++ d') k = dict_get d' k.
Proof.
  induction d as [|[k0 v0] d IH]; simpl; [reflexivity|].
  destruct (decide (k = k0)); [discriminate | exact IH].
Qed.

Lemma learn_keeps word d w i : dict_get d w = Some i -> dict_get (learn word d) w = Some i.
Proof.
  intros Hw. destruct (learn_cases word d) as [(j & _ & ->)|(_ & ->)]; [exact Hw|].
  now apply dict_get_app_l.
Qed.

Lemma learn_known word d : exists i, dict_get (learn word d) word = Some i.
Proof.
  destruct (learn_cases word d) as [(j & Hj & ->)|(Hn & ->)].
  - now exists j.
  - exists (length d). rewrite dict_get_app_r by exact Hn. simpl.
    destruct (decide (word = word)); congruence.
Qed.

Lemma learn_fresh word d :
  dict_get d word = None -> dict_get (learn word d) word = Some (length d).
Proof.
  intros Hn. destruct (learn_cases word d) as [(j & Hj & _)|(_ & ->)]; [congruence|].
  rewrite dict_get_app_r by exact Hn. simpl.
  destruct (decide (word = word)); congruence.
Qed.

Lemma learn_length word d : length d <= length (learn word d).
Proof.
  destruct (learn_cases word d) as [(j & _ & ->)|(_ & ->)]; [lia|].
  rewrite length_app. simpl. lia.
Qed.

Lemma tokenize_words_step word rest tokens d :
  exists i, dict_get (learn word d) word = Some i
    /\ tokenize_words (word :: rest) tokens d
       = tokenize_words rest (tokens ++ [i]) (learn word d).
Proof.
  destruct (learn_known word d) as [i Hi]. exists i. split; [exact Hi|].
  simpl. fold (learn word d). unfold dict_getitem. rewrite Hi. reflexivity.
Qed.

(** [tokenize] never raises, keeps every id it finds, and its tokens are the
    ids under which the words end up. *)
Lemma tokenize_words_total words : forall tokens d,
  exists tokens' d',
    tokenize_words words tokens d = Ok (tokens ++ tokens', d')
    /\ (forall w i, dict_get d w = Some i -> dict_get d' w = Some i)
    /\ length d <= length d'
    /\ Forall2 (fun w i => dict_get d' w = Some i) words tokens'.
Proof.
  induction words as [|word rest IH]; intros tokens d.
  - exists [], d. rewrite app_nil_r. repeat split; auto.
  - destruct (tokenize_words_step word rest tokens d) as (i & Hi & ->).
    destruct (IH (tokens ++ [i]) (learn word d)) as (tokens' & d' & -> & Hkeep & Hlen & Hall).
    exists (i :: tokens'), d'. rewrite <- app_assoc. simpl.
    repeat split.
    + intros w j Hw. apply Hkeep. now apply learn_keeps.
    + pose proof (learn_length word d). lia.
    + constructor; [now apply Hkeep | exact Hall].
Qed.

Lemma tokenize_words_app pre post : forall tokens d,
  tokenize_words (pre ++ post) tokens d
  = let! (toks, mid) := tokenize_words pre tokens d in tokenize_words post toks mid.
Proof.
  induction pre as [|word pre IH]; intros tokens d; [reflexivity|].
  rewrite <- app_comm_cons.
  destruct (tokenize_words_step word (pre ++ post) tokens d) as (i & Hi & ->).
  destruct (tokenize_words_step word pre tokens d) as (i' & Hi' & ->).
  assert (i' = i) as -> by congruence. apply IH.
Qed.

Lemma tokenize_grows_vocabulary_aux (sentence : string) (d : list (string * nat)) :
  exists tokens d',
    tokenize sentence d = Ok (tokens, d')
    /\ (forall w i, dict_get d w = Some i -> dict_get d' w = Some i)
    /\ Forall2 (fun w i => dict_get d' w = Some i) (split (lower sentence)) tokens.
Proof.
  unfold tokenize.
  destruct (tokenize_words_total (split (lower sentence)) [] d)
    as (tokens & d' & Hrun & Hkeep & _ & Hall).
  exists tokens, d'. simpl in Hrun. now repeat split.
Qed.

(** C4. Tokenization only grows the vocabulary: [tokenize] returns (it never
    raises); every word that had an id keeps it; and each word of the
    sentence that is absent when its turn comes is given the number of
    entries the vocabulary has at that moment, an id that then stays.  The
    tokens returned are the ids of the words in the final vocabulary. *)
Theorem tokenize_grows_vocabulary (sentence : string) (word_to_index : list (string * nat)) :
  exists tokens word_to_index',
    tokenize sentence word_to_index = Ok (tokens, word_to_index')
    /\ (forall w i, dict_get word_to_index w = Some i -> dict_get word_to_index' w = Some i)
    /\ length word_to_index <= length word_to_index'
    /\ Forall2 (fun w i => dict_get word_to_index' w = Some i)
               (split (lower sentence)) tokens
    /\ (forall pre word post, split (lower sentence) = pre ++ word :: post ->
          exists toks mid,
            tokenize_words pre [] word_to_index = Ok (toks, mid)
            /\ (forall w i, dict_get mid w = Some i -> dict_get word_to_index' w = Some i)
            /\ (dict_get mid word = None ->
                  dict_get word_to_index' word = Some (length mid))).
Proof.
  unfold tokenize.
  destruct (tokenize_words_total (split (lower sentence)) [] word_to_index)
    as (tokens & d' & Hrun & Hkeep & Hlen & Hall).
  exists tokens, d'. simpl in Hrun. repeat split; try assumption.
  intros pre word post Hsplit.
  destruct (tokenize_words_total pre [] word_to_index)
    as (toks & mid & Hpre & _ & _ & _).
  exists toks, mid. simpl in Hpre. split; [exact Hpre|].
  rewrite Hsplit, tokenize_words_app, Hpre in Hrun.
  cbv beta iota delta [rbind] in Hrun.
  destruct (tokenize_words_step word post toks mid) as (i & Hi & Hstep).
  rewrite Hstep in Hrun.
  destruct (tokenize_words_total post (toks ++ [i]) (learn word mid))
    as (tokens2 & d2 & Hpost & Hkeep2 & _ & _).
  rewrite Hpost in Hrun. injection Hrun as _ <-.
  split.
  - intros w j Hw. apply Hkeep2. now apply learn_keeps.
  - intros Hnone. apply Hkeep2. now apply learn_fresh.
Qed.

(** ** The vocabulary built by the corpus cell *)

Lemma numbered_baseline : numbered word_to_index0.
Proof.
  split; [reflexivity|]. simpl.
  repeat (apply List.NoDup_cons; [simpl; intros H;
    repeat (destruct H as [H|H]; [discriminate|]); exact H|]).
  apply List.NoDup_nil.
Qed.

Lemma learn_numbered word d : numbered d -> numbered (learn word d).
Proof.
  intros [Hids Hkeys].
  destruct (learn_cases word d) as [(j & _ & ->)|(Hn & ->)]; [now split|].
  split.
  - rewrite map_app, length_app, Hids. simpl.
    now rewrite Nat.add_1_r, seq_S.
  - rewrite map_app. simpl. apply List.NoDup_app.
    + exact Hkeys.
    + apply List.NoDup_cons; [simpl; tauto | apply List.NoDup_nil].
    + intros x Hx [<-|[]]. now apply (dict_get_None_keys _ _ Hn).
Qed.

Lemma tokenize_words_numbered words : forall tokens d tokens' d',
  tokenize_words words tokens d = Ok (tokens', d') -> numbered d -> numbered d'.
Proof.
  induction words as [|word rest IH]; intros tokens d tokens' d' Hrun Hd.
  - simpl in Hrun. now injection Hrun as _ <-.
  - destruct (tokenize_words_step word rest tokens d) as (i & _ & Hstep).
    rewrite Hstep in Hrun. eapply IH; [exact Hrun|]. now apply learn_numbered.
Qed.

(** What a run of [tokenize] guarantees to the cell that calls it. *)
Lemma tokenize_spec sentence d :
  exists tokens d',
    tokenize sentence d = Ok (tokens, d')
    /\ (forall w i, dict_get d w = Some i -> dict_get d' w = Some i)
    /\ (numbered d -> numbered d')
    /\ Forall2 (fun w i => dict_get d' w = Some i) (split (lower sentence)) tokens.
Proof.
  destruct (tokenize_grows_vocabulary_aux sentence d) as (tokens & d' & Hrun & Hkeep & Hall).
  exists tokens, d'. split; [exact Hrun|]. split; [exact Hkeep|]. split; [|exact Hall].
  intros Hd. unfold tokenize in Hrun. now apply (tokenize_words_numbered _ _ _ _ _ Hrun).
Qed.

Lemma Forall2_known (d : list (string * nat)) words tokens w :
  Forall2 (fun w i => dict_get d w = Some i) words tokens ->
  In w words -> exists i, dict_get d w = Some i.
Proof.
  induction 1 as [|w0 i0 ws ts H0 _ IH]; simpl; [tauto|].
  intros [<-|Hin]; [now exists i0 | now apply IH].
Qed.

Lemma tokenize_inputs_spec sentences : forall d,
  exists data d',
    tokenize_inputs sentences d = Ok (data, d')
    /\ (forall w i, dict_get d w = Some i -> dict_get d' w = Some i)
    /\ (numbered d -> numbered d')
    /\ covers d' sentences.
Proof.
  induction sentences as [|s rest IH]; intros d.
  - exists [], d. split; [reflexivity|]. split; [auto|]. split; [auto|]. intros s w [].
  - destruct (tokenize_spec s d) as (tokens & d1 & Hrun & Hkeep1 & Hnum1 & Hall).
    destruct (IH d1) as (data & d2 & Hrest & Hkeep2 & Hnum2 & Hcov).
    exists (tokens :: data), d2. simpl. rewrite Hrun. simpl. rewrite Hrest. simpl.
    split; [reflexivity|]. split; [auto|]. split; [auto|].
    intros s' w [<-|Hin] Hw.
    + destruct (Forall2_known _ _ _ _ Hall Hw) as [i Hi]. exists i. now apply Hkeep2.
    + now apply (Hcov s').
Qed.

Lemma tokenize_targets_spec sentences : forall d,
  (exists i, dict_get d START_OF_SEQUENCE = Some i) ->
  (exists i, dict_get d END_OF_SEQUENCE = Some i) ->
  exists data d',
    tokenize_targets sentences d = Ok (data, d')
    /\ (forall w i, dict_get d w = Some i -> dict_get d' w = Some i)
    /\ (numbered d -> numbered d')
    /\ covers d' sentences.
Proof.
  induction sentences as [|s rest IH]; intros d [sos Hsos] [eos Heos].
  - exists [], d. split; [reflexivity|]. split; [auto|]. split; [auto|]. intros s w [].
  - destruct (tokenize_spec s d) as (tokens & d1 & Hrun & Hkeep1 & Hnum1 & Hall).
    destruct (IH d1) as (data & d2 & Hrest & Hkeep2 & Hnum2 & Hcov);
      [exists sos; auto | exists eos; auto |].
    exists (([sos] ++ tokens ++ [eos]) :: data), d2. simpl.
    unfold dict_getitem at 1. rewrite Hsos. simpl. rewrite Hrun. simpl.
    unfold dict_getitem at 1. rewrite (Hkeep1 _ _ Heos). simpl. rewrite Hrest. simpl.
    split; [reflexivity|]. split; [auto|]. split; [auto|].
    intros s' w [<-|Hin] Hw.
    + destruct (Forall2_known _ _ _ _ Hall Hw) as [i Hi]. exists i. now apply Hkeep2.
    + now apply (Hcov s').
Qed.

Lemma invert_onto_cons acc w i d :
  invert_onto acc ((w, i) :: d) = invert_onto (dict_set acc i w) d.
Proof. reflexivity. Qed.

Lemma invert_onto_other d : forall acc i,
  ~ In i (map snd d) -> dict_get (invert_onto acc d) i = dict_get acc i.
Proof.
  induction d as [|[w0 i0] d IH]; intros acc i Hi; [reflexivity|].
  rewrite invert_onto_cons. simpl in Hi. rewrite IH by tauto.
  apply dict_get_set_ne. intros ->. tauto.
Qed.

Lemma invert_onto_get d : forall acc w i,
  List.NoDup (map snd d) -> In (w, i) d -> dict_get (invert_onto acc d) i = Some w.
Proof.
  induction d as [|[w0 i0] d IH]; intros acc w i Hnd Hin; [destruct Hin|].
  simpl in Hnd. apply List.NoDup_cons_iff in Hnd as [Hfresh Hnd].
  rewrite invert_onto_cons.
  destruct Hin as [[= -> ->]|Hin].
  - rewrite invert_onto_other by exact Hfresh. apply dict_get_set_eq.
  - now apply IH.
Qed.

Lemma numbered_round_trip d w i :
  numbered d -> dict_get d w = Some i -> dict_get (invert_vocab d) i = Some w.
Proof.
  intros [Hids _] Hw. unfold invert_vocab. fold (invert_onto [] d).
  apply invert_onto_get.
  - rewrite Hids. apply List.seq_NoDup.
  - now apply dict_get_In.
Qed.

(** C5. Round trip of the vocabulary maps.  The corpus cell never raises;
    in the vocabulary it leaves behind, every word [w] (the reserved tokens
    and every word of every tokenized sentence are among them) satisfies
    [index_to_word[word_to_index[w]] == w]. *)
Theorem vocabulary_round_trip (input_sentences target_sentences : list string) :
  exists c,
    build_corpus input_sentences target_sentences = Ok c
    /\ (forall w i, dict_get (word_to_index c) w = Some i ->
          dict_get (index_to_word c) i = Some w)
    /\ (forall w i, dict_get word_to_index0 w = Some i ->
          dict_get (word_to_index c) w = Some i)
    /\ covers (word_to_index c) (input_sentences ++ target_sentences).
Proof.
  unfold build_corpus.
  destruct (tokenize_inputs_spec input_sentences word_to_index0)
    as (inputs & d1 & Hin & Hkeep1 & Hnum1 & Hcov1).
  destruct (tokenize_targets_spec target_sentences d1)
    as (targets & d2 & Hout & Hkeep2 & Hnum2 & Hcov2).
  { exists 0. now apply Hkeep1. }
  { exists 1. now apply Hkeep1. }
  rewrite Hin. simpl. rewrite Hout. simpl.
  eexists. split; [reflexivity|]. simpl.
  pose proof (Hnum2 (Hnum1 numbered_baseline)) as Hnum.
  split; [|split].
  - intros w i Hw. now apply numbered_round_trip.
  - intros w i Hw. auto.
  - intros s w Hs Hw. apply in_app_or in Hs as [Hs|Hs].
    + destruct (Hcov1 s w Hs Hw) as [i Hi]. exists i. auto.
    + now apply (Hcov2 s w).
Qed.

(** ** Finite sums *)

Lemma Rsum_ext n (f g : nat -> R) :
  (forall i, i < n -> f i = g i) -> Rsum n f = Rsum n g.
Proof.
  induction n as [|n IH]; intros Hfg; [reflexivity|]. simpl.
  rewrite IH by (intros i Hi; apply Hfg; lia). rewrite (Hfg n) by lia. reflexivity.
Qed.

Lemma Rsum_div n (f : nat -> R) (c : R) :
  Rsum n (fun i => f i / c)%R = (Rsum n f / c)%R.
Proof.
  induction n as [|n IH]; simpl; [unfold Rdiv; ring|]. rewrite IH. unfold Rdiv. ring.
Qed.

Lemma Rsum_nonneg n (f : nat -> R) :
  (forall i, i < n -> (0 <= f i)%R) -> (0 <= Rsum n f)%R.
Proof.
  induction n as [|n IH]; intros Hf; simpl; [lra|].
  assert (0 <= Rsum n f)%R by (apply IH; intros i Hi; apply Hf; lia).
  assert (0 <= f n)%R by (apply Hf; lia). lra.
Qed.

Lemma Rsum_exp_pos n (f : nat -> R) : 1 <= n -> (0 < Rsum n (fun k => exp (f k)))%R.
Proof.
  intros Hn. destruct n as [|n]; [lia|]. simpl.
  assert (0 <= Rsum n (fun k => exp (f k)))%R
    by (apply Rsum_nonneg; intros i _; left; apply exp_pos).
  pose proof (exp_pos (f n)). lra.
Qed.

(** ** Softmax *)

Lemma softmax_shape x : rows (softmax_dim1 x) = rows x /\ cols (softmax_dim1 x) = cols x.
Proof. now split. Qed.

Lemma softmax_nonneg x b t : 1 <= cols x -> (0 <= at2 (softmax_dim1 x) b t)%R.
Proof.
  intros Hn. simpl. apply Rlt_le, Rdiv_lt_0_compat; [apply exp_pos|].
  now apply Rsum_exp_pos.
Qed.

Lemma softmax_row_sum x b :
  1 <= cols x -> Rsum (cols (softmax_dim1 x)) (at2 (softmax_dim1 x) b) = 1%R.
Proof.
  intros Hn. simpl.
  rewrite (Rsum_div (cols x) (fun j => exp (at2 x b j))).
  pose proof (Rsum_exp_pos (cols x) (at2 x b) Hn). field. lra.
Qed.

Lemma softmax_single x b : cols x = 1 -> at2 (softmax_dim1 x) b 0 = 1%R.
Proof.
  intros Hn. simpl. rewrite Hn. simpl. pose proof (exp_pos (at2 x b 0)). field. lra.
Qed.

(** ** Attention *)

(** With matching shapes the forward pass is a softmax over the time steps
    and leaves the generator alone. *)
Lemma attention_forward_softmax self hidden encoder_outputs g :
  attention_shapes self hidden encoder_outputs ->
  exists scores,
    Attention.forward self hidden encoder_outputs g = Ok (softmax_dim1 scores, g)
    /\ rows scores = dim0 encoder_outputs
    /\ cols scores = dim1 encoder_outputs.
Proof.
  intros (Hb & Hin & Hv).
  unfold Attention.forward, bindM, lift, ret, cat_dim2.
  rewrite decide_True by (simpl; lia). simpl.
  unfold Linear.forward3, lift. rewrite decide_True by (simpl; lia).
  unfold bmm. rewrite decide_True by (simpl; lia).
  unfold squeeze1. rewrite decide_True by reflexivity.
  eexists. split; [reflexivity|]. simpl. lia.
Qed.

(** C3. For every decoder hidden state and every encoder output of at least
    one time step (of shapes that fit the module), [Attention.forward]
    returns, without raising and without drawing randomness, one row per
    batch element; each row has as many entries as there are encoder time
    steps, all of them non-negative, and they sum to 1.  Tensor entries are
    real numbers here, so the sum is exactly 1. *)
Theorem attention_is_distribution (self : Attention.t) (hidden : tensor2 R)
    (encoder_outputs : tensor3 R) (g : oracle) :
  attention_shapes self hidden encoder_outputs ->
  1 <= dim1 encoder_outputs ->
  exists w,
    Attention.forward self hidden encoder_outputs g = Ok (w, g)
    /\ rows w = dim0 encoder_outputs
    /\ cols w = dim1 encoder_outputs
    /\ forall b, b < rows w ->
         length (row_list w b) = dim1 encoder_outputs
         /\ (forall t, t < cols w -> (0 <= at2 w b t)%R)
         /\ Rsum (cols w) (at2 w b) = 1%R.
Proof.
  intros Hshape Hlen.
  destruct (attention_forward_softmax self hidden encoder_outputs g Hshape)
    as (scores & Hrun & Hrows & Hcols).
  exists (softmax_dim1 scores). split; [exact Hrun|].
  destruct (softmax_shape scores) as [Hr Hc].
  split; [congruence|]. split; [congruence|].
  intros b _. split; [|split].
  - unfold row_list. rewrite length_map, length_seq. congruence.
  - intros t _. apply softmax_nonneg. lia.
  - apply softmax_row_sum. lia.
Qed.

(** C9. When the encoder output has exactly one time step, the row that
    [Attention.forward] returns for each batch element is the list [[1]]:
    all the weight is on the single position. *)
Theorem attention_single_position (self : Attention.t) (hidden : tensor2 R)
    (encoder_outputs : tensor3 R) (g : oracle) :
  attention_shapes self hidden encoder_outputs ->
  dim1 encoder_outputs = 1 ->
  exists w,
    Attention.forward self hidden encoder_outputs g = Ok (w, g)
    /\ rows w = dim0 encoder_outputs
    /\ forall b, b < rows w -> row_list w b = [1%R].
Proof.
  intros Hshape Hlen.
  destruct (attention_forward_softmax self hidden encoder_outputs g Hshape)
    as (scores & Hrun & Hrows & Hcols).
  exists (softmax_dim1 scores). split; [exact Hrun|].
  destruct (softmax_shape scores) as [Hr Hc].
  split; [congruence|].
  intros b _. unfold row_list. rewrite Hc, Hcols, Hlen. simpl.
  rewrite <- (softmax_single scores b) by congruence. reflexivity.
Qed.

Lemma attention_is_distribution_witness :
  exists w,
    Attention.forward tiny_attention tiny_hidden (tiny_encoder_outputs 3) oracle0
      = Ok (w, oracle0)
    /\ rows w = 1
    /\ cols w = 3
    /\ forall b, b < rows w ->
         length (row_list w b) = 3
         /\ (forall t, t < cols w -> (0 <= at2 w b t)%R)
         /\ Rsum (cols w) (at2 w b) = 1%R.
Proof.
  apply (attention_is_distribution tiny_attention tiny_hidden (tiny_encoder_outputs 3) oracle0).
  - repeat split; reflexivity.
  - simpl. lia.
Defined.

Lemma attention_single_position_witness :
  exists w,
    Attention.forward tiny_attention tiny_hidden (tiny_encoder_outputs 1) oracle0
      = Ok (w, oracle0)
    /\ rows w = 1
    /\ forall b, b < rows w -> row_list w b = [1%R].
Proof.
  apply (attention_single_position tiny_attention tiny_hidden (tiny_encoder_outputs 1) oracle0).
  - repeat split; reflexivity.
  - reflexivity.
Defined.

(** ** Forward passes draw no randomness *)

Lemma bindM_Ok {A B : Type} (c : M A) (k : A -> M B) g a g' :
  c g = Ok (a, g') -> bindM c k g = k a g'.
Proof. intros Hc. unfold bindM. now rewrite Hc. Qed.

Lemma deterministic_lift {A : Type} (r : result A) : deterministic (lift r).
Proof. now exists r. Qed.

Lemma deterministic_ret {A : Type} (a : A) : deterministic (ret a).
Proof. now exists (Ok a). Qed.

Lemma deterministic_bind {A B : Type} (c : M A) (k : A -> M B) :
  deterministic c -> (forall a, deterministic (k a)) -> deterministic (bindM c k).
Proof.
  intros [r Hr] Hk. destruct r as [a|e].
  - destruct (Hk a) as [r' Hr']. exists r'. intros g.
    unfold bindM. rewrite Hr. simpl. apply Hr'.
  - exists (Raise e). intros g. unfold bindM. now rewrite Hr.
Qed.

Lemma deterministic_embedding self input : deterministic (Embedding.forward self input).
Proof. apply deterministic_lift. Qed.

Lemma deterministic_lstm self input hx : deterministic (LSTM.forward self input hx).
Proof. apply deterministic_lift. Qed.

Lemma deterministic_linear2 self x : deterministic (Linear.forward2 self x).
Proof. apply deterministic_lift. Qed.

Lemma deterministic_linear3 self x : deterministic (Linear.forward3 self x).
Proof. apply deterministic_lift. Qed.

Ltac deterministic_steps :=
  repeat first
    [ apply deterministic_ret
    | apply deterministic_lift
    | apply deterministic_embedding
    | apply deterministic_lstm
    | apply deterministic_linear2
    | apply deterministic_linear3
    | apply deterministic_bind; [|intros ?]
    | match goal with
      | p : (_ * _)%type |- _ => destruct p
      end ].

Lemma deterministic_attention self hidden encoder_outputs :
  deterministic (Attention.forward self hidden encoder_outputs).
Proof. unfold Attention.forward. deterministic_steps. Qed.

Lemma deterministic_encoder self input_seq :
  deterministic (Encoder.forward self input_seq).
Proof. unfold Encoder.forward. deterministic_steps. Qed.

Lemma deterministic_decoder self input hidden cell encoder_outputs :
  deterministic (Decoder.forward self input hidden cell encoder_outputs).
Proof.
  unfold Decoder.forward.
  repeat first
    [ apply deterministic_attention
    | progress deterministic_steps ].
Qed.

Lemma deterministic_two_runs {A : Type} (c : M A) (g1 g2 : oracle) :
  deterministic c ->
  match c g1, c g2 with
  | Ok (a1, g1'), Ok (a2, g2') => a1 = a2 /\ g1' = g1 /\ g2' = g2
  | Raise e1, Raise e2 => e1 = e2
  | _, _ => False
  end.
Proof.
  intros [r Hr]. rewrite !Hr. destruct r; simpl; auto.
Qed.

(** C7. The encoder and the decoder are deterministic.  For fixed
    parameters and inputs, two runs of [Encoder.forward], started from any
    two states of the random generator, either both raise the same error or
    both return the same outputs and the same final (hidden, cell) state,
    and neither run advances the generator; the same holds of
    [Decoder.forward].  This is so in training mode as well as in
    evaluation mode: the dropout layers the modules own are never applied. *)
Theorem forward_is_deterministic (encoder : Encoder.t) (decoder : Decoder.t)
    (input_seq : tensor2 nat) (input : tensor1 nat) (hidden cell : tensor3 R)
    (encoder_outputs : tensor3 R) (g1 g2 : oracle) :
  match Encoder.forward encoder input_seq g1, Encoder.forward encoder input_seq g2 with
  | Ok (out1, g1'), Ok (out2, g2') => out1 = out2 /\ g1' = g1 /\ g2' = g2
  | Raise e1, Raise e2 => e1 = e2
  | _, _ => False
  end
  /\
  match Decoder.forward decoder input hidden cell encoder_outputs g1,
        Decoder.forward decoder input hidden cell encoder_outputs g2 with
  | Ok (out1, g1'), Ok (out2, g2') => out1 = out2 /\ g1' = g1 /\ g2' = g2
  | Raise e1, Raise e2 => e1 = e2
  | _, _ => False
  end.
Proof.
  split.
  - apply deterministic_two_runs, deterministic_encoder.
  - apply deterministic_two_runs, deterministic_decoder.
Qed.

(** ** Greedy decoding *)

Section greedy_facts.
Variable encoder : encoder_call.
Variable decoder : decoder_call.
Variable word_to_index : list (string * nat).
Variable index_to_word : list (nat * string).

Abbreviation test_loop := (Inference.test_loop decoder word_to_index).
Abbreviation generate_loop := (Inference.generate_loop decoder word_to_index).

Lemma test_loop_S encoder_outputs n st g :
  test_loop encoder_outputs (S n) st g
  = match decoder (Inference.decoder_input st) (Inference.decoder_hidden st)
                  (Inference.decoder_cell st) encoder_outputs g with
    | Raise e => Raise e
    | Ok (output, hidden, cell, weights, g1) =>
        match argmax_item output with
        | Raise e => Raise e
        | Ok token =>
            match dict_getitem word_to_index END_OF_SEQUENCE with
            | Raise e => Raise e
            | Ok eos =>
                if decide (token = eos) then Ok (stopped st hidden cell, g1)
                else test_loop encoder_outputs n
                       (advanced st token (Inference.attention_matrices st ++ [weights])
                                 hidden cell) g1
            end
        end
    end.
Proof.
  simpl. unfold bindM at 1.
  destruct (decoder _ _ _ _ g) as [[[[[output hidden] cell] weights] g1]|e]; [|reflexivity].
  unfold bindM at 1, lift at 1. destruct (argmax_item output) as [token|e]; [|reflexivity].
  unfold bindM at 1, lift at 1.
  destruct (dict_getitem word_to_index END_OF_SEQUENCE) as [eos|e]; [|reflexivity].
  destruct (decide (token = eos)); reflexivity.
Qed.

Lemma generate_loop_S encoder_outputs n st g :
  generate_loop encoder_outputs (S n) st g
  = match decoder (Inference.decoder_input st) (Inference.decoder_hidden st)
                  (Inference.decoder_cell st) encoder_outputs g with
    | Raise e => Raise e
    | Ok (output, hidden, cell, weights, g1) =>
        match argmax_item output with
        | Raise e => Raise e
        | Ok token =>
            match dict_getitem word_to_index END_OF_SEQUENCE with
            | Raise e => Raise e
            | Ok eos =>
                if decide (token = eos) then Ok (stopped st hidden cell, g1)
                else generate_loop encoder_outputs n
                       (advanced st token (Inference.attention_matrices st) hidden cell) g1
            end
        end
    end.
Proof.
  simpl. unfold bindM at 1.
  destruct (decoder _ _ _ _ g) as [[[[[output hidden] cell] weights] g1]|e]; [|reflexivity].
  unfold bindM at 1, lift at 1. destruct (argmax_item output) as [token|e]; [|reflexivity].
  unfold bindM at 1, lift at 1.
  destruct (dict_getitem word_to_index END_OF_SEQUENCE) as [eos|e]; [|reflexivity].
  destruct (decide (token = eos)); reflexivity.
Qed.

Lemma decoded_nil eos st : decoded eos 0 st st.
Proof. exists []. rewrite app_nil_r. simpl. split; [reflexivity|]. split; [tauto|]. left. lia. Qed.

Lemma decoded_stop eos n st hidden cell : decoded eos (S n) st (stopped st hidden cell).
Proof.
  exists []. rewrite app_nil_r. simpl. split; [reflexivity|]. split; [tauto|]. right. lia.
Qed.

Lemma decoded_step eos n st token attention hidden cell st' :
  token <> eos ->
  decoded eos n (advanced st token attention hidden cell) st' ->
  decoded eos (S n) st st'.
Proof.
  intros Hne (new & Hout & Hnew & Hsteps). exists (token :: new). simpl in *.
  split; [now rewrite Hout, <- app_assoc|].
  split; [intros [Heq|Hin]; [congruence | tauto]|]. lia.
Qed.

Lemma argmax_upto_lt n f : 0 < n -> argmax_upto n f < n.
Proof.
  induction n as [|n IH]; [lia|]. intros _. simpl.
  destruct (Rlt_dec _ _); [lia|].
  destruct n as [|n]; [simpl; lia|]. assert (argmax_upto (S n) f < S n) by (apply IH; lia).
  lia.
Qed.

Lemma argmax_item_Ok output :
  rows output = 1 -> cols output <> 0 ->
  exists token, argmax_item output = Ok token /\ token < cols output.
Proof.
  intros Hr Hc. unfold argmax_item.
  rewrite decide_False by exact Hc. rewrite decide_True by exact Hr.
  eexists. split; [reflexivity|]. apply argmax_upto_lt. lia.
Qed.

Lemma test_loop_decoded encoder_outputs eos :
  dict_get word_to_index END_OF_SEQUENCE = Some eos ->
  forall n st g st' g',
    test_loop encoder_outputs n st g = Ok (st', g') ->
    decoded eos n st st'
    /\ length (Inference.attention_matrices st')
       + length (Inference.output_sequence st)
       = length (Inference.attention_matrices st)
         + length (Inference.output_sequence st').
Proof.
  intros Heos. induction n as [|n IH]; intros st g st' g' Hrun.
  - injection Hrun as <- <-. split; [apply decoded_nil | lia].
  - rewrite test_loop_S in Hrun.
    destruct (decoder _ _ _ _ g) as [[[[[output hidden] cell] weights] g1]|e];
      [|discriminate].
    destruct (argmax_item output) as [token|e]; [|discriminate].
    unfold dict_getitem in Hrun. rewrite Heos in Hrun.
    destruct (decide (token = eos)) as [->|Hne].
    + injection Hrun as <- <-. split; [apply decoded_stop | simpl; lia].
    + apply IH in Hrun as [Hdec Hatt]. split.
      * eapply decoded_step; eauto.
      * simpl in Hatt. rewrite !length_app in Hatt. simpl in Hatt. lia.
Qed.




(** [test] and [generate_predictions] once the sentence is tokenized, the
    encoder has answered and the start token is known. *)
Lemma test_eq input_sentence max_target_length with_attention_plot g
    input_tokens encoder_outputs hidden cell g1 sos :
  list_comp (dict_getitem word_to_index) (split input_sentence) = Ok input_tokens ->
  encoder (unsqueeze0_1 (tensor_of_list 0 input_tokens)) g
    = Ok (encoder_outputs, (hidden, cell), g1) ->
  dict_get word_to_index START_OF_SEQUENCE = Some sos ->
  Inference.test encoder decoder word_to_index index_to_word
                 input_sentence max_target_length with_attention_plot g
  = match test_loop encoder_outputs max_target_length (initial sos hidden cell) g1 with
    | Raise e => Raise e
    | Ok (st, g') =>
        match list_comp (dict_getitem index_to_word) input_tokens with
        | Raise e => Raise e
        | Ok _ =>
            match list_comp (dict_getitem index_to_word) (Inference.output_sequence st) with
            | Raise e => Raise e
            | Ok words =>
                match vstack (Inference.attention_matrices st) with
                | Raise e => Raise e
                | Ok _ => Ok (words, g')
                end
            end
        end
    end.
Proof.
  intros Htok Henc Hsos. unfold Inference.test.
  unfold bindM at 1, lift at 1. rewrite Htok.
  unfold bindM at 1. rewrite Henc.
  unfold bindM at 1, lift at 1, dict_getitem at 1. rewrite Hsos.
  unfold bindM at 1. fold (initial sos hidden cell).
  destruct (test_loop _ _ _ g1) as [[st g']|e]; [|reflexivity].
  unfold bindM at 1, lift at 1.
  destruct (list_comp (dict_getitem index_to_word) input_tokens); [|reflexivity].
  unfold bindM at 1, lift at 1.
  destruct (list_comp (dict_getitem index_to_word) (Inference.output_sequence st));
    [|reflexivity].
  unfold bindM at 1, lift at 1.
  destruct (vstack (Inference.attention_matrices st)); reflexivity.
Qed.

Lemma generate_predictions_eq input_sentence max_target_length g
    input_tokens encoder_outputs hidden cell g1 sos :
  list_comp (dict_getitem word_to_index) (split input_sentence) = Ok input_tokens ->
  encoder (unsqueeze0_1 (tensor_of_list 0 input_tokens)) g
    = Ok (encoder_outputs, (hidden, cell), g1) ->
  dict_get word_to_index START_OF_SEQUENCE = Some sos ->
  Inference.generate_predictions encoder decoder word_to_index index_to_word
                                 input_sentence max_target_length g
  = match generate_loop encoder_outputs max_target_length (initial sos hidden cell) g1 with
    | Raise e => Raise e
    | Ok (st, g') =>
        lift (list_comp (dict_getitem index_to_word) (Inference.output_sequence st)) g'
    end.
Proof.
  intros Htok Henc Hsos. unfold Inference.generate_predictions.
  unfold bindM at 1, lift at 1. rewrite Htok.
  unfold bindM at 1. rewrite Henc.
  unfold bindM at 1, lift at 1, dict_getitem at 1. rewrite Hsos.
  unfold bindM at 1. fold (initial sos hidden cell).
  destruct (generate_loop _ _ _ g1) as [[st g']|e]; reflexivity.
Qed.

(** A sentence tokenizes when its words are all in the vocabulary. *)
Lemma list_comp_lookup {K V : Type} `{EqDecision K} (d : list (K * V)) (ks : list K) :
  (forall k, In k ks -> exists v, dict_get d k = Some v) ->
  exists vs, list_comp (dict_getitem d) ks = Ok vs /\ length vs = length ks.
Proof.
  induction ks as [|k ks IH]; intros Hks.
  - now exists [].
  - destruct (Hks k) as [v Hv]; [now left|].
    destruct IH as (vs & Hvs & Hlen); [intros k' Hk'; apply Hks; now right|].
    exists (v :: vs). simpl. unfold dict_getitem at 1. rewrite Hv. simpl.
    rewrite Hvs. simpl. split; [reflexivity | now rewrite Hlen].
Qed.

Lemma list_comp_length {A B : Type} (f : A -> result B) (xs : list A) :
  forall ys, list_comp f xs = Ok ys -> length ys = length xs.
Proof.
  induction xs as [|x xs IH]; intros ys Hrun; simpl in Hrun.
  - now injection Hrun as <-.
  - destruct (f x) as [y|e]; [|discriminate]. simpl in Hrun.
    destruct (list_comp f xs) as [ys'|e]; [|discriminate]. simpl in Hrun.
    injection Hrun as <-. simpl. now rewrite (IH ys').
Qed.

(** What a normal return of [test] went through. *)
Lemma test_inv input_sentence max_target_length with_attention_plot g words g' :
  Inference.test encoder decoder word_to_index index_to_word
                 input_sentence max_target_length with_attention_plot g = Ok (words, g') ->
  exists encoder_outputs hidden cell sos g1 st stacked,
    test_loop encoder_outputs max_target_length (initial sos hidden cell) g1 = Ok (st, g')
    /\ list_comp (dict_getitem index_to_word) (Inference.output_sequence st) = Ok words
    /\ vstack (Inference.attention_matrices st) = Ok stacked.
Proof.
  unfold Inference.test. unfold bindM at 1, lift at 1.
  destruct (list_comp _ _) as [input_tokens|e] eqn:Htok; [|discriminate].
  unfold bindM at 1.
  destruct (encoder _ g) as [[[encoder_outputs [hidden cell]] g1]|e] eqn:Henc;
    [|discriminate].
  unfold bindM at 1, lift at 1, dict_getitem at 1.
  destruct (dict_get word_to_index START_OF_SEQUENCE) as [sos|] eqn:Hsos; [|discriminate].
  intros Hrun.
  assert (Heq := test_eq input_sentence max_target_length with_attention_plot g
                   input_tokens encoder_outputs hidden cell g1 sos Htok Henc Hsos).
  unfold Inference.test in Heq. unfold bindM at 1, lift at 1 in Heq. rewrite Htok in Heq.
  unfold bindM at 1 in Heq. rewrite Henc in Heq.
  unfold bindM at 1, lift at 1, dict_getitem at 1 in Heq. rewrite Hsos in Heq.
  rewrite Heq in Hrun. clear Heq.
  destruct (test_loop _ _ _ g1) as [[st g2]|e] eqn:Hloop; [|discriminate].
  destruct (list_comp (dict_getitem index_to_word) input_tokens); [|discriminate].
  destruct (list_comp (dict_getitem index_to_word) (Inference.output_sequence st))
    as [ws|e] eqn:Hws; [|discriminate].
  destruct (vstack (Inference.attention_matrices st)) as [stacked|e] eqn:Hstack;
    [|discriminate].
  injection Hrun as <- <-. now exists encoder_outputs, hidden, cell, sos, g1, st, stacked.
Qed.


Lemma bounded_length eos max_target_length st :
  bounded eos max_target_length st ->
  length (Inference.output_sequence st) <= max_target_length.
Proof. intros (Hsteps & _ & Hend). lia. Qed.

(** [test] stacks one attention row per token it keeps. *)
Lemma test_loop_attention encoder_outputs :
  forall n st g st' g',
    test_loop encoder_outputs n st g = Ok (st', g') ->
    length (Inference.attention_matrices st') + length (Inference.output_sequence st)
    = length (Inference.attention_matrices st) + length (Inference.output_sequence st').
Proof.
  induction n as [|n IH]; intros st g st' g' Hrun.
  - injection Hrun as <- <-. lia.
  - rewrite test_loop_S in Hrun.
    destruct (decoder _ _ _ _ g) as [[[[[output hidden] cell] weights] g1]|e];
      [|discriminate].
    destruct (argmax_item output) as [token|e]; [|discriminate].
    destruct (dict_getitem word_to_index END_OF_SEQUENCE) as [eos|e]; [|discriminate].
    destruct (decide (token = eos)) as [->|Hne].
    + injection Hrun as <- <-. simpl. lia.
    + apply IH in Hrun. simpl in Hrun. rewrite !length_app in Hrun. simpl in Hrun. lia.
Qed.

Lemma decoded_bounded eos n sos hidden cell st :
  decoded eos n (initial sos hidden cell) st -> bounded eos n st.
Proof.
  intros (new & Hout & Hnew & Hsteps). simpl in *. subst new.
  unfold bounded. split; [lia|]. split; [exact Hnew|]. lia.
Qed.


(** When the first prediction is the end token, [test] raises and
    [generate_predictions] returns the empty sequence. *)
Lemma immediate_end (input_sentence : string) (max_target_length : nat)
    (with_attention_plot : bool) (g : oracle) (input_tokens : list nat)
    (encoder_outputs hidden cell : tensor3 R) (g1 : oracle) (sos eos : nat)
    (output : tensor2 R) (hidden' cell' : tensor3 R) (weights : tensor2 R) (g2 : oracle) :
  1 <= max_target_length ->
  list_comp (dict_getitem word_to_index) (split input_sentence) = Ok input_tokens ->
  encoder (unsqueeze0_1 (tensor_of_list 0 input_tokens)) g
    = Ok (encoder_outputs, (hidden, cell), g1) ->
  dict_get word_to_index START_OF_SEQUENCE = Some sos ->
  dict_get word_to_index END_OF_SEQUENCE = Some eos ->
  decoder (tensor_of_list 0 [sos]) hidden cell encoder_outputs g1
    = Ok (output, hidden', cell', weights, g2) ->
  argmax_item output = Ok eos ->
  (exists e,
     Inference.test encoder decoder word_to_index index_to_word
                    input_sentence max_target_length with_attention_plot g = Raise e)
  /\ (forall words,
        list_comp (dict_getitem index_to_word) input_tokens = Ok words ->
        Inference.test encoder decoder word_to_index index_to_word
                       input_sentence max_target_length with_attention_plot g
          = Raise ValueError)
  /\ Inference.generate_predictions encoder decoder word_to_index index_to_word
                                    input_sentence max_target_length g
     = Ok ([], g2).
Proof.
  intros Hmax Htok Henc Hsos Heos Hdec Harg.
  destruct max_target_length as [|n]; [lia|].
  assert (Htest : test_loop encoder_outputs (S n) (initial sos hidden cell) g1
                  = Ok (stopped (initial sos hidden cell) hidden' cell', g2)).
  { rewrite test_loop_S. simpl. rewrite Hdec, Harg. unfold dict_getitem. rewrite Heos.
    now rewrite decide_True by reflexivity. }
  assert (Hgen : generate_loop encoder_outputs (S n) (initial sos hidden cell) g1
                 = Ok (stopped (initial sos hidden cell) hidden' cell', g2)).
  { rewrite generate_loop_S. simpl. rewrite Hdec, Harg. unfold dict_getitem. rewrite Heos.
    now rewrite decide_True by reflexivity. }
  assert (Hfail : forall words,
            list_comp (dict_getitem index_to_word) input_tokens = Ok words ->
            Inference.test encoder decoder word_to_index index_to_word
                           input_sentence (S n) with_attention_plot g = Raise ValueError).
  { intros words Hwords.
    rewrite (test_eq _ _ _ _ _ _ _ _ _ _ Htok Henc Hsos), Htest, Hwords. reflexivity. }
  split; [|split; [exact Hfail|]].
  - destruct (list_comp (dict_getitem index_to_word) input_tokens) as [words|e] eqn:Hin.
    + exists ValueError. now apply (Hfail words).
    + exists e. rewrite (test_eq _ _ _ _ _ _ _ _ _ _ Htok Henc Hsos), Htest, Hin.
      reflexivity.
  - rewrite (generate_predictions_eq _ _ _ _ _ _ _ _ _ Htok Henc Hsos), Hgen. reflexivity.
Qed.

(** [test] returns only sequences with at least one token. *)
Lemma test_returns_nonempty (input_sentence : string) (max_target_length : nat)
    (with_attention_plot : bool) (g : oracle) (words : list string) (g' : oracle) :
  Inference.test encoder decoder word_to_index index_to_word
                 input_sentence max_target_length with_attention_plot g = Ok (words, g') ->
  words <> [].
Proof.
  intros Hrun.
  apply test_inv in Hrun
    as (encoder_outputs & hidden & cell & sos & g1 & st & stacked & Hloop & Hws & Hstack).
  apply test_loop_attention in Hloop. simpl in Hloop.
  apply list_comp_length in Hws.
  destruct (Inference.attention_matrices st); [discriminate|].
  intros ->. simpl in *. lia.
Qed.

(** C10. When the decoder's first greedy prediction is the end token,
    [test] does not return an empty sequence: it raises.  The error is the
    [ValueError] of stacking an empty list of attention matrices (unless
    turning the input tokens back into words already failed), while
    [generate_predictions] on the same input returns the empty sequence.
    Put the other way round: whenever [test] returns, what it returns holds
    at least one token. *)
Theorem test_raises_on_immediate_end (input_sentence : string) (max_target_length : nat)
    (with_attention_plot : bool) (g : oracle) :
  (forall input_tokens encoder_outputs hidden cell g1 sos eos
          output hidden' cell' weights g2,
     1 <= max_target_length ->
     list_comp (dict_getitem word_to_index) (split input_sentence) = Ok input_tokens ->
     encoder (unsqueeze0_1 (tensor_of_list 0 input_tokens)) g
       = Ok (encoder_outputs, (hidden, cell), g1) ->
     dict_get word_to_index START_OF_SEQUENCE = Some sos ->
     dict_get word_to_index END_OF_SEQUENCE = Some eos ->
     decoder (tensor_of_list 0 [sos]) hidden cell encoder_outputs g1
       = Ok (output, hidden', cell', weights, g2) ->
     argmax_item output = Ok eos ->
     (exists e,
        Inference.test encoder decoder word_to_index index_to_word
                       input_sentence max_target_length with_attention_plot g = Raise e)
     /\ (forall words,
           list_comp (dict_getitem index_to_word) input_tokens = Ok words ->
           Inference.test encoder decoder word_to_index index_to_word
                          input_sentence max_target_length with_attention_plot g
             = Raise ValueError)
     /\ Inference.generate_predictions encoder decoder word_to_index index_to_word
                                       input_sentence max_target_length g
        = Ok ([], g2))
  /\ (forall words g',
        Inference.test encoder decoder word_to_index index_to_word
                       input_sentence max_target_length with_attention_plot g
          = Ok (words, g') ->
        words <> []).
Proof.
  split.
  - intros. eapply immediate_end; eauto.
  - intros words g'. apply test_returns_nonempty.
Qed.

End greedy_facts.

Lemma sample_decoder_predicts_end input hidden cell encoder_outputs g :
  exists output hidden' cell' weights,
    sample_decoder input hidden cell encoder_outputs g
      = Ok (output, hidden', cell', weights, g)
    /\ argmax_item output = Ok 1.
Proof.
  eexists _, _, _, _. split; [reflexivity|].
  unfold argmax_item. simpl.
  destruct (Rlt_dec 0 0) as [Hlt|_]; [exfalso; lra|]. simpl.
  destruct (Rlt_dec 0 1) as [_|Hno]; [reflexivity | exfalso; apply Hno; lra].
Qed.

Lemma test_raises_on_immediate_end_witness :
  Inference.test sample_encoder sample_decoder sample_vocabulary
                 (invert_vocab sample_vocabulary) "two" 5 false oracle0
  = Raise ValueError.
Proof.
  destruct (test_raises_on_immediate_end sample_encoder sample_decoder sample_vocabulary
              (invert_vocab sample_vocabulary) "two" 5 false oracle0) as [Hraise _].
  destruct (sample_decoder_predicts_end (tensor_of_list 0 [0]) (LSTM.zeros 1 1 1)
              (LSTM.zeros 1 1 1) (LSTM.zeros 1 1 1) oracle0)
    as (output & hidden' & cell' & weights & Hdec & Harg).
  destruct (Hraise [3] (LSTM.zeros 1 1 1) (LSTM.zeros 1 1 1) (LSTM.zeros 1 1 1) oracle0
              0 1 output hidden' cell' weights oracle0) as (_ & Hvalue & _).
  - lia.
  - reflexivity.
  - reflexivity.
  - reflexivity.
  - reflexivity.
  - exact Hdec.
  - exact Harg.
  - apply (Hvalue ["two"]). reflexivity.
Defined.

(** ** Counting and maxima below a bound *)

Lemma count_upto_le n p : count_upto n p <= n.
Proof. induction n as [|n IH]; simpl; [lia|]. destruct (p n); lia. Qed.

Lemma count_upto_ext n p q :
  (forall i, i < n -> p i = q i) -> count_upto n p = count_upto n q.
Proof.
  induction n as [|n IH]; intros Hpq; [reflexivity|]. simpl.
  rewrite IH by (intros i Hi; apply Hpq; lia). now rewrite (Hpq n) by lia.
Qed.

Lemma any_upto_true n p : any_upto n p = true <-> exists i, i < n /\ p i = true.
Proof.
  induction n as [|n IH]; simpl.
  - split; [discriminate | intros (i & Hi & _); lia].
  - rewrite orb_true_iff, IH. split.
    + intros [(i & Hi & Hp)|Hp].
      * exists i. split; [lia | exact Hp].
      * exists n. split; [lia | exact Hp].
    + intros (i & Hi & Hp). destruct (decide (i = n)) as [->|Hne]; [now right|].
      left. exists i. split; [lia | exact Hp].
Qed.

Lemma any_upto_count n p : any_upto n p = true -> 0 < count_upto n p.
Proof.
  induction n as [|n IH]; simpl; [discriminate|].
  destruct (p n); [lia|]. rewrite orb_false_r. intros H. apply IH in H. lia.
Qed.

Lemma max_upto_attained n f t : t < max_upto n f -> exists i, i < n /\ t < f i.
Proof.
  induction n as [|n IH]; simpl; [lia|]. intros Ht.
  destruct (Nat.max_spec (max_upto n f) (f n)) as [[_ Heq]|[_ Heq]]; rewrite Heq in Ht.
  - exists n. split; [lia | exact Ht].
  - destruct (IH Ht) as (i & Hi & Hf). exists i. split; [lia | exact Hf].
Qed.

Lemma max_upto_bound n f m : (forall i, i < n -> f i <= m) -> max_upto n f <= m.
Proof.
  induction n as [|n IH]; intros Hf; simpl; [lia|].
  assert (max_upto n f <= m) by (apply IH; intros i Hi; apply Hf; lia).
  assert (f n <= m) by (apply Hf; lia). lia.
Qed.

Lemma Rsum_indicator n (p : nat -> bool) (c : R) :
  Rsum n (fun b => c * (if p b then 1 else 0))%R = (c * INR (count_upto n p))%R.
Proof.
  induction n as [|n IH]; [simpl; ring|].
  cbn [Rsum count_upto]. rewrite IH, plus_INR. destruct (p n); simpl; ring.
Qed.

(** ** The training loop *)

Lemma lengths_le_cols target_seq pad b :
  at1 (Training.lengths target_seq pad) b <= cols target_seq.
Proof. simpl. apply count_upto_le. Qed.

Lemma max_length_le_cols target_seq pad :
  max_upto (rows target_seq) (at1 (Training.lengths target_seq pad)) <= cols target_seq.
Proof. apply max_upto_bound. intros b _. apply lengths_le_cols. Qed.

Section train_facts.
Variable encoder : encoder_call.
Variable decoder : decoder_call.
Variable criterion : CrossEntropyLoss.t.
Variable word_to_index : list (string * nat).
Variable encoder_outputs : tensor3 R.
Variable target_seq : tensor2 nat.
Variable pad : nat.

Abbreviation target_lengths := (Training.lengths target_seq pad).
Abbreviation timestep_loop :=
  (Training.timestep_loop decoder criterion encoder_outputs target_seq target_lengths).
Abbreviation max_target_length := (max_upto (rows target_seq) (at1 target_lengths)).

Lemma timestep_loop_cons t rest st g :
  t < max_target_length ->
  timestep_loop (t :: rest) st g
  = match decoder (Training.decoder_input st) (Training.decoder_hidden st)
                  (Training.decoder_cell st) encoder_outputs g with
    | Raise e => Raise e
    | Ok (output, hidden, cell, weights, g1) =>
        match CrossEntropyLoss.forward criterion output (column target_seq t) with
        | Raise e => Raise e
        | Ok c =>
            timestep_loop rest
              (after_step target_seq pad st t output hidden cell weights c) g1
        end
    end.
Proof.
  intros Ht. cbn [Training.timestep_loop].
  assert (Hany : any_upto (len1 (Training.active t target_lengths))
                          (at1 (Training.active t target_lengths)) = true).
  { apply any_upto_true. destruct (max_upto_attained _ _ _ Ht) as (b & Hb & Hlt).
    exists b. split; [exact Hb|]. simpl. apply Nat.ltb_lt. exact Hlt. }
  rewrite Hany. cbn [negb].
  unfold bindM at 1.
  destruct (decoder _ _ _ _ g) as [[[[[output hidden] cell] weights] g1]|e]; [|reflexivity].
  assert (Hcol : select_col target_seq t = Ok (column target_seq t)).
  { unfold select_col. rewrite decide_True; [reflexivity|].
    pose proof (max_length_le_cols target_seq pad). lia. }
  unfold bindM at 1, lift at 1. rewrite Hcol.
  unfold bindM at 1, lift at 1.
  destruct (CrossEntropyLoss.forward criterion output (column target_seq t)) as [c|e];
    [|reflexivity].
  reflexivity.
Qed.

(** What the loop over the time steps [ts] leaves behind: one decoder call
    per step; the inputs it fed are the state's first input followed by the
    target columns; and the loss grew by one term per step. *)
Lemma timestep_loop_trace ts : forall st g st' g',
  Forall (fun t => t < max_target_length) ts ->
  timestep_loop ts st g = Ok (st', g') ->
  exists outs,
    Training.outputs st' = Training.outputs st ++ outs
    /\ length outs = length ts
    /\ Training.fed st' ++ [Training.decoder_input st']
       = Training.fed st ++ [Training.decoder_input st] ++ map (column target_seq) ts
    /\ Forall2 (fun t output =>
                  exists c, CrossEntropyLoss.forward criterion output (column target_seq t)
                            = Ok c) ts outs
    /\ forall term : nat -> tensor2 R -> R,
         (forall t output c,
            t < max_target_length ->
            CrossEntropyLoss.forward criterion output (column target_seq t) = Ok c ->
            Training.masked_term c (Training.active t target_lengths) = term t output) ->
         Training.loss st' = (Training.loss st + sum_list (zip_with term ts outs))%R.
Proof.
  induction ts as [|t rest IH]; intros st g st' g' Hts Hrun.
  - injection Hrun as <- <-. exists []. rewrite !app_nil_r. simpl.
    repeat split; auto. intros term _. ring.
  - apply Forall_cons in Hts as [Ht Hrest].
    rewrite timestep_loop_cons in Hrun by exact Ht.
    destruct (decoder _ _ _ _ g) as [[[[[output hidden] cell] weights] g1]|e];
      [|discriminate].
    destruct (CrossEntropyLoss.forward criterion output (column target_seq t))
      as [c|e] eqn:Hc; [|discriminate].
    destruct (IH _ _ _ _ Hrest Hrun) as (outs & Houts & Hlen & Hfed & Hall & Hloss).
    exists (output :: outs). simpl in *.
    split; [now rewrite Houts, <- app_assoc|].
    split; [now rewrite Hlen|].
    split; [now rewrite Hfed, <- !app_assoc|].
    split; [constructor; eauto|].
    intros term Hterm. rewrite (Hloss term Hterm), <- (Hterm t output c Ht Hc). ring.
Qed.

End train_facts.

Section batch_facts.
Variable encoder : encoder_call.
Variable decoder : decoder_call.
Variable criterion : CrossEntropyLoss.t.
Variable word_to_index : list (string * nat).

Lemma train_batch_inv input_seq target_seq g st g' :
  Training.train_batch encoder decoder criterion word_to_index input_seq target_seq g
    = Ok (st, g') ->
  exists encoder_outputs hidden cell g1 sos pad,
    encoder input_seq g = Ok (encoder_outputs, (hidden, cell), g1)
    /\ dict_get word_to_index START_OF_SEQUENCE = Some sos
    /\ dict_get word_to_index PADDING_SEQUENCE = Some pad
    /\ rows target_seq <> 0
    /\ Training.timestep_loop decoder criterion encoder_outputs target_seq
         (Training.lengths target_seq pad)
         (seq 0 (max_upto (rows target_seq) (at1 (Training.lengths target_seq pad))))
         (first_state sos (rows input_seq) hidden cell) g1
       = Ok (st, g').
Proof.
  unfold Training.train_batch. unfold bindM at 1.
  destruct (encoder input_seq g) as [[[encoder_outputs [hidden cell]] g1]|e];
    [|discriminate].
  unfold bindM at 1, lift at 1, dict_getitem at 1.
  destruct (dict_get word_to_index START_OF_SEQUENCE) as [sos|]; [|discriminate].
  unfold bindM at 1, lift at 1, dict_getitem at 1.
  destruct (dict_get word_to_index PADDING_SEQUENCE) as [pad|]; [|discriminate].
  unfold bindM at 1, lift at 1, Training.max_item.
  destruct (decide (len1 (Training.lengths target_seq pad) = 0)) as [Hz|Hnz];
    [discriminate|].
  intros Hrun. exists encoder_outputs, hidden, cell, g1, sos, pad.
  repeat split; try reflexivity; assumption.
Qed.

Lemma seq_below n : Forall (fun t => t < n) (seq 0 n).
Proof. apply Forall_forall. intros t Ht. apply elem_of_seq in Ht. lia. Qed.

Lemma timestep_loop_returns target_seq pad fit encoder_outputs :
  decoder_trains decoder criterion target_seq fit encoder_outputs ->
  forall ts st g,
    Forall (fun t => t < max_upto (rows target_seq)
                           (at1 (Training.lengths target_seq pad))) ts ->
    fit (Training.decoder_input st) (Training.decoder_hidden st)
        (Training.decoder_cell st) ->
    exists st' g',
      Training.timestep_loop decoder criterion encoder_outputs target_seq
        (Training.lengths target_seq pad) ts st g = Ok (st', g').
Proof.
  intros Hdec. induction ts as [|t rest IH]; intros st g Hts Hfit.
  - now exists st, g.
  - apply Forall_cons in Hts as [Ht Hrest].
    rewrite timestep_loop_cons by exact Ht.
    destruct (Hdec _ _ _ g Hfit) as (output & hidden & cell & weights & g1 & -> & Hnext).
    destruct (Hnext t) as [[c ->] Hfit'].
    { pose proof (max_length_le_cols target_seq pad). lia. }
    apply IH; [exact Hrest | exact Hfit'].
Qed.

Lemma train_batch_returns input_seq target_seq g sos pad :
  dict_get word_to_index START_OF_SEQUENCE = Some sos ->
  dict_get word_to_index PADDING_SEQUENCE = Some pad ->
  rows target_seq <> 0 ->
  model_trains encoder decoder criterion input_seq target_seq sos ->
  exists st g',
    Training.train_batch encoder decoder criterion word_to_index input_seq target_seq g
      = Ok (st, g').
Proof.
  intros Hsos Hpad Hrows (fit & Henc & Hdec).
  destruct (Henc g) as (encoder_outputs & hidden & cell & g1 & Hrun & Hfit).
  unfold Training.train_batch.
  rewrite (bindM_Ok _ _ _ _ _ Hrun).
  unfold bindM at 1, lift at 1, dict_getitem at 1. rewrite Hsos.
  unfold bindM at 1, lift at 1, dict_getitem at 1. rewrite Hpad.
  unfold bindM at 1, lift at 1, Training.max_item.
  rewrite decide_False by exact Hrows.
  apply (timestep_loop_returns target_seq pad (fit encoder_outputs) encoder_outputs
           (Hdec encoder_outputs)).
  - apply seq_below.
  - exact Hfit.
Qed.

Lemma teacher_forcing_trace (input_seq target_seq : tensor2 nat) (g : oracle)
    (st : Training.state) (g' : oracle) :
  Training.train_batch encoder decoder criterion word_to_index input_seq target_seq g
    = Ok (st, g') ->
  exists sos pad,
    dict_get word_to_index START_OF_SEQUENCE = Some sos
    /\ dict_get word_to_index PADDING_SEQUENCE = Some pad
    /\ let n := max_upto (rows target_seq) (at1 (Training.lengths target_seq pad)) in
       length (Training.fed st) = n
       /\ Training.fed st ++ [Training.decoder_input st]
          = tensor_of_list 0 (repeat sos (rows input_seq))
            :: map (column target_seq) (seq 0 n).
Proof.
  intros Hrun.
  destruct (train_batch_inv _ _ _ _ _ Hrun)
    as (encoder_outputs & hidden & cell & g1 & sos & pad & _ & Hsos & Hpad & _ & Hloop).
  exists sos, pad. split; [exact Hsos|]. split; [exact Hpad|]. intros n.
  destruct (timestep_loop_trace decoder criterion encoder_outputs target_seq pad
              _ _ _ _ _ (seq_below n) Hloop)
    as (outs & _ & _ & Hfed & _).
  simpl in Hfed. split; [|exact Hfed].
  apply (f_equal (@length _)) in Hfed.
  rewrite length_app in Hfed. simpl in Hfed. rewrite length_map, length_seq in Hfed. lia.
Qed.

(** C6. Teacher forcing.  [train] gets through every non-empty batch on
    which the model answers its calls.  In every batch it gets through, the
    decoder is called once per time step [t] below the longest target
    length; its input at step 0 is the start token for every example, and
    its input at step [t + 1] is the column [target_seq[:, t]] of
    ground-truth tokens.  This holds of every decoder, so the inputs do not
    depend on what the decoder predicted. *)
Theorem teacher_forcing (input_seq target_seq : tensor2 nat) (g : oracle) :
  (forall sos pad,
     dict_get word_to_index START_OF_SEQUENCE = Some sos ->
     dict_get word_to_index PADDING_SEQUENCE = Some pad ->
     rows target_seq <> 0 ->
     model_trains encoder decoder criterion input_seq target_seq sos ->
     exists st g',
       Training.train_batch encoder decoder criterion word_to_index input_seq target_seq g
         = Ok (st, g'))
  /\ (forall st g',
        Training.train_batch encoder decoder criterion word_to_index input_seq target_seq g
          = Ok (st, g') ->
        exists sos pad,
          dict_get word_to_index START_OF_SEQUENCE = Some sos
          /\ dict_get word_to_index PADDING_SEQUENCE = Some pad
          /\ let n := max_upto (rows target_seq)
                               (at1 (Training.lengths target_seq pad)) in
             length (Training.fed st) = n
             /\ Training.fed st ++ [Training.decoder_input st]
                = tensor_of_list 0 (repeat sos (rows input_seq))
                  :: map (column target_seq) (seq 0 n)).
Proof.
  split.
  - intros sos pad Hsos Hpad Hrows Hmodel. now apply (train_batch_returns _ _ _ sos pad).
  - intros st g'. apply teacher_forcing_trace.
Qed.

End batch_facts.

(** ** The masked loss *)

Section loss_facts.
Variable criterion : CrossEntropyLoss.t.
Variable target_seq : tensor2 nat.
Variable pad : nat.
Hypothesis ignores_padding : CrossEntropyLoss.ignore_index criterion = pad.
Hypothesis padded : right_padded pad target_seq.

Abbreviation lengths_ := (Training.lengths target_seq pad).
Abbreviation longest := (max_upto (rows target_seq) (at1 lengths_)).

(** On a right-padded batch the rows the criterion counts at step [t] are
    the rows still active at [t]. *)
Lemma counted_is_active t b :
  t < longest -> b < rows target_seq ->
  CrossEntropyLoss.counted criterion (column target_seq t) b
  = (t <? at1 lengths_ b)%nat.
Proof.
  intros Ht Hb. unfold CrossEntropyLoss.counted. rewrite ignores_padding.
  cbn [column at1]. rewrite padded; [apply negb_involutive | exact Hb |].
  pose proof (max_length_le_cols target_seq pad). lia.
Qed.

Lemma criterion_is_masked_mean t output c :
  t < longest ->
  CrossEntropyLoss.forward criterion output (column target_seq t) = Ok c ->
  c = masked_mean target_seq lengths_ t output.
Proof.
  intros Ht. unfold CrossEntropyLoss.forward.
  destruct (decide _); [|discriminate]. destruct (all_upto _ _); [|discriminate].
  intros [= <-]. unfold masked_mean. cbn [column len1].
  rewrite (count_upto_ext (rows target_seq)
             (CrossEntropyLoss.counted criterion (column target_seq t))
             (fun b => (t <? at1 lengths_ b)%nat))
    by (intros b Hb; now apply counted_is_active).
  f_equal. apply Rsum_ext. intros b Hb. now rewrite counted_is_active.
Qed.

Lemma active_count_pos t :
  t < longest -> 0 < count_upto (rows target_seq) (fun b => (t <? at1 lengths_ b)%nat).
Proof.
  intros Ht. apply any_upto_count, any_upto_true.
  destruct (max_upto_attained _ _ _ Ht) as (b & Hb & Hlt).
  exists b. split; [exact Hb | now apply Nat.ltb_lt].
Qed.

(** The term [train] adds at step [t] is the masked mean. *)
Lemma masked_term_is_masked_mean t output c :
  t < longest ->
  CrossEntropyLoss.forward criterion output (column target_seq t) = Ok c ->
  Training.masked_term c (Training.active t lengths_)
  = masked_mean target_seq lengths_ t output.
Proof.
  intros Ht Hc. rewrite <- (criterion_is_masked_mean t output c Ht Hc).
  unfold Training.masked_term. cbn [Training.active len1 at1 Training.lengths].
  rewrite Rsum_indicator.
  pose proof (active_count_pos t Ht) as Hpos. apply lt_INR in Hpos. simpl in Hpos.
  cbn [Training.lengths at1] in Hpos. field. lra.
Qed.

(** With targets of one length nothing is masked: the masked mean is the
    plain mean over the batch. *)
Lemma masked_mean_is_plain_mean t output :
  (forall b b', b < rows target_seq -> b' < rows target_seq ->
     at1 lengths_ b = at1 lengths_ b') ->
  t < longest ->
  masked_mean target_seq lengths_ t output = plain_mean target_seq t output.
Proof.
  intros Hsame Ht. destruct (max_upto_attained _ _ _ Ht) as (b0 & Hb0 & Hlt).
  assert (Hall : forall b, b < rows target_seq -> (t <? at1 lengths_ b)%nat = true).
  { intros b Hb. apply Nat.ltb_lt. rewrite (Hsame b b0 Hb Hb0). exact Hlt. }
  unfold masked_mean, plain_mean. f_equal.
  - apply Rsum_ext. intros b Hb. now rewrite Hall.
  - f_equal. rewrite (count_upto_ext _ _ (fun _ => true) Hall).
    clear. induction (rows target_seq) as [|n IH]; simpl; [reflexivity | lia].
Qed.

End loss_facts.

Section masked_loss.
Variable encoder : encoder_call.
Variable decoder : decoder_call.
Variable criterion : CrossEntropyLoss.t.
Variable word_to_index : list (string * nat).

Lemma masked_loss (input_seq target_seq : tensor2 nat) (g : oracle)
    (st : Training.state) (g' : oracle) (pad : nat) :
  Training.train_batch encoder decoder criterion word_to_index input_seq target_seq g
    = Ok (st, g') ->
  dict_get word_to_index PADDING_SEQUENCE = Some pad ->
  CrossEntropyLoss.ignore_index criterion = pad ->
  right_padded pad target_seq ->
  let target_lengths := Training.lengths target_seq pad in
  let n := max_upto (rows target_seq) (at1 target_lengths) in
  length (Training.outputs st) = n
  /\ Training.loss st
     = sum_list (zip_with (masked_mean target_seq target_lengths)
                          (seq 0 n) (Training.outputs st))
  /\ ((forall b b', b < rows target_seq -> b' < rows target_seq ->
         at1 target_lengths b = at1 target_lengths b') ->
      Training.loss st
      = sum_list (zip_with (plain_mean target_seq) (seq 0 n) (Training.outputs st))).
Proof.
  intros Hrun Hpad Hignore Hpadded target_lengths n.
  destruct (train_batch_inv _ _ _ _ _ _ _ _ _ Hrun)
    as (encoder_outputs & hidden & cell & g1 & sos & pad' & _ & _ & Hpad' & _ & Hloop).
  assert (pad' = pad) as -> by congruence.
  destruct (timestep_loop_trace decoder criterion encoder_outputs target_seq pad
              _ _ _ _ _ (seq_below n) Hloop)
    as (outs & Houts & Hlen & _ & _ & Hloss).
  simpl in Houts. rewrite Houts. rewrite length_seq in Hlen.
  split; [exact Hlen|]. split.
  - rewrite (Hloss (masked_mean target_seq target_lengths)).
    + simpl. ring.
    + intros t output c Ht Hc.
      now apply (masked_term_is_masked_mean criterion target_seq pad Hignore Hpadded).
  - intros Hsame. rewrite (Hloss (plain_mean target_seq)).
    + simpl. ring.
    + intros t output c Ht Hc.
      rewrite (masked_term_is_masked_mean criterion target_seq pad Hignore Hpadded
                 t output c Ht Hc).
      now apply masked_mean_is_plain_mean.
Qed.

(** C1. The masked training loss.  [train] gets through every non-empty
    batch on which the model answers its calls.  On a batch whose padding
    only follows the tokens, with the criterion ignoring the padding id as
    the notebook sets it up, every batch that [train] gets through has called
    the decoder once per time step below the longest target length, and its
    loss is the sum over these steps [t] of the masked mean: the
    cross-entropy between the logits of step [t] and the ground-truth tokens
    at position [t], averaged over the examples whose target is longer than
    [t], the others adding zero.  When all targets have one length, each
    masked mean is the plain mean over the batch. *)
Theorem loss_is_sum_of_masked_means (input_seq target_seq : tensor2 nat) (g : oracle)
    (pad : nat) :
  dict_get word_to_index PADDING_SEQUENCE = Some pad ->
  CrossEntropyLoss.ignore_index criterion = pad ->
  right_padded pad target_seq ->
  let target_lengths := Training.lengths target_seq pad in
  let n := max_upto (rows target_seq) (at1 target_lengths) in
  (forall sos,
     dict_get word_to_index START_OF_SEQUENCE = Some sos ->
     rows target_seq <> 0 ->
     model_trains encoder decoder criterion input_seq target_seq sos ->
     exists st g',
       Training.train_batch encoder decoder criterion word_to_index input_seq target_seq g
         = Ok (st, g'))
  /\ (forall st g',
        Training.train_batch encoder decoder criterion word_to_index input_seq target_seq g
          = Ok (st, g') ->
        length (Training.outputs st) = n
        /\ Training.loss st
           = sum_list (zip_with (masked_mean target_seq target_lengths)
                                (seq 0 n) (Training.outputs st))
        /\ ((forall b b', b < rows target_seq -> b' < rows target_seq ->
               at1 target_lengths b = at1 target_lengths b') ->
            Training.loss st
            = sum_list (zip_with (plain_mean target_seq) (seq 0 n)
                                 (Training.outputs st)))).
Proof.
  intros Hpad Hignore Hpadded target_lengths n. split.
  - intros sos Hsos Hrows Hmodel.
    now apply (train_batch_returns encoder decoder criterion word_to_index _ _ _ sos pad).
  - intros st g' Hrun. now apply (masked_loss input_seq target_seq g st g' pad).
Qed.

End masked_loss.

(** ** The dataset generator *)

Lemma randint_spec a b g :
  (a <= b)%Z -> exists z, randint a b g = Ok (z, snd (draw g)) /\ (a <= z <= b)%Z.
Proof.
  intros Hab. unfold randint. rewrite decide_True by exact Hab.
  destruct (draw g) as [r g'] eqn:Hdraw. simpl.
  eexists. split; [reflexivity|].
  pose proof (Z.mod_pos_bound (Z.of_nat r) (b - a + 1)). lia.
Qed.

Lemma choice_spec {A : Type} (xs : list A) g :
  xs <> [] -> exists x, choice xs g = Ok (x, snd (draw g)) /\ In x xs.
Proof.
  intros Hne. unfold choice. destruct (draw g) as [r g'] eqn:Hdraw. simpl.
  assert (Hlt : r mod length xs < length xs).
  { apply Nat.mod_upper_bound. destruct xs; [congruence | simpl; lia]. }
  destruct (lookup_lt_is_Some_2 xs _ Hlt) as [x Hx]. rewrite Hx.
  exists x. split; [reflexivity|].
  apply list_elem_of_In, list_elem_of_lookup. eauto.
Qed.

Section generator_facts.
Variable float : Type.
Variable truediv : Z -> Z -> float.
Variable round : float -> Z -> float.
Variable num2words_int : Z -> string.
Variable num2words_float : float -> string.

Abbreviation generator := (SimpleMathProblemsGenerator.t float).
Abbreviation standard :=
  (SimpleMathProblemsGenerator.standard_operations float truediv round).
Abbreviation attempt_once :=
  (SimpleMathProblemsGenerator.attempt_once float num2words_int num2words_float).
Abbreviation generate_problem :=
  (SimpleMathProblemsGenerator.generate_problem float num2words_int num2words_float).

Abbreviation sound_ := (sound float truediv round num2words_int num2words_float).
Abbreviation produced_ := (produced float truediv round num2words_int num2words_float).
Abbreviation generate_dataset :=
  (SimpleMathProblemsGenerator.generate_dataset float num2words_int num2words_float).

Lemma attempt_once_sound (self : generator) g :
  SimpleMathProblemsGenerator.operations self = standard ->
  exists a g', attempt_once self g = Ok (a, g') /\ sound_ a.
Proof.
  intros Hops. unfold SimpleMathProblemsGenerator.attempt_once.
  destruct (randint_spec 1 100 g) as (n1 & Hn1 & Hr1); [lia|].
  unfold bindM at 1. rewrite Hn1.
  destruct (randint_spec 1 100 (snd (draw g))) as (n2 & Hn2 & Hr2); [lia|].
  unfold bindM at 1. rewrite Hn2.
  destruct (choice_spec standard (snd (draw (snd (draw g))))) as ([op func] & Hop & Hin);
    [discriminate|].
  unfold bindM at 1. rewrite Hops, Hop.
  assert (Hkeep : (if decide (op = "divided by" /\ n2 = 0%Z)
                   then randint 1 100 else ret n2) = ret n2).
  { rewrite decide_False; [reflexivity | lia]. }
  rewrite Hkeep. unfold bindM at 1, ret at 1.
  simpl in Hin.
  destruct Hin as [[= <- <-]|[[= <- <-]|[[= <- <-]|[[= <- <-]|[]]]]].
  - eexists _, _. split; [reflexivity|]. unfold sound. simpl.
    split; [lia|]. split; [lia|]. split; [now left|].
    repeat split; discriminate.
  - eexists _, _. split; [reflexivity|]. unfold sound. simpl.
    split; [lia|]. split; [lia|]. split; [right; now left|].
    repeat split; discriminate.
  - eexists _, _. split; [reflexivity|]. unfold sound. simpl.
    split; [lia|]. split; [lia|]. split; [right; right; now left|].
    repeat split; discriminate.
  - rewrite decide_True by lia.
    eexists _, _. split; [reflexivity|]. unfold sound. simpl.
    split; [lia|]. split; [lia|]. split; [right; right; now right|].
    repeat split; try discriminate. lia.
Qed.

Lemma generate_problem_sound fuel : forall (self : generator) g,
  SimpleMathProblemsGenerator.operations self = standard ->
  (forall e, generate_problem fuel self g <> Some (Raise e))
  /\ (forall row self' g',
        generate_problem fuel self g = Some (Ok (row, self', g')) ->
        produced_ row
        /\ (row ∉ SimpleMathProblemsGenerator.existing_questions_and_answers self)
        /\ SimpleMathProblemsGenerator.existing_questions_and_answers self'
           = {[ row ]} ∪ SimpleMathProblemsGenerator.existing_questions_and_answers self
        /\ SimpleMathProblemsGenerator.operations self' = standard
        /\ SimpleMathProblemsGenerator.num_samples self'
           = SimpleMathProblemsGenerator.num_samples self).
Proof.
  induction fuel as [|fuel IH]; intros self g Hops; simpl.
  - split; [discriminate | discriminate].
  - destruct (attempt_once_sound self g Hops) as (a & g1 & Hattempt & Ha).
    rewrite Hattempt.
    destruct (decide _) as [Hnew|Hold].
    + split; [discriminate|]. intros row self' g' [= <- <- <-]. simpl.
      split; [|now repeat split]. now exists self, g, a, g1.
    + apply IH, Hops.
Qed.
(** A produced row is new, and is remembered. *)
Lemma generate_problem_fresh fuel : forall (self : generator) g row self' g',
  generate_problem fuel self g = Some (Ok (row, self', g')) ->
  (row ∉ SimpleMathProblemsGenerator.existing_questions_and_answers self)
  /\ SimpleMathProblemsGenerator.existing_questions_and_answers self'
     = {[ row ]} ∪ (SimpleMathProblemsGenerator.existing_questions_and_answers self).
Proof.
  induction fuel as [|fuel IH]; intros self g row self' g' Hrun; simpl in Hrun;
    [discriminate|].
  destruct (attempt_once self g) as [[a g1]|e]; [|discriminate].
  destruct (decide _) as [Hnew|Hold].
  - injection Hrun as <- <- _. simpl. now split.
  - apply (IH self g1 _ _ _ Hrun).
Qed.

(** Rows seen before a run of the comprehension are not produced again. *)
Lemma generate_rows_new fuel n : forall (self : generator) g data self' g' row,
  SimpleMathProblemsGenerator.generate_rows float num2words_int num2words_float
    fuel n self g = Some (Ok (data, self', g')) ->
  row ∈ SimpleMathProblemsGenerator.existing_questions_and_answers self ->
  ~ In row data.
Proof.
  induction n as [|n IH]; intros self g data self' g' row Hrun Hseen; simpl in Hrun.
  - injection Hrun as <- _ _. intros [].
  - destruct (generate_problem fuel self g) as [[[[r self1] g1]|e]|] eqn:Hgen;
      [|discriminate|discriminate].
    destruct (SimpleMathProblemsGenerator.generate_rows _ _ _ fuel n self1 g1)
      as [[[[d self2] g2]|e]|] eqn:Hrest; [|discriminate|discriminate].
    injection Hrun as <- _ _.
    destruct (generate_problem_fresh _ _ _ _ _ _ Hgen) as [Hnew Hgrow].
    intros [<-|Hin]; [contradiction|].
    apply (IH self1 g1 d self2 g2 row Hrest); [|exact Hin].
    rewrite Hgrow. apply elem_of_union_r, Hseen.
Qed.

Lemma generate_rows_sound fuel n : forall (self : generator) g,
  SimpleMathProblemsGenerator.operations self = standard ->
  (forall e,
     SimpleMathProblemsGenerator.generate_rows float num2words_int num2words_float
       fuel n self g <> Some (Raise e))
  /\ (forall data self' g',
        SimpleMathProblemsGenerator.generate_rows float num2words_int num2words_float
          fuel n self g = Some (Ok (data, self', g')) ->
        Forall produced_ data /\ length data = n /\ List.NoDup data).
Proof.
  induction n as [|n IH]; intros self g Hops; simpl.
  - split; [discriminate|]. intros data self' g' [= <- _ _].
    repeat split; [constructor | apply List.NoDup_nil].
  - destruct (generate_problem_sound fuel self g Hops) as [Hsafe Hrow].
    destruct (generate_problem fuel self g) as [[[[row self1] g1]|e]|];
      [|now destruct (Hsafe e)|split; discriminate].
    destruct (Hrow row self1 g1 eq_refl) as (Hprod & Hnew & Hseen & Hops1 & _).
    destruct (IH self1 g1 Hops1) as [Hsafe' Hrows].
    destruct (SimpleMathProblemsGenerator.generate_rows _ _ _ fuel n self1 g1)
      as [[[[data self2] g2]|e]|] eqn:Hrest;
      [|now destruct (Hsafe' e)|split; discriminate].
    split; [discriminate|]. intros data' self' g' [= <- _ _].
    destruct (Hrows data self2 g2 eq_refl) as (Hall & Hlen & Hnd).
    split; [now constructor|]. split; [simpl; now rewrite Hlen|].
    apply List.NoDup_cons; [|exact Hnd].
    apply (generate_rows_new fuel n self1 g1 data self2 g2 row Hrest).
    rewrite Hseen. apply elem_of_union_l, elem_of_singleton. reflexivity.
Qed.

(** A generator that has seen no problem yet produces one at its first pass
    through the loop body. *)
Lemma generate_problem_returns fuel (self : generator) g :
  SimpleMathProblemsGenerator.operations self = standard ->
  SimpleMathProblemsGenerator.existing_questions_and_answers self = ∅ ->
  fuel <> 0 ->
  exists row self' g', generate_problem fuel self g = Some (Ok (row, self', g')).
Proof.
  intros Hops Hempty Hfuel. destruct fuel as [|fuel]; [congruence|]. simpl.
  destruct (attempt_once_sound self g Hops) as (a & g1 & -> & _).
  rewrite decide_True; [now eexists _, _, _|].
  rewrite Hempty. apply not_elem_of_empty.
Qed.

(** C8. Division by zero never reaches the caller of the generator.  For a
    generator as its constructor sets it up (with any set of problems seen
    so far), every pass through the body of the loop of [generate_problem]
    returns, from every state of the random source, and its local variables
    are sound: both operands are integers of 1..100, the operation is one of
    the four and the result is the sum, the difference, the product or the
    rounded quotient that goes with it, the result is not [None], and the
    answer spells the result; if the operation is the
    division, the divisor is such a non-zero integer, the result is the
    quotient rounded to two places, and the answer spells that number: the
    ["undefined"] branch, whose result is [None], is never taken.
    [generate_problem] never raises (a fresh generator returns at its first
    pass through the loop), and every problem it returns is the question and
    the answer of such a pass.  The same holds of every row of
    [generate_dataset], which has [num_samples] pairwise different rows. *)
Theorem division_never_by_zero (fuel : nat) (self : generator) (g : oracle) :
  SimpleMathProblemsGenerator.operations self = standard ->
  (forall g0, exists a g1, attempt_once self g0 = Ok (a, g1) /\ sound_ a)
  /\ (forall e, generate_problem fuel self g <> Some (Raise e))
  /\ (SimpleMathProblemsGenerator.existing_questions_and_answers self = ∅ ->
      fuel <> 0 ->
      exists row self' g', generate_problem fuel self g = Some (Ok (row, self', g')))
  /\ (forall row self' g',
        generate_problem fuel self g = Some (Ok (row, self', g')) -> produced_ row)
  /\ (forall e, generate_dataset fuel self g <> Some (Raise e))
  /\ (forall data self' g',
        generate_dataset fuel self g = Some (Ok (data, self', g')) ->
        Forall produced_ data
        /\ length data = SimpleMathProblemsGenerator.num_samples self
        /\ List.NoDup data).
Proof.
  intros Hops.
  destruct (generate_problem_sound fuel self g Hops) as [Hsafe Hrow].
  destruct (generate_rows_sound fuel (SimpleMathProblemsGenerator.num_samples self)
              self g Hops) as [Hsafe' Hrows].
  split; [intros g0; now apply attempt_once_sound|].
  split; [exact Hsafe|].
  split; [intros Hempty Hfuel; now apply generate_problem_returns|].
  split; [|split; [exact Hsafe' | exact Hrows]].
  intros row self' g' Hrun. now destruct (Hrow row self' g' Hrun).
Qed.

End generator_facts.

(** ** Sample runs *)

Lemma division_never_by_zero_witness :
  exists row self' g',
    SimpleMathProblemsGenerator.generate_problem (Z * Z)
      sample_num2words_int sample_num2words_float 1 sample_generator oracle1
    = Some (Ok (row, self', g'))
    /\ row = ("two divided by three", "zero point six seven")
    /\ produced (Z * Z) sample_truediv sample_round
                sample_num2words_int sample_num2words_float row.
Proof.
  eexists _, _, _. split; [vm_compute; reflexivity|]. split; [reflexivity|].
  destruct (division_never_by_zero (Z * Z) sample_truediv sample_round
              sample_num2words_int sample_num2words_float 1 sample_generator oracle1
              eq_refl)
    as (_ & _ & _ & Hrow & _).
  eapply Hrow. vm_compute. reflexivity.
Defined.

(** What [produced] leaves out.  With the sample spelling, the only answer
    a pass through the loop body gives to "two divided by three" is the
    rounded quotient: neither "undefined" nor another number. *)
Lemma sample_num2words_int_cases (z : Z) :
  (z = 2%Z /\ sample_num2words_int z = "two")
  \/ (z = 3%Z /\ sample_num2words_int z = "three")
  \/ sample_num2words_int z = "many".
Proof. destruct z as [|[[q|q|]|[q|q|]|]|q]; simpl; auto. Qed.

Lemma sample_division_answer (row : string * string) :
  produced (Z * Z) sample_truediv sample_round
           sample_num2words_int sample_num2words_float row ->
  fst row = "two divided by three" ->
  snd row = "zero point six seven".
Proof.
  intros (self & g & [n1 n2 op res q ans] & g' & _ & _ & Hsound & ->).
  unfold sound in Hsound. cbn in Hsound. cbn [fst snd SimpleMathProblemsGenerator.question
    SimpleMathProblemsGenerator.answer].
  destruct Hsound as (_ & _ & Hop & _ & Hq & _ & Hdiv).
  intros Hrow. rewrite Hq in Hrow. clear Hq.
  destruct (sample_num2words_int_cases n1) as [[-> H1]|[[-> H1]|H1]];
    destruct (sample_num2words_int_cases n2) as [[-> H2]|[[-> H2]|H2]];
    rewrite ?H1, ?H2 in Hrow; clear H1 H2;
    destruct Hop as [[-> _]|[[-> _]|[[-> _]|[-> _]]]];
    try (vm_compute in Hrow; discriminate Hrow).
  destruct (Hdiv eq_refl) as (_ & _ & ->). reflexivity.
Qed.

Example division_is_not_undefined :
  ~ produced (Z * Z) sample_truediv sample_round
             sample_num2words_int sample_num2words_float
             ("two divided by three", "undefined").
Proof. intros Hrow. now pose proof (sample_division_answer _ Hrow eq_refl). Qed.

Example division_is_not_another_number :
  ~ produced (Z * Z) sample_truediv sample_round
             sample_num2words_int sample_num2words_float
             ("two divided by three", "ninety nine").
Proof. intros Hrow. now pose proof (sample_division_answer _ Hrow eq_refl). Qed.

(** ** The model answers when its shapes fit *)

Lemma all_upto_true n p : all_upto n p = true <-> forall i, i < n -> p i = true.
Proof.
  induction n as [|n IH]; simpl.
  - split; [intros _ i Hi; lia | reflexivity].
  - rewrite andb_true_iff, IH. split.
    + intros [Hall Hn] i Hi. destruct (decide (i = n)) as [->|Hne]; [exact Hn|].
      apply Hall. lia.
    + intros Hall. split; [intros i Hi; apply Hall; lia | apply Hall; lia].
Qed.

Lemma embedding_forward_Ok self input g :
  (forall i j, i < rows input -> j < cols input ->
     at2 input i j < Embedding.num_embeddings self) ->
  exists embedded,
    Embedding.forward self input g = Ok (embedded, g)
    /\ shape3 embedded = (rows input, cols input, Embedding.embedding_dim self).
Proof.
  intros Hin. unfold Embedding.forward, lift.
  assert (Hall : all_upto (rows input) (fun i =>
            all_upto (cols input) (fun j =>
              (at2 input i j <? Embedding.num_embeddings self)%nat)) = true).
  { apply all_upto_true. intros i Hi. apply all_upto_true. intros j Hj.
    apply Nat.ltb_lt. now apply Hin. }
  rewrite Hall. eexists. split; reflexivity.
Qed.

Lemma lstm_forward_Ok self input hx g :
  dim1 input <> 0 ->
  dim2 input = LSTM.input_size self ->
  match hx with
  | Some (h0, c0) =>
      shape3 h0 = (1, dim0 input, LSTM.hidden_size self)
      /\ shape3 c0 = (1, dim0 input, LSTM.hidden_size self)
  | None => True
  end ->
  exists output hidden cell,
    LSTM.forward self input hx g = Ok (output, (hidden, cell), g)
    /\ shape3 output = (dim0 input, dim1 input, LSTM.hidden_size self)
    /\ shape3 hidden = (1, dim0 input, LSTM.hidden_size self)
    /\ shape3 cell = (1, dim0 input, LSTM.hidden_size self).
Proof.
  intros Hlen Hin Hhx. unfold LSTM.forward, lift.
  rewrite decide_True.
  - eexists _, _, _. split; [reflexivity|]. now repeat split.
  - destruct hx as [[h0 c0]|]; simpl.
    + destruct Hhx as [[= ? ? ?] [= ? ? ?]]. repeat split; assumption.
    + repeat split; assumption.
Qed.

Lemma encoder_forward_Ok self input_seq g :
  encoder_fits self ->
  cols input_seq <> 0 ->
  (forall i j, i < rows input_seq -> j < cols input_seq ->
     at2 input_seq i j < Embedding.num_embeddings (Encoder.embedding self)) ->
  exists outputs hidden cell,
    Encoder.forward self input_seq g = Ok (outputs, (hidden, cell), g)
    /\ shape3 outputs
       = (rows input_seq, cols input_seq, LSTM.hidden_size (Encoder.lstm self))
    /\ shape3 hidden = (1, rows input_seq, LSTM.hidden_size (Encoder.lstm self))
    /\ shape3 cell = (1, rows input_seq, LSTM.hidden_size (Encoder.lstm self)).
Proof.
  intros Hfit Hlen Hin. unfold Encoder.forward.
  destruct (embedding_forward_Ok (Encoder.embedding self) input_seq g Hin)
    as (embedded & Hemb & [= Hb Hs Hd]).
  rewrite (bindM_Ok _ _ _ _ _ Hemb).
  destruct (lstm_forward_Ok (Encoder.lstm self) embedded None g)
    as (outputs & hidden & cell & Hrun & Ho & Hh & Hc);
    [lia | now rewrite Hd | trivial |].
  rewrite (bindM_Ok _ _ _ _ _ Hrun). rewrite Hb, Hs in *.
  now exists outputs, hidden, cell.
Qed.

Lemma decoder_forward_Ok self input hidden cell encoder_outputs g :
  decoder_fits self (dim2 encoder_outputs) ->
  (forall b, b < len1 input ->
     at1 input b < Embedding.num_embeddings (Decoder.embedding self)) ->
  shape3 hidden = (1, len1 input, LSTM.hidden_size (Decoder.lstm self)) ->
  shape3 cell = (1, len1 input, LSTM.hidden_size (Decoder.lstm self)) ->
  dim0 encoder_outputs = len1 input ->
  exists output hidden' cell' weights,
    Decoder.forward self input hidden cell encoder_outputs g
      = Ok (output, hidden', cell', weights, g)
    /\ rows output = len1 input
    /\ cols output = Linear.out_features (Decoder.fc self)
    /\ shape3 hidden' = (1, len1 input, LSTM.hidden_size (Decoder.lstm self))
    /\ shape3 cell' = (1, len1 input, LSTM.hidden_size (Decoder.lstm self))
    /\ rows weights = len1 input
    /\ cols weights = dim1 encoder_outputs.
Proof.
  intros (Hemb & Hattn & Hv & Hfc) Hin Hh Hc Hbatch. unfold Decoder.forward.
  destruct (embedding_forward_Ok (Decoder.embedding self) (unsqueeze1_1 input) g)
    as (embedded & Hrun1 & [= Hb Hs Hd]); [intros i j Hi _; now apply Hin|].
  rewrite (bindM_Ok _ _ _ _ _ Hrun1). simpl in Hb, Hs.
  destruct (lstm_forward_Ok (Decoder.lstm self) embedded (Some (hidden, cell)) g)
    as (lstm_output & hidden' & cell' & Hrun2 & [= Ho0 Ho1 Ho2] & Hh' & Hc');
    [lia | congruence | rewrite Hb; now split |].
  rewrite (bindM_Ok _ _ _ _ _ Hrun2).
  injection Hh' as Hh0 Hh1 Hh2. injection Hc' as Hc0 Hc1 Hc2.
  assert (Htop : last_dim0 hidden'
                 = Ok {| rows := dim1 hidden'; cols := dim2 hidden';
                         at2 := fun i j => at3 hidden' (dim0 hidden' - 1) i j |}).
  { unfold last_dim0. rewrite decide_False by lia. reflexivity. }
  unfold bindM at 1, lift at 1. rewrite Htop.
  match goal with
  | |- context [Attention.forward ?a ?top _] =>
      destruct (attention_forward_softmax a top encoder_outputs g)
        as (scores & Hrun3 & Hrows & Hcols)
  end.
  { repeat split; simpl; [lia | lia | exact Hv]. }
  rewrite (bindM_Ok _ _ _ _ _ Hrun3).
  unfold bindM at 1, lift at 1, bmm.
  rewrite decide_True by (simpl; lia).
  unfold bindM at 1, lift at 1, squeeze1 at 1. rewrite decide_True by lia.
  unfold bindM at 1, lift at 1, squeeze1 at 1. rewrite decide_True by reflexivity.
  unfold bindM at 1, lift at 1, cat_dim1. rewrite decide_True by (simpl; lia).
  unfold bindM at 1, Linear.forward2, lift. rewrite decide_True by (simpl; lia).
  unfold ret. eexists _, _, _, _. split; [reflexivity|]. simpl.
  unfold shape3. rewrite Hh0, Hh1, Hh2, Hc0, Hc1, Hc2, Hb.
  repeat split; lia.
Qed.


(** ** [train] gets through a batch when the shapes fit *)

Lemma nth_repeat_below {A : Type} (x d : A) n b : b < n -> nth b (repeat x n) d = x.
Proof.
  revert b. induction n as [|n IH]; intros b Hb; [lia|].
  destruct b as [|b]; [reflexivity|]. simpl. apply IH. lia.
Qed.

Lemma criterion_forward_Ok criterion output target :
  rows output = len1 target ->
  (forall b, b < len1 target -> at1 target b < cols output) ->
  exists c, CrossEntropyLoss.forward criterion output target = Ok c.
Proof.
  intros Hrows Hin. unfold CrossEntropyLoss.forward.
  rewrite decide_True by exact Hrows.
  assert (Hall : all_upto (len1 target) (fun b =>
            negb (CrossEntropyLoss.counted criterion target b)
            || (at1 target b <? cols output)%nat) = true).
  { apply all_upto_true. intros b Hb. apply orb_true_iff. right.
    apply Nat.ltb_lt. now apply Hin. }
  rewrite Hall. eauto.
Qed.

(** A model whose shapes fit gets through every batch with as many inputs as
    targets, non-empty inputs of tokens it can embed, and targets among its
    classes. *)
Lemma fitting_model_trains (encoder : Encoder.t) (decoder : Decoder.t)
    (criterion : CrossEntropyLoss.t) (input_seq target_seq : tensor2 nat) (sos : nat) :
  model_fits encoder decoder ->
  rows input_seq = rows target_seq ->
  cols input_seq <> 0 ->
  (forall i j, i < rows input_seq -> j < cols input_seq ->
     at2 input_seq i j < Embedding.num_embeddings (Encoder.embedding encoder)) ->
  sos < Embedding.num_embeddings (Decoder.embedding decoder) ->
  (forall b t, b < rows target_seq -> t < cols target_seq ->
     at2 target_seq b t < Linear.out_features (Decoder.fc decoder)) ->
  model_trains (Encoder.forward encoder) (Decoder.forward decoder) criterion
               input_seq target_seq sos.
Proof.
  intros (Henc & Hdec & Hsame & Hout & Hemb) Hbatch Hlen Htokens Hsos Htargets.
  exists (fun encoder_outputs input hidden cell =>
            dim0 encoder_outputs = rows target_seq
            /\ dim2 encoder_outputs = LSTM.hidden_size (Encoder.lstm encoder)
            /\ len1 input = rows target_seq
            /\ (forall b, b < rows target_seq ->
                  at1 input b < Embedding.num_embeddings (Decoder.embedding decoder))
            /\ shape3 hidden
               = (1, rows target_seq, LSTM.hidden_size (Decoder.lstm decoder))
            /\ shape3 cell
               = (1, rows target_seq, LSTM.hidden_size (Decoder.lstm decoder))).
  split.
  - intros g.
    destruct (encoder_forward_Ok encoder input_seq g Henc Hlen Htokens)
      as (outputs & hidden & cell & Hrun & [= Ho0 Ho1 Ho2] & Hh & Hc).
    exists outputs, hidden, cell, g. split; [exact Hrun|].
    rewrite Hsame, <- Hbatch. simpl. rewrite repeat_length.
    repeat split; try assumption.
    intros b Hb. now rewrite nth_repeat_below.
  - intros encoder_outputs input hidden cell g (He0 & He2 & Hlen' & Hin & Hh & Hc).
    destruct (decoder_forward_Ok decoder input hidden cell encoder_outputs g)
      as (output & hidden' & cell' & weights & Hrun & Hrows & Hcols & Hh' & Hc' & _).
    + now rewrite He2.
    + intros b Hb. apply Hin. lia.
    + now rewrite Hlen'.
    + now rewrite Hlen'.
    + now rewrite Hlen'.
    + exists output, hidden', cell', weights, g. split; [exact Hrun|].
      rewrite Hlen' in *. intros t Ht. split.
      * apply criterion_forward_Ok; [exact Hrows|].
        intros b Hb. simpl in *. rewrite Hcols. now apply Htargets.
      * simpl. repeat split; try assumption.
        intros b Hb. specialize (Htargets b t Hb Ht). lia.
Qed.

(** ** Sample runs of the model *)

Lemma tiny_model_fits : model_fits tiny_encoder tiny_decoder.
Proof. unfold model_fits, encoder_fits, decoder_fits. simpl. repeat split; lia. Qed.

Lemma sample_target_right_padded : right_padded 2 sample_target_seq.
Proof.
  intros b j Hb Hj. simpl in Hb, Hj.
  destruct b as [|[|b]]; [| |lia]; destruct j as [|[|[|j]]]; try lia; reflexivity.
Qed.

Lemma sample_model_trains :
  model_trains (Encoder.forward tiny_encoder) (Decoder.forward tiny_decoder)
    sample_criterion sample_input_seq sample_target_seq 0.
Proof.
  apply fitting_model_trains.
  - exact tiny_model_fits.
  - reflexivity.
  - simpl. lia.
  - intros i j Hi Hj. simpl in *.
    destruct i as [|[|i]]; [| |lia]; destruct j as [|j]; try lia; simpl; lia.
  - simpl. lia.
  - intros b t Hb Ht. simpl in *.
    destruct b as [|[|b]]; [| |lia]; destruct t as [|[|[|t]]]; try lia; simpl; lia.
Qed.


Lemma teacher_forcing_witness :
  exists st g',
    Training.train_batch (Encoder.forward tiny_encoder) (Decoder.forward tiny_decoder)
      sample_criterion sample_vocabulary sample_input_seq sample_target_seq oracle0
    = Ok (st, g')
    /\ length (Training.fed st) = 3
    /\ Training.fed st ++ [Training.decoder_input st]
       = tensor_of_list 0 [0; 0] :: map (column sample_target_seq) [0; 1; 2].
Proof.
  destruct (teacher_forcing (Encoder.forward tiny_encoder) (Decoder.forward tiny_decoder)
              sample_criterion sample_vocabulary sample_input_seq sample_target_seq oracle0)
    as [Hreturns Htrace].
  destruct (Hreturns 0 2) as (st & g' & Hrun);
    [reflexivity | reflexivity | simpl; lia | exact sample_model_trains |].
  exists st, g'. split; [exact Hrun|].
  destruct (Htrace st g' Hrun) as (sos & pad & Hsos & Hpad & Hlen & Hfed).
  injection Hsos as <-. injection Hpad as <-. split; [exact Hlen | exact Hfed].
Defined.

Lemma loss_is_sum_of_masked_means_witness :
  exists st g',
    Training.train_batch (Encoder.forward tiny_encoder) (Decoder.forward tiny_decoder)
      sample_criterion sample_vocabulary sample_input_seq sample_target_seq oracle0
    = Ok (st, g')
    /\ length (Training.outputs st) = 3
    /\ Training.loss st
       = sum_list (zip_with (masked_mean sample_target_seq
                               (Training.lengths sample_target_seq 2))
                            [0; 1; 2] (Training.outputs st)).
Proof.
  destruct (loss_is_sum_of_masked_means (Encoder.forward tiny_encoder)
              (Decoder.forward tiny_decoder) sample_criterion sample_vocabulary
              sample_input_seq sample_target_seq oracle0 2
              eq_refl eq_refl sample_target_right_padded)
    as [Hreturns Hloss].
  destruct (Hreturns 0) as (st & g' & Hrun);
    [reflexivity | simpl; lia | exact sample_model_trains |].
  exists st, g'. split; [exact Hrun|].
  destruct (Hloss st g' Hrun) as (Hlen & Hsum & _).
  split; [exact Hlen | exact Hsum].
Defined.

(** ** The batches of the notebook are right-padded *)

Lemma count_upto_prefix n k p :
  k <= n -> (forall j, j < n -> p j = (j <? k)%nat) -> count_upto n p = k.
Proof.
  revert k. induction n as [|n IH]; intros k Hk Hp; simpl; [lia|].
  rewrite (Hp n) by lia. destruct (n <? k)%nat eqn:Hlt.
  - apply Nat.ltb_lt in Hlt. assert (k = S n) as -> by lia.
    rewrite (IH n); [lia | lia |].
    intros j Hj. rewrite Hp by lia.
    symmetry. transitivity true; [|symmetry]; apply Nat.ltb_lt; lia.
  - apply Nat.ltb_ge in Hlt. rewrite (IH k); [lia | lia |].
    intros j Hj. apply Hp. lia.
Qed.

Lemma length_le_max (sequences : list (list nat)) i :
  length (nth i sequences []) <= fold_right Nat.max 0 (map (@length nat) sequences).
Proof.
  revert i. induction sequences as [|row rest IH]; intros i; simpl.
  - destruct i; simpl; lia.
  - destruct i as [|i]; [lia|]. specialize (IH i). lia.
Qed.

Lemma nth_is_padding (row : list nat) pad j :
  ~ In pad row -> (nth j row pad =? pad)%nat = negb (j <? length row)%nat.
Proof.
  intros Hrow. destruct (j <? length row)%nat eqn:Hlt; simpl.
  - apply Nat.ltb_lt in Hlt. apply Nat.eqb_neq. intros Heq.
    apply Hrow. rewrite <- Heq. now apply nth_In.
  - apply Nat.ltb_ge in Hlt. rewrite nth_overflow by exact Hlt. apply Nat.eqb_refl.
Qed.

Lemma pad_sequence_lengths sequences pad b :
  b < length sequences ->
  (forall row, In row sequences -> ~ In pad row) ->
  at1 (Training.lengths (pad_rows sequences pad) pad) b = length (nth b sequences []).
Proof.
  intros Hb Hclean. simpl. apply count_upto_prefix; [apply length_le_max|].
  intros j _. rewrite nth_is_padding; [apply negb_involutive|].
  apply Hclean, nth_In, Hb.
Qed.

(** Padding sequences that do not hold the padding id gives a right-padded
    tensor, and so is every batch stacked from rows of a right-padded one. *)
Lemma pad_sequence_right_padded sequences pad :
  (forall row, In row sequences -> ~ In pad row) ->
  right_padded pad (pad_rows sequences pad).
Proof.
  intros Hclean b j Hb _.
  rewrite pad_sequence_lengths by assumption. simpl.
  apply nth_is_padding, Hclean, nth_In, Hb.
Qed.

Lemma batch_right_padded data indices pad :
  right_padded pad data ->
  Forall (fun i => i < rows data) indices ->
  right_padded pad (batch_of data indices).
Proof.
  intros Hdata Hrows b j Hb Hj. simpl in *.
  apply Hdata; [|exact Hj].
  rewrite Forall_forall in Hrows. apply Hrows, list_elem_of_In, nth_In, Hb.
Qed.

Lemma lower_char_not_upper c : is_upper (lower_char c) = false.
Proof. destruct c as [[] [] [] [] [] [] [] []]; reflexivity. Qed.

Lemma lower_no_upper s : has_upper (lower s) = false.
Proof.
  induction s as [|c s IH]; [reflexivity|]. simpl.
  now rewrite lower_char_not_upper, IH.
Qed.

Lemma has_upper_app s c :
  has_upper (s ++ String c EmptyString)%string = has_upper s || is_upper c.
Proof.
  induction s as [|c0 s IH]; simpl; [now rewrite orb_false_r|].
  now rewrite IH, orb_assoc.
Qed.

Lemma split_from_no_upper s : forall cur,
  has_upper cur = false -> has_upper s = false ->
  List.Forall (fun w => has_upper w = false) (split_from cur s).
Proof.
  induction s as [|c s IH]; intros cur Hcur Hs; simpl.
  - destruct cur; simpl; [constructor | constructor; [exact Hcur | constructor]].
  - simpl in Hs. apply orb_false_iff in Hs as [Hc Hs].
    destruct (is_space c).
    + destruct cur; simpl; [now apply IH|].
      constructor; [exact Hcur | now apply IH].
    + apply IH; [|exact Hs]. now rewrite has_upper_app, Hcur, Hc.
Qed.

Lemma lowered_words_no_upper sentence w :
  In w (split (lower sentence)) -> has_upper w = false.
Proof.
  intros Hw.
  pose proof (split_from_no_upper (lower sentence) EmptyString eq_refl
                (lower_no_upper sentence)) as Hall.
  rewrite List.Forall_forall in Hall. now apply Hall.
Qed.

Lemma numbered_injective d w w' i :
  numbered d -> dict_get d w = Some i -> dict_get d w' = Some i -> w = w'.
Proof.
  intros [Hids _] Hw Hw'. apply dict_get_In in Hw, Hw'.
  assert (Hnd : List.NoDup (map snd d)) by (rewrite Hids; apply List.seq_NoDup).
  clear Hids. induction d as [|[w0 i0] d IH]; [destruct Hw|].
  simpl in Hnd. apply List.NoDup_cons_iff in Hnd as [Hfresh Hnd].
  simpl in Hw, Hw'. destruct Hw as [Heq|Hw]; destruct Hw' as [Heq'|Hw'].
  - congruence.
  - injection Heq as _ ->. exfalso. apply Hfresh. now apply (in_map snd _ (w', i)).
  - injection Heq' as _ ->. exfalso. apply Hfresh. now apply (in_map snd _ (w, i)).
  - now apply IH.
Qed.

Lemma tokenize_no_padding sentence d tokens d' :
  numbered d -> reserved d ->
  tokenize sentence d = Ok (tokens, d') ->
  numbered d' /\ reserved d' /\ ~ In 2 tokens.
Proof.
  intros Hnum (Hsos & Heos & Hpad) Hrun.
  destruct (tokenize_spec sentence d) as (tokens0 & d0 & Hrun0 & Hkeep & Hnum0 & Hall).
  rewrite Hrun in Hrun0. injection Hrun0 as <- <-.
  split; [auto|]. split; [repeat split; now apply Hkeep|].
  intros Hin.
  assert (Hword : exists w, In w (split (lower sentence)) /\ dict_get d' w = Some 2).
  { clear -Hall Hin. induction Hall as [|w i ws ts Hw _ IH]; [destruct Hin|].
    destruct Hin as [->|Hin].
    - exists w. split; [now left | exact Hw].
    - destruct (IH Hin) as (w' & Hw' & Hget). exists w'. split; [now right | exact Hget]. }
  destruct Hword as (w & Hw & Hget).
  assert (w = PADDING_SEQUENCE)
    by (apply (numbered_injective d' w PADDING_SEQUENCE 2); auto).
  subst w. apply lowered_words_no_upper in Hw. discriminate.
Qed.

Lemma tokenize_targets_no_padding sentences : forall d data d',
  numbered d -> reserved d ->
  tokenize_targets sentences d = Ok (data, d') ->
  reserved d' /\ forall row, In row data -> ~ In 2 row.
Proof.
  induction sentences as [|s rest IH]; intros d data d' Hnum Hres Hrun; simpl in Hrun.
  - injection Hrun as <- <-. split; [exact Hres | intros row []].
  - destruct Hres as (Hsos & Heos & Hpad).
    unfold dict_getitem at 1 in Hrun. rewrite Hsos in Hrun. simpl in Hrun.
    destruct (tokenize s d) as [[tokens d1]|e] eqn:Htok; [|discriminate]. simpl in Hrun.
    destruct (tokenize_no_padding s d tokens d1 Hnum (conj Hsos (conj Heos Hpad)) Htok)
      as (Hnum1 & Hres1 & Hclean).
    destruct Hres1 as (Hsos1 & Heos1 & Hpad1).
    unfold dict_getitem at 1 in Hrun. rewrite Heos1 in Hrun. simpl in Hrun.
    destruct (tokenize_targets rest d1) as [[data1 d2]|e] eqn:Hrest; [|discriminate].
    simpl in Hrun. injection Hrun as <- <-.
    destruct (IH d1 data1 d2 Hnum1 (conj Hsos1 (conj Heos1 Hpad1)) Hrest) as [Hres2 Hrows].
    split; [exact Hres2|].
    intros row [<-|Hin]; [|now apply Hrows].
    simpl. intros [Heq|Hin]; [discriminate|].
    apply in_app_or in Hin as [Hin|[Heq|[]]]; [now apply Hclean | discriminate].
Qed.

(** Every batch of targets the notebook trains on is right-padded: the
    corpus cell never puts the padding id (2) inside a target, so after
    [pad_sequence] it only fills the ends of the rows. *)
Lemma corpus_batches_right_padded input_sentences target_sentences c indices :
  build_corpus input_sentences target_sentences = Ok c ->
  Forall (fun i => i < length (target_data c)) indices ->
  dict_get (word_to_index c) PADDING_SEQUENCE = Some 2
  /\ right_padded 2 (batch_of (pad_rows (target_data c) 2) indices).
Proof.
  unfold build_corpus. intros Hrun Hidx.
  destruct (tokenize_inputs_spec input_sentences word_to_index0)
    as (inputs & d1 & Hin & Hkeep1 & Hnum1 & _).
  rewrite Hin in Hrun. simpl in Hrun.
  destruct (tokenize_targets target_sentences d1) as [[targets d2]|e] eqn:Hout;
    [|discriminate].
  simpl in Hrun. injection Hrun as <-. simpl in *.
  destruct (tokenize_targets_no_padding target_sentences d1 targets d2) as [Hres Hrows];
    [exact (Hnum1 numbered_baseline)
    | repeat split; apply Hkeep1; reflexivity
    | exact Hout |].
  split; [apply Hres|].
  apply batch_right_padded; [now apply pad_sequence_right_padded | exact Hidx].
Qed.

(** ** The vocabulary is a bijection onto its ids *)

Lemma invert_onto_origin d : forall acc i w,
  dict_get (invert_onto acc d) i = Some w -> In (w, i) d \/ dict_get acc i = Some w.
Proof.
  induction d as [|[w0 i0] d IH]; intros acc i w Hget; [now right|].
  rewrite invert_onto_cons in Hget.
  destruct (IH _ _ _ Hget) as [Hin|Hacc]; [left; now right|].
  destruct (decide (i0 = i)) as [->|Hne].
  - rewrite dict_get_set_eq in Hacc. injection Hacc as ->. left. now left.
  - rewrite dict_get_set_ne in Hacc by exact Hne. now right.
Qed.

Lemma In_dict_get {K V : Type} `{EqDecision K} (d : list (K * V)) k v :
  List.NoDup (map fst d) -> In (k, v) d -> dict_get d k = Some v.
Proof.
  induction d as [|[k0 v0] d IH]; intros Hnd Hin; [destruct Hin|].
  simpl in Hnd. apply List.NoDup_cons_iff in Hnd as [Hfresh Hnd]. simpl.
  destruct Hin as [[= -> ->]|Hin].
  - now rewrite decide_True.
  - rewrite decide_False; [now apply IH|].
    intros ->. apply Hfresh. now apply (in_map fst _ (k0, v)).
Qed.

Lemma numbered_id_below d w i : numbered d -> dict_get d w = Some i -> i < length d.
Proof.
  intros [Hids _] Hw. apply dict_get_In in Hw.
  apply (in_map snd) in Hw. rewrite Hids in Hw. apply in_seq in Hw. simpl in Hw. lia.
Qed.

Lemma numbered_has_word d i : numbered d -> i < length d -> exists w, dict_get d w = Some i.
Proof.
  intros [Hids Hkeys] Hi.
  assert (Hin : In i (map snd d)) by (rewrite Hids; apply in_seq; lia).
  apply in_map_iff in Hin as ([w i'] & Heq & Hin). simpl in Heq. subst i'.
  exists w. now apply In_dict_get.
Qed.

Lemma numbered_inverse d i w :
  numbered d -> dict_get (invert_vocab d) i = Some w -> dict_get d w = Some i.
Proof.
  intros [_ Hkeys] Hget. unfold invert_vocab in Hget. fold (invert_onto [] d) in Hget.
  apply invert_onto_origin in Hget as [Hin|Hnil]; [|discriminate].
  now apply In_dict_get.
Qed.

(** Any property of the vocabulary that learning a lower-case word keeps is
    kept by the tokenizer and by the corpus cell. *)
Section invariant.
Variable P : list (string * nat) -> Prop.
Hypothesis learn_keeps_P : forall w d, has_upper w = false -> P d -> P (learn w d).

Lemma tokenize_words_invariant words : forall tokens d tokens' d',
  List.Forall (fun w => has_upper w = false) words ->
  tokenize_words words tokens d = Ok (tokens', d') -> P d -> P d'.
Proof.
  induction words as [|word rest IH]; intros tokens d tokens' d' Hlow Hrun Hd.
  - simpl in Hrun. now injection Hrun as _ <-.
  - apply List.Forall_cons_iff in Hlow as [Hword Hrest].
    destruct (tokenize_words_step word rest tokens d) as (i & _ & Hstep).
    rewrite Hstep in Hrun. eapply IH; [exact Hrest | exact Hrun |].
    now apply learn_keeps_P.
Qed.

Lemma tokenize_invariant sentence d tokens d' :
  tokenize sentence d = Ok (tokens, d') -> P d -> P d'.
Proof.
  unfold tokenize. apply tokenize_words_invariant.
  apply List.Forall_forall. intros w. apply lowered_words_no_upper.
Qed.

Lemma tokenize_inputs_invariant sentences : forall d data d',
  tokenize_inputs sentences d = Ok (data, d') -> P d -> P d'.
Proof.
  induction sentences as [|s rest IH]; intros d data d' Hrun Hd; simpl in Hrun.
  - now injection Hrun as _ <-.
  - destruct (tokenize s d) as [[tokens d1]|e] eqn:Htok; [|discriminate]. simpl in Hrun.
    destruct (tokenize_inputs rest d1) as [[data1 d2]|e] eqn:Hrest; [|discriminate].
    simpl in Hrun. injection Hrun as _ <-.
    eapply IH; [exact Hrest|]. eapply tokenize_invariant; eauto.
Qed.

Lemma tokenize_targets_invariant sentences : forall d data d',
  tokenize_targets sentences d = Ok (data, d') -> P d -> P d'.
Proof.
  induction sentences as [|s rest IH]; intros d data d' Hrun Hd; simpl in Hrun.
  - now injection Hrun as _ <-.
  - destruct (dict_getitem d START_OF_SEQUENCE) as [sos|e]; [|discriminate]. simpl in Hrun.
    destruct (tokenize s d) as [[tokens d1]|e] eqn:Htok; [|discriminate]. simpl in Hrun.
    destruct (dict_getitem d1 END_OF_SEQUENCE) as [eos|e]; [|discriminate]. simpl in Hrun.
    destruct (tokenize_targets rest d1) as [[data1 d2]|e] eqn:Hrest; [|discriminate].
    simpl in Hrun. injection Hrun as _ <-.
    eapply IH; [exact Hrest|]. eapply tokenize_invariant; eauto.
Qed.

Lemma build_corpus_invariant input_sentences target_sentences c :
  build_corpus input_sentences target_sentences = Ok c ->
  P word_to_index0 -> P (word_to_index c).
Proof.
  unfold build_corpus. intros Hrun H0.
  destruct (tokenize_inputs input_sentences word_to_index0) as [[inputs d1]|e] eqn:Hin;
    [|discriminate].
  simpl in Hrun.
  destruct (tokenize_targets target_sentences d1) as [[targets d2]|e] eqn:Hout;
    [|discriminate].
  simpl in Hrun. injection Hrun as <-. simpl.
  eapply tokenize_targets_invariant; [exact Hout|].
  eapply tokenize_inputs_invariant; eauto.
Qed.

End invariant.

Lemma reserved_baseline : reserved word_to_index0.
Proof. repeat split. Qed.

Lemma learn_reserved w d : reserved d -> reserved (learn w d).
Proof. intros (Hsos & Heos & Hpad). repeat split; now apply learn_keeps. Qed.

Lemma build_corpus_returns input_sentences target_sentences :
  exists c, build_corpus input_sentences target_sentences = Ok c.
Proof.
  unfold build_corpus.
  destruct (tokenize_inputs_spec input_sentences word_to_index0)
    as (inputs & d1 & Hin & Hkeep1 & _).
  destruct (tokenize_targets_spec target_sentences d1) as (targets & d2 & Hout & _).
  { exists 0. now apply Hkeep1. }
  { exists 1. now apply Hkeep1. }
  rewrite Hin. simpl. rewrite Hout. simpl. eauto.
Qed.

(** The corpus cell returns, and leaves a numbered vocabulary that still
    holds the reserved tokens, with its reverse. *)
Lemma build_corpus_numbered input_sentences target_sentences :
  exists c,
    build_corpus input_sentences target_sentences = Ok c
    /\ numbered (word_to_index c)
    /\ reserved (word_to_index c)
    /\ index_to_word c = invert_vocab (word_to_index c).
Proof.
  destruct (build_corpus_returns input_sentences target_sentences) as (c & Hrun).
  exists c. split; [exact Hrun|].
  split; [|split].
  - apply (build_corpus_invariant numbered (fun w d _ => learn_numbered w d) _ _ _ Hrun).
    exact numbered_baseline.
  - apply (build_corpus_invariant reserved (fun w d _ => learn_reserved w d) _ _ _ Hrun).
    exact reserved_baseline.
  - revert Hrun. unfold build_corpus.
    destruct (tokenize_inputs _ _) as [[inputs d1]|e]; [|discriminate]. simpl.
    destruct (tokenize_targets _ _) as [[targets d2]|e]; [|discriminate]. simpl.
    now intros [= <-].
Qed.

(** X1. The vocabulary the corpus cell builds is a bijection between its
    words and the ids [0 .. len(word_to_index) - 1], and [index_to_word] is
    its inverse: an id that [index_to_word] maps to a word is the id of that
    word; the ids in use are exactly the numbers below the size of the
    vocabulary; and no two words share an id. *)
Theorem vocabulary_is_bijection (input_sentences target_sentences : list string) :
  exists c,
    build_corpus input_sentences target_sentences = Ok c
    /\ (forall i w, dict_get (index_to_word c) i = Some w ->
          dict_get (word_to_index c) w = Some i)
    /\ (forall i, i < length (word_to_index c)
                  <-> exists w, dict_get (word_to_index c) w = Some i)
    /\ (forall w w' i, dict_get (word_to_index c) w = Some i ->
          dict_get (word_to_index c) w' = Some i -> w = w').
Proof.
  destruct (build_corpus_numbered input_sentences target_sentences)
    as (c & Hrun & Hnum & _ & Hinv).
  exists c. split; [exact Hrun|]. split; [|split].
  - intros i w. rewrite Hinv. now apply numbered_inverse.
  - intros i. split.
    + now apply numbered_has_word.
    + intros [w Hw]. now apply (numbered_id_below _ w).
  - intros w w' i. now apply numbered_injective.
Qed.

(** ** The rows of the corpus *)

Lemma spelled_keep d d' sentence tokens :
  (forall w i, dict_get d w = Some i -> dict_get d' w = Some i) ->
  spelled d sentence tokens -> spelled d' sentence tokens.
Proof.
  intros Hkeep. unfold spelled.
  induction 1 as [|w i ws ts Hw _ IH]; constructor; auto.
Qed.

Lemma tokenize_inputs_rows sentences : forall d,
  exists data d',
    tokenize_inputs sentences d = Ok (data, d')
    /\ (forall w i, dict_get d w = Some i -> dict_get d' w = Some i)
    /\ Forall2 (spelled d') sentences data.
Proof.
  induction sentences as [|s rest IH]; intros d.
  - exists [], d. split; [reflexivity|]. split; [auto | constructor].
  - destruct (tokenize_spec s d) as (tokens & d1 & Hrun & Hkeep1 & _ & Hall).
    destruct (IH d1) as (data & d2 & Hrest & Hkeep2 & Hrows).
    exists (tokens :: data), d2. simpl. rewrite Hrun. simpl. rewrite Hrest. simpl.
    split; [reflexivity|]. split; [auto|].
    constructor; [|exact Hrows]. now apply (spelled_keep d1).
Qed.

Lemma tokenize_targets_rows sentences : forall d sos eos,
  dict_get d START_OF_SEQUENCE = Some sos ->
  dict_get d END_OF_SEQUENCE = Some eos ->
  exists data d',
    tokenize_targets sentences d = Ok (data, d')
    /\ (forall w i, dict_get d w = Some i -> dict_get d' w = Some i)
    /\ Forall2 (wrapped d' sos eos) sentences data.
Proof.
  induction sentences as [|s rest IH]; intros d sos eos Hsos Heos.
  - exists [], d. split; [reflexivity|]. split; [auto | constructor].
  - destruct (tokenize_spec s d) as (tokens & d1 & Hrun & Hkeep1 & _ & Hall).
    destruct (IH d1 sos eos) as (data & d2 & Hrest & Hkeep2 & Hrows); [auto | auto |].
    exists (([sos] ++ tokens ++ [eos]) :: data), d2. simpl.
    unfold dict_getitem at 1. rewrite Hsos. simpl. rewrite Hrun. simpl.
    unfold dict_getitem at 1. rewrite (Hkeep1 _ _ Heos). simpl. rewrite Hrest. simpl.
    split; [reflexivity|]. split; [auto|].
    constructor; [|exact Hrows]. exists tokens. split; [reflexivity|].
    now apply (spelled_keep d1).
Qed.

Lemma build_corpus_rows input_sentences target_sentences c :
  build_corpus input_sentences target_sentences = Ok c ->
  Forall2 (spelled (word_to_index c)) input_sentences (input_data c)
  /\ Forall2 (wrapped (word_to_index c) 0 1) target_sentences (target_data c).
Proof.
  unfold build_corpus. intros Hrun.
  destruct (tokenize_inputs_rows input_sentences word_to_index0)
    as (inputs & d1 & Hin & Hkeep1 & Hrows1).
  destruct (tokenize_targets_rows target_sentences d1 0 1)
    as (targets & d2 & Hout & Hkeep2 & Hrows2);
    [now apply Hkeep1 | now apply Hkeep1 |].
  rewrite Hin in Hrun. simpl in Hrun. rewrite Hout in Hrun. simpl in Hrun.
  injection Hrun as <-. simpl. split; [|exact Hrows2].
  clear -Hrows1 Hkeep2.
  induction Hrows1 as [|s row ss rows Hrow _ IH]; constructor; [|exact IH].
  now apply (spelled_keep d1).
Qed.

Lemma reserved_has_upper w : In w [START_OF_SEQUENCE; END_OF_SEQUENCE; PADDING_SEQUENCE] ->
  has_upper w = true.
Proof. intros [<-|[<-|[<-|[]]]]; reflexivity. Qed.

Lemma lower_word_id d w i :
  numbered d -> reserved d -> has_upper w = false -> dict_get d w = Some i -> word_id d i.
Proof.
  intros Hnum (Hsos & Heos & Hpad) Hlow Hw. split; [|now apply (numbered_id_below d w)].
  destruct i as [|[|[|i]]]; [| | |lia]; exfalso.
  - assert (w = START_OF_SEQUENCE) by (now apply (numbered_injective d _ _ 0)).
    subst w. discriminate.
  - assert (w = END_OF_SEQUENCE) by (now apply (numbered_injective d _ _ 1)).
    subst w. discriminate.
  - assert (w = PADDING_SEQUENCE) by (now apply (numbered_injective d _ _ 2)).
    subst w. discriminate.
Qed.

Lemma spelled_word_ids d sentence tokens :
  numbered d -> reserved d -> spelled d sentence tokens ->
  length tokens = length (split (lower sentence)) /\ List.Forall (word_id d) tokens.
Proof.
  intros Hnum Hres Hsp. unfold spelled in Hsp.
  assert (Hlow : List.Forall (fun w => has_upper w = false) (split (lower sentence))).
  { apply List.Forall_forall. intros w. apply lowered_words_no_upper. }
  induction Hsp as [|w i ws ts Hw _ IH]; [split; [reflexivity | constructor]|].
  apply List.Forall_cons_iff in Hlow as [Hword Hrest].
  destruct (IH Hrest) as [Hlen Hall]. split; [simpl; now rewrite Hlen|].
  constructor; [|exact Hall]. now apply (lower_word_id d w).
Qed.

(** X2. Every row of the corpus spells its sentence.  The corpus cell
    returns; row [k] of [input_data] has one token per word of the
    lower-cased input sentence [k], each token being the id that word has in
    the final vocabulary; row [k] of [target_data] is the start token 0, then
    the tokens of target sentence [k] in the same way, then the end token 1.
    There are as many rows as sentences. *)
Theorem corpus_rows_spell_sentences (input_sentences target_sentences : list string) :
  exists c,
    build_corpus input_sentences target_sentences = Ok c
    /\ length (input_data c) = length input_sentences
    /\ length (target_data c) = length target_sentences
    /\ Forall2 (spelled (word_to_index c)) input_sentences (input_data c)
    /\ Forall2 (fun sentence row =>
                  exists tokens, row = 0 :: tokens ++ [1]
                                 /\ spelled (word_to_index c) sentence tokens)
               target_sentences (target_data c).
Proof.
  destruct (build_corpus_returns input_sentences target_sentences) as (c & Hrun).
  destruct (build_corpus_rows _ _ _ Hrun) as [Hin Hout].
  exists c. split; [exact Hrun|].
  split; [symmetry; exact (Forall2_length _ _ _ Hin)|].
  split; [symmetry; exact (Forall2_length _ _ _ Hout)|].
  split; [exact Hin | exact Hout].
Qed.

(** The ranges of the tokens in the rows of a corpus. *)
Lemma build_corpus_ranges (input_sentences target_sentences : list string) (c : corpus) :
  build_corpus input_sentences target_sentences = Ok c ->
  3 <= length (word_to_index c)
  /\ (forall row, In row (input_data c) -> List.Forall (word_id (word_to_index c)) row)
  /\ (forall row, In row (target_data c) ->
        exists tokens, row = 0 :: tokens ++ [1]
                       /\ List.Forall (word_id (word_to_index c)) tokens).
Proof.
  intros Hrun.
  destruct (build_corpus_numbered input_sentences target_sentences)
    as (c' & Hrun' & Hnum & Hres & _).
  assert (c' = c) as -> by congruence.
  destruct (build_corpus_rows _ _ _ Hrun) as [Hin Hout].
  split; [|split].
  - destruct Hres as (_ & _ & Hpad). apply (numbered_id_below _ _ _ Hnum) in Hpad. lia.
  - clear -Hin Hnum Hres. induction Hin as [|s row ss rows Hrow _ IH]; [intros row []|].
    intros row' [<-|Hrow']; [|now apply IH].
    now destruct (spelled_word_ids _ _ _ Hnum Hres Hrow).
  - clear -Hout Hnum Hres. induction Hout as [|s row ss rows Hrow _ IH]; [intros row []|].
    intros row' [<-|Hrow']; [|now apply IH].
    destruct Hrow as (tokens & -> & Hsp). exists tokens. split; [reflexivity|].
    now destruct (spelled_word_ids _ _ _ Hnum Hres Hsp).
Qed.

(** X3. Every token of the corpus can be embedded, and the reserved ids
    only appear where the cell puts them.  In every input row, and in every
    target row between its first entry (0, the start token) and its last (1,
    the end token), each token is at least 3 and below
    [len(word_to_index)]: a model built with [len(word_to_index)] embeddings
    and classes never meets an id out of range, and neither the start, the
    end nor the padding id occurs inside a sentence. *)
Theorem corpus_tokens_in_range (input_sentences target_sentences : list string) :
  exists c,
    build_corpus input_sentences target_sentences = Ok c
    /\ 3 <= length (word_to_index c)
    /\ (forall row, In row (input_data c) -> List.Forall (word_id (word_to_index c)) row)
    /\ (forall row, In row (target_data c) ->
          exists tokens, row = 0 :: tokens ++ [1]
                         /\ List.Forall (word_id (word_to_index c)) tokens)
    /\ (forall row i, In row (input_data c) \/ In row (target_data c) ->
          In i row -> i < length (word_to_index c)).
Proof.
  destruct (build_corpus_returns input_sentences target_sentences) as (c & Hrun).
  destruct (build_corpus_ranges _ _ _ Hrun) as (Hsize & Hinputs & Htargets).
  exists c. split; [exact Hrun|]. split; [exact Hsize|].
  split; [exact Hinputs|]. split; [exact Htargets|].
  intros row i [Hrow|Hrow] Hi.
  - specialize (Hinputs row Hrow). rewrite List.Forall_forall in Hinputs.
    now destruct (Hinputs i Hi).
  - destruct (Htargets row Hrow) as (tokens & -> & Hall).
    rewrite List.Forall_forall in Hall.
    destruct Hi as [<-|Hi]; [lia|].
    apply in_app_or in Hi as [Hi|[<-|[]]]; [now destruct (Hall i Hi) | lia].
Qed.

(** ** Tokenizing known words *)

Lemma tokenize_words_known d words toks :
  Forall2 (fun w i => dict_get d w = Some i) words toks ->
  forall tokens, tokenize_words words tokens d = Ok (tokens ++ toks, d).
Proof.
  induction 1 as [|w i ws ts Hw _ IH]; intros tokens.
  - simpl. now rewrite app_nil_r.
  - simpl. unfold dict_in. rewrite Hw. unfold dict_getitem. rewrite Hw. simpl.
    rewrite IH, <- app_assoc. reflexivity.
Qed.

(** X4. Tokenizing is idempotent, and it leaves a vocabulary that knows
    every word of the sentence untouched.  After [tokenize(sentence, d)] has
    returned tokens and left the dictionary as [d'], tokenizing the same
    sentence again returns the same tokens and changes nothing; and if every
    word of the lower-cased sentence already had an id, the first call
    changed nothing either ([d' = d]). *)
Theorem tokenize_is_idempotent (sentence : string) (word_to_index : list (string * nat)) :
  exists tokens word_to_index',
    tokenize sentence word_to_index = Ok (tokens, word_to_index')
    /\ tokenize sentence word_to_index' = Ok (tokens, word_to_index')
    /\ ((forall w, In w (split (lower sentence)) -> dict_in w word_to_index = true) ->
        word_to_index' = word_to_index).
Proof.
  destruct (tokenize_grows_vocabulary_aux sentence word_to_index)
    as (tokens & d' & Hrun & _ & Hall).
  exists tokens, d'. split; [exact Hrun|]. split.
  - unfold tokenize. now rewrite (tokenize_words_known d' _ tokens Hall []).
  - intros Hknown.
    assert (Hsame : exists toks,
              Forall2 (fun w i => dict_get word_to_index w = Some i)
                      (split (lower sentence)) toks).
    { clear -Hknown. induction (split (lower sentence)) as [|w ws IH]; [now exists []|].
      destruct IH as [toks Htoks]; [intros w' Hw'; apply Hknown; now right|].
      specialize (Hknown w (or_introl eq_refl)). unfold dict_in in Hknown.
      destruct (dict_get word_to_index w) as [i|] eqn:Hw; [|discriminate].
      exists (i :: toks). now constructor. }
    destruct Hsame as [toks Htoks].
    unfold tokenize in Hrun.
    rewrite (tokenize_words_known word_to_index _ toks Htoks []) in Hrun.
    now injection Hrun as _ <-.
Qed.

(** ** Words the vocabulary does not hold *)

(** A comprehension raises what its first failing element raises. *)
Lemma list_comp_Raise {A B : Type} (f : A -> result B) (xs : list A) (err : error) x :
  (forall y e, In y xs -> f y = Raise e -> e = err) ->
  In x xs -> (exists e, f x = Raise e) ->
  list_comp f xs = Raise err.
Proof.
  induction xs as [|x0 xs IH]; intros Hall Hin Hx; [destruct Hin|]. simpl.
  destruct (f x0) as [y|e] eqn:Hx0.
  - simpl. rewrite IH; [reflexivity | | |exact Hx].
    + intros y' e Hy'. apply Hall. now right.
    + destruct Hin as [<-|Hin]; [|exact Hin]. destruct Hx as [e He]. congruence.
  - simpl. now rewrite (Hall x0 e (or_introl eq_refl) Hx0).
Qed.

Lemma dict_getitem_Raise {K V : Type} `{EqDecision K} (d : list (K * V)) k e :
  dict_getitem d k = Raise e -> e = KeyError.
Proof. unfold dict_getitem. destruct (dict_get d k); [discriminate | now intros [= <-]]. Qed.

Lemma list_comp_missing {K V : Type} `{EqDecision K} (d : list (K * V)) ks k :
  In k ks -> dict_get d k = None -> list_comp (dict_getitem d) ks = Raise KeyError.
Proof.
  intros Hin Hk. apply (list_comp_Raise _ _ _ k); [|exact Hin|].
  - intros y e _. apply dict_getitem_Raise.
  - exists KeyError. unfold dict_getitem. now rewrite Hk.
Qed.

Lemma missing_word_raises (encoder : encoder_call) (decoder : decoder_call)
    (word_to_index : list (string * nat)) (index_to_word : list (nat * string))
    (input_sentence : string) (max_target_length : nat) (with_attention_plot : bool)
    (g : oracle) (w : string) :
  In w (split input_sentence) ->
  dict_get word_to_index w = None ->
  Inference.test encoder decoder word_to_index index_to_word
                 input_sentence max_target_length with_attention_plot g = Raise KeyError
  /\ Inference.generate_predictions encoder decoder word_to_index index_to_word
                                    input_sentence max_target_length g = Raise KeyError.
Proof.
  intros Hin Hw.
  pose proof (list_comp_missing word_to_index _ w Hin Hw) as Htok.
  split.
  - unfold Inference.test. unfold bindM at 1, lift at 1. now rewrite Htok.
  - unfold Inference.generate_predictions. unfold bindM at 1, lift at 1. now rewrite Htok.
Qed.

(** X5. A word the vocabulary does not hold is a [KeyError].  When some
    word of the sentence, as [split()] cuts it and without any change of
    case, has no entry in [word_to_index], both [test] and
    [generate_predictions] raise [KeyError], whatever the encoder and the
    decoder are: the lookup fails before the model is called, and, unlike
    [tokenize], neither function adds the word.  The constructor of
    [BasicMathWordProblemDataset] raises the same error when such a sentence
    is among its input sentences. *)
Theorem unknown_word_raises_KeyError (encoder : encoder_call) (decoder : decoder_call)
    (word_to_index : list (string * nat)) (index_to_word : list (nat * string))
    (input_sentence : string) (max_target_length : nat) (with_attention_plot : bool)
    (g : oracle) (w : string) :
  In w (split input_sentence) ->
  dict_get word_to_index w = None ->
  Inference.test encoder decoder word_to_index index_to_word
                 input_sentence max_target_length with_attention_plot g = Raise KeyError
  /\ Inference.generate_predictions encoder decoder word_to_index index_to_word
                                    input_sentence max_target_length g = Raise KeyError
  /\ forall input_sentences target_sentences,
       In input_sentence input_sentences ->
       BasicMathWordProblemDataset.init input_sentences target_sentences word_to_index
       = Raise KeyError.
Proof.
  intros Hin Hw.
  destruct (missing_word_raises encoder decoder word_to_index index_to_word
              input_sentence max_target_length with_attention_plot g w Hin Hw)
    as [Htest Hgen].
  split; [exact Htest|]. split; [exact Hgen|].
  intros input_sentences target_sentences Hsentence.
  unfold BasicMathWordProblemDataset.init.
  rewrite (list_comp_Raise _ input_sentences KeyError input_sentence); [reflexivity | |
    exact Hsentence |].
  - intros s e _ Hs.
    destruct (list_comp (dict_getitem word_to_index) (split s)) as [ts|e'] eqn:Hrun;
      [discriminate|].
    injection Hs as <-.
    clear -Hrun. revert Hrun. induction (split s) as [|w ws IH]; simpl; [discriminate|].
    destruct (dict_getitem word_to_index w) as [i|e0] eqn:Hw; simpl.
    + destruct (list_comp (dict_getitem word_to_index) ws); simpl; [discriminate|].
      intros [= <-]. now apply IH.
    + intros [= <-]. now apply dict_getitem_Raise in Hw.
  - exists KeyError. now apply (list_comp_missing word_to_index _ w).
Qed.

Lemma unknown_word_raises_KeyError_witness :
  Inference.test sample_encoder sample_decoder sample_vocabulary
                 (invert_vocab sample_vocabulary) "two plus" 5 false oracle0
  = Raise KeyError
  /\ Inference.generate_predictions sample_encoder sample_decoder sample_vocabulary
       (invert_vocab sample_vocabulary) "two plus" 5 oracle0
     = Raise KeyError
  /\ BasicMathWordProblemDataset.init ["two"; "two plus"] ["two"] sample_vocabulary
     = Raise KeyError.
Proof.
  destruct (unknown_word_raises_KeyError sample_encoder sample_decoder sample_vocabulary
              (invert_vocab sample_vocabulary) "two plus" 5 false oracle0 "plus")
    as (Htest & Hgen & Hinit).
  - simpl. tauto.
  - reflexivity.
  - split; [exact Htest|]. split; [exact Hgen|]. apply Hinit. simpl. tauto.
Defined.

(** The words of the corpus vocabulary are the reserved tokens and
    lower-case words. *)
Lemma learn_lower_keys w d :
  has_upper w = false ->
  (forall w' i, dict_get d w' = Some i ->
     has_upper w' = false
     \/ In w' [START_OF_SEQUENCE; END_OF_SEQUENCE; PADDING_SEQUENCE]) ->
  forall w' i, dict_get (learn w d) w' = Some i ->
    has_upper w' = false
    \/ In w' [START_OF_SEQUENCE; END_OF_SEQUENCE; PADDING_SEQUENCE].
Proof.
  intros Hlow Hd w' i Hget.
  destruct (learn_cases w d) as [(j & _ & Heq)|(Hnone & Heq)]; rewrite Heq in Hget.
  - now apply (Hd w' i).
  - destruct (dict_get d w') as [i'|] eqn:Hw'.
    + now apply (Hd w' i').
    + rewrite dict_get_app_r in Hget by exact Hw'. simpl in Hget.
      destruct (decide (w' = w)) as [->|Hne]; [now left | discriminate].
Qed.

(** X6. [test] and [generate_predictions] do not lower-case their input,
    while the corpus vocabulary is built from lower-cased sentences.  So
    after the corpus cell, any sentence with a word that holds an upper-case
    letter (and is not one of the three reserved tokens) makes both
    functions raise [KeyError], whatever the model, even if the sentence is
    one of the training sentences as it was written. *)
Theorem capitals_raise_KeyError (input_sentences target_sentences : list string) :
  exists c,
    build_corpus input_sentences target_sentences = Ok c
    /\ forall (encoder : encoder_call) (decoder : decoder_call) (input_sentence : string)
              (max_target_length : nat) (with_attention_plot : bool) (g : oracle)
              (w : string),
         In w (split input_sentence) ->
         has_upper w = true ->
         ~ In w [START_OF_SEQUENCE; END_OF_SEQUENCE; PADDING_SEQUENCE] ->
         Inference.test encoder decoder (word_to_index c) (index_to_word c)
                        input_sentence max_target_length with_attention_plot g
         = Raise KeyError
         /\ Inference.generate_predictions encoder decoder (word_to_index c)
              (index_to_word c) input_sentence max_target_length g
            = Raise KeyError.
Proof.
  destruct (build_corpus_returns input_sentences target_sentences) as (c & Hrun).
  exists c. split; [exact Hrun|].
  intros encoder decoder input_sentence max_target_length with_attention_plot g w
         Hin Hupper Hfree.
  apply (missing_word_raises _ _ _ _ _ _ _ _ w Hin).
  destruct (dict_get (word_to_index c) w) as [i|] eqn:Hw; [exfalso|reflexivity].
  assert (Hkeys : forall w' i', dict_get (word_to_index c) w' = Some i' ->
            has_upper w' = false
            \/ In w' [START_OF_SEQUENCE; END_OF_SEQUENCE; PADDING_SEQUENCE]).
  { apply (build_corpus_invariant
             (fun d => forall w' i', dict_get d w' = Some i' ->
                has_upper w' = false
                \/ In w' [START_OF_SEQUENCE; END_OF_SEQUENCE; PADDING_SEQUENCE])
             learn_lower_keys _ _ _ Hrun).
    intros w' i' Hget. right. apply dict_get_In in Hget. apply (in_map fst) in Hget.
    exact Hget. }
  destruct (Hkeys w i Hw) as [Hlow|Hres]; [congruence | contradiction].
Qed.

(** ** The data set of the first half of the notebook *)

Lemma list_comp_Forall2 {A B : Type} (f : A -> result B) (xs : list A) : forall ys,
  list_comp f xs = Ok ys -> Forall2 (fun x y => f x = Ok y) xs ys.
Proof.
  induction xs as [|x xs IH]; intros ys Hrun; simpl in Hrun.
  - injection Hrun as <-. constructor.
  - destruct (f x) as [y|e] eqn:Hx; [|discriminate]. simpl in Hrun.
    destruct (list_comp f xs) as [ys'|e]; [|discriminate]. simpl in Hrun.
    injection Hrun as <-. constructor; [exact Hx | now apply IH].
Qed.

(** X7. [BasicMathWordProblemDataset] looks every word up as it is written
    and counts its input sentences only.  When the constructor returns,
    [__len__] is the number of input sentences.  For an index below it,
    [__getitem__] returns the ids of the words of that input sentence
    together with the ids of the words of the target sentence of the same
    index between the start and the end token, if there is such a target
    sentence; with fewer target sentences than input sentences it raises
    [IndexError] at every index from the number of target sentences on,
    although that index is below [__len__]. *)
Theorem basic_dataset_items (input_sentences target_sentences : list string)
    (word_to_index : list (string * nat)) (dataset : BasicMathWordProblemDataset.t) :
  BasicMathWordProblemDataset.init input_sentences target_sentences word_to_index
    = Ok dataset ->
  BasicMathWordProblemDataset.len dataset = length input_sentences
  /\ forall idx sentence,
       input_sentences !! idx = Some sentence ->
       match target_sentences !! idx with
       | Some target_sentence =>
           exists input tokens sos eos,
             BasicMathWordProblemDataset.getitem dataset idx
               = Ok (tensor_of_list 0 input, tensor_of_list 0 (sos :: tokens ++ [eos]))
             /\ Forall2 (fun w i => dict_get word_to_index w = Some i)
                        (split sentence) input
             /\ Forall2 (fun w i => dict_get word_to_index w = Some i)
                        (split target_sentence) tokens
             /\ dict_get word_to_index START_OF_SEQUENCE = Some sos
             /\ dict_get word_to_index END_OF_SEQUENCE = Some eos
       | None => BasicMathWordProblemDataset.getitem dataset idx = Raise IndexError
       end.
Proof.
  unfold BasicMathWordProblemDataset.init. intros Hinit.
  destruct (list_comp _ input_sentences) as [inputs|e] eqn:Hin; [|discriminate].
  simpl in Hinit.
  destruct (list_comp _ target_sentences) as [targets|e] eqn:Hout; [|discriminate].
  simpl in Hinit. injection Hinit as <-.
  apply list_comp_Forall2 in Hin, Hout.
  assert (Hget : forall ws ts, list_comp (dict_getitem word_to_index) ws = Ok ts ->
            Forall2 (fun w i => dict_get word_to_index w = Some i) ws ts).
  { intros ws ts Hrun. apply list_comp_Forall2 in Hrun.
    induction Hrun as [|w i ws' ts' Hw _ IH]; constructor; [|exact IH].
    unfold dict_getitem in Hw. destruct (dict_get word_to_index w); congruence. }
  split.
  - unfold BasicMathWordProblemDataset.len. simpl. symmetry. exact (Forall2_length _ _ _ Hin).
  - intros idx sentence Hsentence.
    destruct (Forall2_lookup_l _ _ _ _ _ Hin Hsentence) as (input & Hinput & Hrow).
    unfold BasicMathWordProblemDataset.getitem. simpl. rewrite Hinput.
    destruct (target_sentences !! idx) as [target_sentence|] eqn:Htarget.
    + destruct (Forall2_lookup_l _ _ _ _ _ Hout Htarget) as (target & Htgt & Htrow).
      rewrite Htgt.
      unfold dict_getitem at 1 in Htrow.
      destruct (dict_get word_to_index START_OF_SEQUENCE) as [sos|]; [|discriminate].
      simpl in Htrow.
      destruct (list_comp (dict_getitem word_to_index) (split target_sentence))
        as [tokens|e] eqn:Htokens; [|discriminate].
      simpl in Htrow. unfold dict_getitem at 1 in Htrow.
      destruct (dict_get word_to_index END_OF_SEQUENCE) as [eos|]; [|discriminate].
      simpl in Htrow. injection Htrow as <-.
      exists input, tokens, sos, eos. repeat split; auto.
    + assert (Hnone : targets !! idx = None).
      { apply lookup_ge_None. apply lookup_ge_None in Htarget.
        rewrite <- (Forall2_length _ _ _ Hout). exact Htarget. }
      now rewrite Hnone.
Qed.

Lemma basic_dataset_items_witness :
  exists dataset,
    BasicMathWordProblemDataset.init ["two two"; "two"] ["two"] sample_vocabulary
      = Ok dataset
    /\ BasicMathWordProblemDataset.len dataset = 2
    /\ BasicMathWordProblemDataset.getitem dataset 0
       = Ok (tensor_of_list 0 [3; 3], tensor_of_list 0 [0; 3; 1])
    /\ BasicMathWordProblemDataset.getitem dataset 1 = Raise IndexError.
Proof.
  eexists. split; [reflexivity|].
  destruct (basic_dataset_items ["two two"; "two"] ["two"] sample_vocabulary _ eq_refl)
    as [Hlen Hitems].
  split; [exact Hlen|]. split; [reflexivity|].
  exact (Hitems 1 "two" eq_refl).
Defined.

(** ** Bounds on activations and weights *)

Lemma tanh_bounds x : (-1 < tanh x < 1)%R.
Proof.
  unfold tanh, sinh, cosh.
  pose proof (exp_pos x) as Ha. pose proof (exp_pos (- x)) as Hb.
  set (a := exp x) in *. set (b := exp (- x)) in *.
  assert (Hc : (0 < (a + b) / 2)%R) by lra.
  split.
  - apply (Rmult_lt_reg_r ((a + b) / 2)); [exact Hc|].
    unfold Rdiv at 2. rewrite Rmult_assoc, Rinv_l by lra. lra.
  - apply (Rmult_lt_reg_r ((a + b) / 2)); [exact Hc|].
    unfold Rdiv at 1. rewrite Rmult_assoc, Rinv_l by lra. lra.
Qed.

Lemma sigmoid_bounds x : (0 < sigmoid x < 1)%R.
Proof.
  unfold sigmoid. pose proof (exp_pos (- x)) as He.
  split.
  - apply Rdiv_lt_0_compat; lra.
  - apply (Rmult_lt_reg_r (1 + exp (- x))); [lra|].
    unfold Rdiv. rewrite Rmult_assoc, Rinv_l by lra. lra.
Qed.

Lemma lstm_cell_bounded self x h c j : (-1 < fst (LSTM.cell self x h c) j < 1)%R.
Proof.
  unfold LSTM.cell. cbn [fst].
  match goal with
  | |- (_ < sigmoid ?o * tanh ?t < _)%R =>
      pose proof (sigmoid_bounds o); pose proof (tanh_bounds t)
  end.
  nra.
Qed.

Lemma lstm_states_bounded self x h0 c0 s j :
  (-1 < fst (LSTM.states self x h0 c0 (S s)) j < 1)%R.
Proof. cbn [LSTM.states]. apply lstm_cell_bounded. Qed.

(** What a normal return of the LSTM holds: every output entry and every
    entry of the final hidden state lies strictly between -1 and 1, and the
    final hidden state is the output of the last time step. *)
Lemma lstm_forward_bounded self input hx g output hidden cell g' :
  LSTM.forward self input hx g = Ok (output, (hidden, cell), g') ->
  g' = g
  /\ dim1 input <> 0
  /\ shape3 output = (dim0 input, dim1 input, LSTM.hidden_size self)
  /\ shape3 hidden = (1, dim0 input, LSTM.hidden_size self)
  /\ shape3 cell = (1, dim0 input, LSTM.hidden_size self)
  /\ (forall b s j, (-1 < at3 output b s j < 1)%R)
  /\ (forall k b j, (-1 < at3 hidden k b j < 1)%R)
  /\ (forall k b j, at3 hidden k b j = at3 output b (dim1 input - 1) j).
Proof.
  unfold LSTM.forward, lift. destruct (decide _) as [(Hlen & _)|]; [|discriminate].
  intros [= <- <- <- <-]. split; [reflexivity|]. split; [exact Hlen|].
  split; [reflexivity|]. split; [reflexivity|]. split; [reflexivity|].
  assert (Hs : dim1 input = S (dim1 input - 1)) by lia.
  split; [|split].
  - intros b s j. cbn [at3]. apply lstm_states_bounded.
  - intros k b j. cbn [at3]. rewrite Hs. apply lstm_states_bounded.
  - intros k b j. cbn [at3]. rewrite Hs at 1. reflexivity.
Qed.

(** X9. Whenever [Encoder.forward] returns, it has drawn no randomness, its
    outputs hold one vector of [hidden_size] entries per example and per
    position of the input, every entry of the outputs and of the final
    hidden state lies strictly between -1 and 1, and the final hidden state
    of each example is the output at its last position, padding included:
    the encoder does not know where a padded sentence ends. *)
Theorem encoder_outputs_bounded (self : Encoder.t) (input_seq : tensor2 nat) (g : oracle)
    (outputs hidden cell : tensor3 R) (g' : oracle) :
  Encoder.forward self input_seq g = Ok (outputs, (hidden, cell), g') ->
  g' = g
  /\ cols input_seq <> 0
  /\ shape3 outputs
     = (rows input_seq, cols input_seq, LSTM.hidden_size (Encoder.lstm self))
  /\ shape3 hidden = (1, rows input_seq, LSTM.hidden_size (Encoder.lstm self))
  /\ shape3 cell = (1, rows input_seq, LSTM.hidden_size (Encoder.lstm self))
  /\ (forall b s j, b < rows input_seq -> s < cols input_seq ->
        j < LSTM.hidden_size (Encoder.lstm self) ->
        (-1 < at3 outputs b s j < 1)%R)
  /\ (forall b j, b < rows input_seq -> j < LSTM.hidden_size (Encoder.lstm self) ->
        (-1 < at3 hidden 0 b j < 1)%R
        /\ at3 hidden 0 b j = at3 outputs b (cols input_seq - 1) j).
Proof.
  unfold Encoder.forward. unfold bindM at 1.
  destruct (Embedding.forward _ input_seq g) as [[embedded g1]|e] eqn:Hemb; [|discriminate].
  unfold bindM at 1.
  destruct (LSTM.forward _ embedded None g1) as [[[out [h c]] g2]|e] eqn:Hlstm;
    [|discriminate].
  unfold ret. intros [= <- <- <- <-].
  unfold Embedding.forward, lift in Hemb.
  destruct (all_upto _ _); [|discriminate]. injection Hemb as <- <-.
  destruct (lstm_forward_bounded _ _ _ _ _ _ _ _ Hlstm)
    as (-> & Hlen & Ho & Hh & Hc & Hout & Hhid & Hlast).
  cbn [dim0 dim1] in *.
  split; [reflexivity|]. split; [exact Hlen|].
  split; [exact Ho|]. split; [exact Hh|]. split; [exact Hc|].
  split; [intros b s j _ _ _; apply Hout|].
  intros b j _ _. split; [apply Hhid | apply Hlast].
Qed.

Lemma encoder_outputs_bounded_witness :
  exists outputs hidden cell,
    Encoder.forward tiny_encoder (unsqueeze0_1 (tensor_of_list 0 [3; 2])) oracle0
      = Ok (outputs, (hidden, cell), oracle0)
    /\ shape3 outputs = (1, 2, 1)
    /\ (-1 < at3 outputs 0 1 0 < 1)%R
    /\ at3 hidden 0 0 0 = at3 outputs 0 1 0.
Proof.
  destruct (encoder_forward_Ok tiny_encoder (unsqueeze0_1 (tensor_of_list 0 [3; 2])) oracle0)
    as (outputs & hidden & cell & Hrun & _).
  - reflexivity.
  - simpl. lia.
  - intros i j _ Hj. simpl in *. destruct j as [|[|j]]; simpl; lia.
  - exists outputs, hidden, cell. split; [exact Hrun|].
    destruct (encoder_outputs_bounded _ _ _ _ _ _ _ Hrun)
      as (_ & _ & Hshape & _ & _ & Hout & Hhid).
    split; [exact Hshape|].
    split; [apply Hout; simpl; lia|].
    apply Hhid; simpl; lia.
Defined.

Lemma Rsum_ge_term n (f : nat -> R) y :
  (forall i, i < n -> (0 <= f i)%R) -> y < n -> (f y <= Rsum n f)%R.
Proof.
  induction n as [|n IH]; intros Hf Hy; [lia|]. simpl.
  assert (0 <= Rsum n f)%R by (apply Rsum_nonneg; intros i Hi; apply Hf; lia).
  assert (0 <= f n)%R by (apply Hf; lia).
  destruct (decide (y = n)) as [->|Hne]; [lra|].
  assert (f y <= Rsum n f)%R by (apply IH; [intros i Hi; apply Hf; lia | lia]). lra.
Qed.

Lemma Rsum_gt_term n (f : nat -> R) y :
  (forall i, i < n -> (0 < f i)%R) -> 2 <= n -> y < n -> (f y < Rsum n f)%R.
Proof.
  intros Hf Hn Hy. destruct n as [|n]; [lia|]. simpl.
  assert (Hpos : (0 < f n)%R) by (apply Hf; lia).
  destruct (decide (y = n)) as [->|Hne].
  - destruct n as [|n]; [lia|]. simpl.
    assert (0 <= Rsum n f)%R by (apply Rsum_nonneg; intros i Hi; left; apply Hf; lia).
    assert (0 < f n)%R by (apply Hf; lia). lra.
  - assert (f y <= Rsum n f)%R
      by (apply Rsum_ge_term; [intros i Hi; left; apply Hf; lia | lia]).
    lra.
Qed.

Lemma softmax_positive x b t :
  t < cols x ->
  (0 < at2 (softmax_dim1 x) b t <= 1)%R
  /\ (2 <= cols x -> (at2 (softmax_dim1 x) b t < 1)%R).
Proof.
  intros Ht. simpl.
  assert (Hsum : (0 < Rsum (cols x) (fun k => exp (at2 x b k)))%R)
    by (apply Rsum_exp_pos; lia).
  assert (Hle : (exp (at2 x b t) <= Rsum (cols x) (fun k => exp (at2 x b k)))%R).
  { apply (Rsum_ge_term _ (fun k => exp (at2 x b k))); [|exact Ht].
    intros i _. left. apply exp_pos. }
  split; [split|].
  - apply Rdiv_lt_0_compat; [apply exp_pos | exact Hsum].
  - apply (Rmult_le_reg_r (Rsum (cols x) (fun k => exp (at2 x b k)))); [exact Hsum|].
    unfold Rdiv. rewrite Rmult_assoc, Rinv_l by lra. lra.
  - intros Hn.
    assert (Hlt : (exp (at2 x b t) < Rsum (cols x) (fun k => exp (at2 x b k)))%R).
    { apply (Rsum_gt_term _ (fun k => exp (at2 x b k))); [|exact Hn|exact Ht].
      intros i _. apply exp_pos. }
    apply (Rmult_lt_reg_r (Rsum (cols x) (fun k => exp (at2 x b k)))); [exact Hsum|].
    unfold Rdiv. rewrite Rmult_assoc, Rinv_l by lra. lra.
Qed.

Lemma Rsum_abs_le n (f h : nat -> R) :
  (forall i, i < n -> (Rabs (f i) <= h i)%R) -> (Rabs (Rsum n f) <= Rsum n h)%R.
Proof.
  induction n as [|n IH]; intros Hf; simpl.
  - rewrite Rabs_R0. lra.
  - pose proof (Rabs_triang (Rsum n f) (f n)).
    assert (Rabs (Rsum n f) <= Rsum n h)%R by (apply IH; intros i Hi; apply Hf; lia).
    assert (Rabs (f n) <= h n)%R by (apply Hf; lia). lra.
Qed.

Lemma Rsum_le_const n (f : nat -> R) bound :
  (forall i, i < n -> (f i <= bound)%R) -> (Rsum n f <= INR n * bound)%R.
Proof.
  induction n as [|n IH]; intros Hf.
  - simpl. lra.
  - rewrite S_INR. simpl.
    assert (Rsum n f <= INR n * bound)%R by (apply IH; intros i Hi; apply Hf; lia).
    assert (f n <= bound)%R by (apply Hf; lia). lra.
Qed.

Lemma Rabs_between x y : (Rabs x <= y)%R -> (- y <= x <= y)%R.
Proof. unfold Rabs. destruct (Rcase_abs x); lra. Qed.

Lemma exp_le x y : (x <= y)%R -> (exp x <= exp y)%R.
Proof. intros [Hlt| ->]; [left; now apply exp_increasing | right; reflexivity]. Qed.

(** The scores the attention hands to the softmax are sums of entries of
    [v] times a hyperbolic tangent each, so they are bounded by the sum of
    the magnitudes of the entries of [v]. *)
Lemma attention_scores_bounded self hidden encoder_outputs g :
  attention_shapes self hidden encoder_outputs ->
  exists scores,
    Attention.forward self hidden encoder_outputs g = Ok (softmax_dim1 scores, g)
    /\ rows scores = dim0 encoder_outputs
    /\ cols scores = dim1 encoder_outputs
    /\ forall b t,
         (Rabs (at2 scores b t)
          <= Rsum (len1 (Attention.v self)) (fun k => Rabs (at1 (Attention.v self) k)))%R.
Proof.
  intros (Hb & Hin & Hv).
  unfold Attention.forward, bindM, lift, ret, cat_dim2.
  rewrite decide_True by (simpl; lia). simpl.
  unfold Linear.forward3, lift. rewrite decide_True by (simpl; lia).
  unfold bmm. rewrite decide_True by (simpl; lia).
  unfold squeeze1. rewrite decide_True by reflexivity.
  eexists. split; [reflexivity|]. simpl.
  split; [lia|]. split; [lia|].
  intros b t. rewrite Nat.mul_1_r. apply Rsum_abs_le. intros k Hk.
  rewrite Nat.mod_small by exact Hk. rewrite Rabs_mult.
  match goal with
  | |- (_ * Rabs (tanh ?x) <= _)%R => pose proof (tanh_bounds x) as Htanh
  end.
  assert (Hone : (Rabs (tanh
            (Linear.apply (Attention.attn self)
               (fun k0 : nat =>
                  if (k0 <? cols hidden * 1)%nat
                  then at2 hidden (b mod rows hidden) (k0 mod cols hidden)
                  else at3 encoder_outputs b t (k0 - cols hidden * 1)) k)) <= 1)%R).
  { apply Rabs_le. lra. }
  pose proof (Rabs_pos (at1 (Attention.v self) k)). nra.
Qed.

(** A softmax over scores of magnitude at most [bound] gives every position
    at least [exp (-2 bound)] over the number of positions. *)
Lemma softmax_lower_bound x b t bound :
  t < cols x ->
  (forall k, k < cols x -> (Rabs (at2 x b k) <= bound)%R) ->
  (exp (- 2 * bound) / INR (cols x) <= at2 (softmax_dim1 x) b t)%R.
Proof.
  intros Ht Hbound. simpl.
  assert (Hsum : (0 < Rsum (cols x) (fun k => exp (at2 x b k)))%R)
    by (apply Rsum_exp_pos; lia).
  assert (Hn : (0 < INR (cols x))%R) by (apply lt_0_INR; lia).
  assert (Hupper : (Rsum (cols x) (fun k => exp (at2 x b k))
                    <= INR (cols x) * exp bound)%R).
  { apply Rsum_le_const. intros k Hk. apply exp_le.
    pose proof (Hbound k Hk) as Hk'. apply Rabs_between in Hk'. lra. }
  assert (Hlower : (exp (- bound) <= exp (at2 x b t))%R).
  { apply exp_le. pose proof (Hbound t Ht) as Hk'. apply Rabs_between in Hk'. lra. }
  assert (Hsquare : exp (- 2 * bound) = (exp (- bound) * exp (- bound))%R)
    by (rewrite <- exp_plus; f_equal; lra).
  assert (Hunit : (exp (- bound) * exp bound)%R = 1%R)
    by (rewrite <- exp_plus, <- exp_0; f_equal; lra).
  pose proof (exp_pos (- bound)) as He. pose proof (exp_pos bound) as HE.
  rewrite Hsquare.
  set (e := exp (- bound)) in *. set (E := exp bound) in *.
  set (total := Rsum (cols x) (fun k => exp (at2 x b k))) in *.
  set (a := exp (at2 x b t)) in *. set (n := INR (cols x)) in *.
  apply (Rmult_le_reg_r total); [exact Hsum|].
  unfold Rdiv at 2. rewrite Rmult_assoc, Rinv_l, Rmult_1_r by lra.
  assert (Hpos : (0 <= e * e / n)%R).
  { apply Rmult_le_pos; [nra | left; now apply Rinv_0_lt_compat]. }
  assert (H1 : (e * e / n * total <= e * e / n * (n * E))%R)
    by (now apply Rmult_le_compat_l).
  assert (H2 : (e * e / n * (n * E))%R = (e * (e * E))%R) by (field; lra).
  rewrite H2, Hunit in H1. lra.
Qed.

(** X10. Attention masks nothing.  Tensor entries are real numbers here,
    and this is a fact of exact arithmetic.  With shapes that fit,
    [Attention.forward] returns without drawing randomness, and every
    weight it returns is at most 1 and at least
    [exp (-2 * (|v_0| + ... + |v_(n-1)|)) / seq_len], whatever the hidden
    state and the encoder outputs are: every score is a sum of entries of
    [v] times a hyperbolic tangent each.  The bound is a positive number, so
    no position of the input, padded positions included, is left out of the
    context.  (In floating point a weight this small can round to zero; the
    bound says how large the entries of [v] must be for that.) *)
Theorem attention_weights_bounded_below (self : Attention.t) (hidden : tensor2 R)
    (encoder_outputs : tensor3 R) (g : oracle) :
  attention_shapes self hidden encoder_outputs ->
  exists w,
    Attention.forward self hidden encoder_outputs g = Ok (w, g)
    /\ forall b t, b < dim0 encoder_outputs -> t < dim1 encoder_outputs ->
         (exp (- 2 * Rsum (len1 (Attention.v self))
                         (fun k => Rabs (at1 (Attention.v self) k)))
            / INR (dim1 encoder_outputs)
          <= at2 w b t <= 1)%R.
Proof.
  intros Hshape.
  destruct (attention_scores_bounded self hidden encoder_outputs g Hshape)
    as (scores & Hrun & Hrows & Hcols & Hbound).
  exists (softmax_dim1 scores). split; [exact Hrun|].
  intros b t _ Ht. rewrite <- Hcols in *. split.
  - apply softmax_lower_bound; [exact Ht | intros k _; apply Hbound].
  - now destruct (softmax_positive scores b t Ht) as [[_ Hle] _].
Qed.

Lemma attention_weights_bounded_below_witness :
  exists w,
    Attention.forward tiny_attention tiny_hidden (tiny_encoder_outputs 3) oracle0
      = Ok (w, oracle0)
    /\ (0 < at2 w 0 2 <= 1)%R.
Proof.
  destruct (attention_weights_bounded_below tiny_attention tiny_hidden
              (tiny_encoder_outputs 3) oracle0) as (w & Hrun & Hw).
  - repeat split; reflexivity.
  - exists w. split; [exact Hrun|].
    destruct (Hw 0 2) as [Hlow Hle]; [simpl; lia | simpl; lia |].
    split; [|exact Hle].
    eapply Rlt_le_trans; [|exact Hlow].
    apply Rdiv_lt_0_compat; [apply exp_pos | simpl; lra].
Defined.

(** With fitting shapes the decoder's forward pass returns, its attention
    weights are a softmax over the encoder time steps, and its new hidden
    state is bounded. *)
Lemma decoder_forward_softmax self input hidden cell encoder_outputs g :
  decoder_fits self (dim2 encoder_outputs) ->
  (forall b, b < len1 input ->
     at1 input b < Embedding.num_embeddings (Decoder.embedding self)) ->
  shape3 hidden = (1, len1 input, LSTM.hidden_size (Decoder.lstm self)) ->
  shape3 cell = (1, len1 input, LSTM.hidden_size (Decoder.lstm self)) ->
  dim0 encoder_outputs = len1 input ->
  exists output hidden' cell' scores,
    Decoder.forward self input hidden cell encoder_outputs g
      = Ok (output, hidden', cell', softmax_dim1 scores, g)
    /\ rows output = len1 input
    /\ cols output = Linear.out_features (Decoder.fc self)
    /\ shape3 hidden' = (1, len1 input, LSTM.hidden_size (Decoder.lstm self))
    /\ shape3 cell' = (1, len1 input, LSTM.hidden_size (Decoder.lstm self))
    /\ rows scores = len1 input
    /\ cols scores = dim1 encoder_outputs
    /\ (forall k b j, (-1 < at3 hidden' k b j < 1)%R).
Proof.
  intros (Hemb & Hattn & Hv & Hfc) Hin Hh Hc Hbatch. unfold Decoder.forward.
  destruct (embedding_forward_Ok (Decoder.embedding self) (unsqueeze1_1 input) g)
    as (embedded & Hrun1 & [= Hb Hs Hd]); [intros i j Hi _; now apply Hin|].
  rewrite (bindM_Ok _ _ _ _ _ Hrun1). simpl in Hb, Hs.
  destruct (lstm_forward_Ok (Decoder.lstm self) embedded (Some (hidden, cell)) g)
    as (lstm_output & hidden' & cell' & Hrun2 & [= Ho0 Ho1 Ho2] & Hh' & Hc');
    [lia | congruence | rewrite Hb; now split |].
  rewrite (bindM_Ok _ _ _ _ _ Hrun2).
  destruct (lstm_forward_bounded _ _ _ _ _ _ _ _ Hrun2) as (_ & _ & _ & _ & _ & _ & Hbound & _).
  injection Hh' as Hh0 Hh1 Hh2. injection Hc' as Hc0 Hc1 Hc2.
  assert (Htop : last_dim0 hidden'
                 = Ok {| rows := dim1 hidden'; cols := dim2 hidden';
                         at2 := fun i j => at3 hidden' (dim0 hidden' - 1) i j |}).
  { unfold last_dim0. rewrite decide_False by lia. reflexivity. }
  unfold bindM at 1, lift at 1. rewrite Htop.
  match goal with
  | |- context [Attention.forward ?a ?top _] =>
      destruct (attention_forward_softmax a top encoder_outputs g)
        as (scores & Hrun3 & Hrows & Hcols)
  end.
  { repeat split; simpl; [lia | lia | exact Hv]. }
  rewrite (bindM_Ok _ _ _ _ _ Hrun3).
  unfold bindM at 1, lift at 1, bmm.
  rewrite decide_True by (simpl; lia).
  unfold bindM at 1, lift at 1, squeeze1 at 1. rewrite decide_True by lia.
  unfold bindM at 1, lift at 1, squeeze1 at 1. rewrite decide_True by reflexivity.
  unfold bindM at 1, lift at 1, cat_dim1. rewrite decide_True by (simpl; lia).
  unfold bindM at 1, Linear.forward2, lift. rewrite decide_True by (simpl; lia).
  unfold ret. eexists _, _, _, _. split; [reflexivity|]. simpl.
  unfold shape3. rewrite Hh0, Hh1, Hh2, Hc0, Hc1, Hc2, Hb.
  split; [lia|]. split; [lia|]. split; [reflexivity|]. split; [reflexivity|].
  split; [lia|]. split; [lia|]. exact Hbound.
Qed.

(** X11. One decoding step with fitting shapes.  For a batch of tokens the
    decoder can embed, a recurrent state of the decoder's size and encoder
    outputs of at least one time step for the same batch, [Decoder.forward]
    returns without drawing randomness: logits with one row per example and
    one column per class of its output layer, a recurrent state of the same
    shape as before whose hidden entries lie between -1 and 1, ends
    included, and attention weights with one row per example and one column
    per encoder time step, each weight between 0 and 1, ends included.
    Tensor entries are real numbers here, so each row of weights sums to
    exactly 1. *)
Theorem decoder_step_shapes (self : Decoder.t) (input : tensor1 nat)
    (hidden cell encoder_outputs : tensor3 R) (g : oracle) :
  decoder_fits self (dim2 encoder_outputs) ->
  (forall b, b < len1 input ->
     at1 input b < Embedding.num_embeddings (Decoder.embedding self)) ->
  shape3 hidden = (1, len1 input, LSTM.hidden_size (Decoder.lstm self)) ->
  shape3 cell = (1, len1 input, LSTM.hidden_size (Decoder.lstm self)) ->
  dim0 encoder_outputs = len1 input ->
  1 <= dim1 encoder_outputs ->
  exists output hidden' cell' weights,
    Decoder.forward self input hidden cell encoder_outputs g
      = Ok (output, hidden', cell', weights, g)
    /\ (rows output, cols output) = (len1 input, Linear.out_features (Decoder.fc self))
    /\ shape3 hidden' = shape3 hidden
    /\ shape3 cell' = shape3 cell
    /\ (rows weights, cols weights) = (len1 input, dim1 encoder_outputs)
    /\ (forall b j, b < len1 input -> j < LSTM.hidden_size (Decoder.lstm self) ->
          (-1 <= at3 hidden' 0 b j <= 1)%R)
    /\ (forall b, b < len1 input ->
          (forall t, t < dim1 encoder_outputs -> (0 <= at2 weights b t <= 1)%R)
          /\ Rsum (cols weights) (at2 weights b) = 1%R).
Proof.
  intros Hfit Hin Hh Hc Hbatch Hlen.
  destruct (decoder_forward_softmax self input hidden cell encoder_outputs g
              Hfit Hin Hh Hc Hbatch)
    as (output & hidden' & cell' & scores & Hrun & Hrows & Hcols & Hh' & Hc'
        & Hsrows & Hscols & Hbound).
  exists output, hidden', cell', (softmax_dim1 scores).
  split; [exact Hrun|]. split; [now rewrite Hrows, Hcols|].
  split; [congruence|]. split; [congruence|].
  destruct (softmax_shape scores) as [Hr Hcs].
  split; [now rewrite Hr, Hcs, Hsrows, Hscols|].
  split; [intros b j _ _; pose proof (Hbound 0 b j); lra|].
  intros b _. split.
  - intros t Ht. rewrite <- Hscols in Ht.
    destruct (softmax_positive scores b t Ht) as [[Hpos Hle] _]. lra.
  - apply softmax_row_sum. lia.
Qed.

Lemma decoder_step_shapes_witness :
  exists output hidden' cell' weights,
    Decoder.forward tiny_decoder (tensor_of_list 0 [0; 3]) (LSTM.zeros 1 2 1)
      (LSTM.zeros 1 2 1) (LSTM.zeros 2 3 1) oracle0
      = Ok (output, hidden', cell', weights, oracle0)
    /\ (rows output, cols output) = (2, 4)
    /\ (rows weights, cols weights) = (2, 3)
    /\ Rsum 3 (at2 weights 1) = 1%R.
Proof.
  destruct (decoder_step_shapes tiny_decoder (tensor_of_list 0 [0; 3]) (LSTM.zeros 1 2 1)
              (LSTM.zeros 1 2 1) (LSTM.zeros 2 3 1) oracle0)
    as (output & hidden' & cell' & weights & Hrun & Hout & _ & _ & Hw & _ & Hdist).
  - repeat split; reflexivity.
  - intros b Hb. simpl in *. destruct b as [|[|b]]; simpl; lia.
  - reflexivity.
  - reflexivity.
  - reflexivity.
  - simpl. lia.
  - exists output, hidden', cell', weights. split; [exact Hrun|].
    split; [exact Hout|]. split; [exact Hw|].
    destruct (Hdist 1) as [_ Hsum]; [simpl; lia|].
    injection Hw as _ Hcols. simpl in Hcols. now rewrite Hcols in Hsum.
Defined.

(** ** The training loss is never negative *)

Lemma Rdiv_INR_nonneg (x : R) (n : nat) : (0 <= x)%R -> (0 <= x / INR n)%R.
Proof.
  intros Hx. unfold Rdiv. apply Rmult_le_pos; [exact Hx|].
  destruct n as [|n]; [simpl; rewrite Rinv_0; lra|].
  left. apply Rinv_0_lt_compat, lt_0_INR. lia.
Qed.

Lemma nll_nonneg input b y : y < cols input -> (0 <= CrossEntropyLoss.nll input b y)%R.
Proof.
  intros Hy. unfold CrossEntropyLoss.nll.
  assert (Hle : (exp (at2 input b y) <= Rsum (cols input) (fun j => exp (at2 input b j)))%R).
  { apply (Rsum_ge_term _ (fun j => exp (at2 input b j))); [|exact Hy].
    intros i _. left. apply exp_pos. }
  pose proof (exp_pos (at2 input b y)) as Hpos.
  destruct Hle as [Hlt|Heq].
  - apply ln_increasing in Hlt; [|exact Hpos]. rewrite ln_exp in Hlt. lra.
  - rewrite <- Heq, ln_exp. lra.
Qed.

Lemma criterion_nonneg criterion output target c :
  CrossEntropyLoss.forward criterion output target = Ok c -> (0 <= c)%R.
Proof.
  unfold CrossEntropyLoss.forward. destruct (decide _); [|discriminate].
  destruct (all_upto _ _) eqn:Hall; [|discriminate]. intros [= <-].
  apply Rdiv_INR_nonneg, Rsum_nonneg. intros b Hb.
  destruct (CrossEntropyLoss.counted criterion target b) eqn:Hcounted; [|lra].
  apply nll_nonneg.
  rewrite all_upto_true in Hall. specialize (Hall b Hb). cbv beta in Hall.
  rewrite Hcounted in Hall. simpl in Hall. now apply Nat.ltb_lt.
Qed.

Lemma masked_term_nonneg c still_active :
  (0 <= c)%R -> (0 <= Training.masked_term c still_active)%R.
Proof.
  intros Hc. unfold Training.masked_term. apply Rdiv_INR_nonneg, Rsum_nonneg.
  intros b _. cbv beta. destruct (at1 still_active b); cbv iota; lra.
Qed.

Lemma sum_list_nonneg (xs : list R) : List.Forall (fun x => (0 <= x)%R) xs -> (0 <= sum_list xs)%R.
Proof. unfold sum_list. induction 1 as [|x xs Hx _ IH]; simpl; lra. Qed.

(** X12. The loss [train] accumulates over a batch is never negative.  On a
    batch whose padding only follows the tokens, with the criterion
    ignoring the padding id, every batch [train] gets through ends with a
    loss that is at least 0; each of the per-step masked means it sums is at
    least 0 as well, since a cross-entropy against a class among the logits
    is. *)
Theorem training_loss_nonneg (encoder : encoder_call) (decoder : decoder_call)
    (criterion : CrossEntropyLoss.t) (word_to_index : list (string * nat))
    (input_seq target_seq : tensor2 nat) (g : oracle) (pad : nat)
    (st : Training.state) (g' : oracle) :
  dict_get word_to_index PADDING_SEQUENCE = Some pad ->
  CrossEntropyLoss.ignore_index criterion = pad ->
  right_padded pad target_seq ->
  Training.train_batch encoder decoder criterion word_to_index input_seq target_seq g
    = Ok (st, g') ->
  (0 <= Training.loss st)%R
  /\ List.Forall (fun x => (0 <= x)%R)
       (zip_with (masked_mean target_seq (Training.lengths target_seq pad))
          (seq 0 (max_upto (rows target_seq) (at1 (Training.lengths target_seq pad))))
          (Training.outputs st)).
Proof.
  intros Hpad Hignore Hpadded Hrun.
  destruct (masked_loss encoder decoder criterion word_to_index input_seq target_seq
              g st g' pad Hrun Hpad Hignore Hpadded) as (_ & Hloss & _).
  destruct (train_batch_inv _ _ _ _ _ _ _ _ _ Hrun)
    as (encoder_outputs & hidden & cell & g1 & sos & pad' & _ & _ & Hpad' & _ & Hloop).
  assert (pad' = pad) as -> by congruence.
  set (n := max_upto (rows target_seq) (at1 (Training.lengths target_seq pad))) in *.
  destruct (timestep_loop_trace decoder criterion encoder_outputs target_seq pad
              _ _ _ _ _ (seq_below n) Hloop)
    as (outs & Houts & _ & _ & Hall & _).
  simpl in Houts.
  assert (Hterms : List.Forall (fun x => (0 <= x)%R)
            (zip_with (masked_mean target_seq (Training.lengths target_seq pad))
                      (seq 0 n) (Training.outputs st))).
  { rewrite Houts. pose proof (seq_below n) as Hts. clear Hloss Hloop Houts.
    induction Hall as [|t output ts os [c Hc] _ IH]; [constructor|].
    apply Forall_cons in Hts as [Ht Hts]. simpl. constructor; [|now apply IH].
    rewrite <- (criterion_is_masked_mean criterion target_seq pad Hignore Hpadded
                  t output c Ht Hc).
    now apply (criterion_nonneg criterion output (column target_seq t)). }
  split; [|exact Hterms].
  rewrite Hloss. now apply sum_list_nonneg.
Qed.

Lemma training_loss_nonneg_witness :
  exists st g',
    Training.train_batch (Encoder.forward tiny_encoder) (Decoder.forward tiny_decoder)
      sample_criterion sample_vocabulary sample_input_seq sample_target_seq oracle0
    = Ok (st, g')
    /\ (0 <= Training.loss st)%R.
Proof.
  destruct (train_batch_returns (Encoder.forward tiny_encoder) (Decoder.forward tiny_decoder)
              sample_criterion sample_vocabulary sample_input_seq sample_target_seq
              oracle0 0 2) as (st & g' & Hrun);
    [reflexivity | reflexivity | simpl; lia | exact sample_model_trains |].
  exists st, g'. split; [exact Hrun|].
  now destruct (training_loss_nonneg (Encoder.forward tiny_encoder)
                  (Decoder.forward tiny_decoder) sample_criterion sample_vocabulary
                  sample_input_seq sample_target_seq oracle0 2 st g' eq_refl eq_refl
                  sample_target_right_padded Hrun).
Defined.

(** ** [test] and [generate_predictions] decode alike *)

Lemma list_comp_getitem_Raise {K V : Type} `{EqDecision K} (d : list (K * V)) ks e :
  list_comp (dict_getitem d) ks = Raise e -> e = KeyError.
Proof.
  induction ks as [|k ks IH]; simpl; [discriminate|].
  destruct (dict_getitem d k) as [v|e0] eqn:Hk; simpl.
  - destruct (list_comp (dict_getitem d) ks); simpl; [discriminate|].
    intros [= <-]. now apply IH.
  - intros [= <-]. now apply dict_getitem_Raise in Hk.
Qed.

Lemma vstack_Raise ms e : vstack ms = Raise e -> e = ValueError.
Proof.
  unfold vstack. destruct ms as [|m ms]; [now intros [= <-]|].
  destruct (forallb _ _); [discriminate | now intros [= <-]].
Qed.

Section agreement.
Variable encoder : encoder_call.
Variable decoder : decoder_call.
Variable word_to_index : list (string * nat).
Variable index_to_word : list (nat * string).

(** The two loops make the same decoder calls and keep the same tokens. *)
Lemma loops_agree encoder_outputs n : forall st st2 g,
  Inference.output_sequence st2 = Inference.output_sequence st ->
  Inference.decoder_input st2 = Inference.decoder_input st ->
  Inference.decoder_hidden st2 = Inference.decoder_hidden st ->
  Inference.decoder_cell st2 = Inference.decoder_cell st ->
  match Inference.test_loop decoder word_to_index encoder_outputs n st g with
  | Ok (st', g') =>
      exists st2',
        Inference.generate_loop decoder word_to_index encoder_outputs n st2 g
          = Ok (st2', g')
        /\ Inference.output_sequence st2' = Inference.output_sequence st'
  | Raise e =>
      Inference.generate_loop decoder word_to_index encoder_outputs n st2 g = Raise e
  end.
Proof.
  induction n as [|n IH]; intros st st2 g Hout Hin Hh Hc.
  - simpl. unfold ret. now exists st2.
  - rewrite test_loop_S, generate_loop_S. rewrite Hin, Hh, Hc.
    destruct (decoder _ _ _ _ g) as [[[[[output hidden] cell] weights] g1]|e];
      [|reflexivity].
    destruct (argmax_item output) as [token|e]; [|reflexivity].
    destruct (dict_getitem word_to_index END_OF_SEQUENCE) as [eos|e]; [|reflexivity].
    destruct (decide (token = eos)) as [->|Hne].
    + eexists. split; [reflexivity|]. exact Hout.
    + apply IH; simpl; congruence.
Qed.

(** Either both functions fail before decoding, with the same error, or
    both reach their decoding loop from the same state. *)
Lemma inference_cases input_sentence max_target_length with_attention_plot g :
  (exists e,
     Inference.test encoder decoder word_to_index index_to_word
                    input_sentence max_target_length with_attention_plot g = Raise e
     /\ Inference.generate_predictions encoder decoder word_to_index index_to_word
                                       input_sentence max_target_length g = Raise e)
  \/ (exists input_tokens encoder_outputs hidden cell g1 sos,
        list_comp (dict_getitem word_to_index) (split input_sentence) = Ok input_tokens
        /\ encoder (unsqueeze0_1 (tensor_of_list 0 input_tokens)) g
           = Ok (encoder_outputs, (hidden, cell), g1)
        /\ dict_get word_to_index START_OF_SEQUENCE = Some sos).
Proof.
  destruct (list_comp (dict_getitem word_to_index) (split input_sentence))
    as [input_tokens|e] eqn:Htok.
  2: { left. exists e. unfold Inference.test, Inference.generate_predictions. split.
       - unfold bindM at 1, lift at 1. now rewrite Htok.
       - unfold bindM at 1, lift at 1. now rewrite Htok. }
  destruct (encoder (unsqueeze0_1 (tensor_of_list 0 input_tokens)) g)
    as [[[encoder_outputs [hidden cell]] g1]|e] eqn:Henc.
  2: { left. exists e. unfold Inference.test, Inference.generate_predictions. split.
       - unfold bindM at 1, lift at 1. rewrite Htok. unfold bindM at 1. now rewrite Henc.
       - unfold bindM at 1, lift at 1. rewrite Htok. unfold bindM at 1. now rewrite Henc. }
  destruct (dict_get word_to_index START_OF_SEQUENCE) as [sos|] eqn:Hsos.
  2: { left. exists KeyError. unfold Inference.test, Inference.generate_predictions. split.
       - unfold bindM at 1, lift at 1. rewrite Htok. unfold bindM at 1. rewrite Henc.
         unfold bindM at 1, lift at 1, dict_getitem at 1. now rewrite Hsos.
       - unfold bindM at 1, lift at 1. rewrite Htok. unfold bindM at 1. rewrite Henc.
         unfold bindM at 1, lift at 1, dict_getitem at 1. now rewrite Hsos. }
  right. now exists input_tokens, encoder_outputs, hidden, cell, g1, sos.
Qed.

(** X13. [test] and [generate_predictions] decode alike.  On the same
    sentence, with the same model, vocabulary and length bound, and from the
    same state of the random generator: whenever [test] returns a list of
    words, [generate_predictions] returns the same list; whenever
    [generate_predictions] raises, [test] raises the same error; and when
    [generate_predictions] returns a list of words, [test] either returns
    the same list or raises [KeyError] (an input token without a word) or
    [ValueError] (no attention row to stack, or rows of different
    lengths). *)
Theorem test_agrees_with_generate_predictions (input_sentence : string)
    (max_target_length : nat) (with_attention_plot : bool) (g : oracle) :
  (forall words g',
     Inference.test encoder decoder word_to_index index_to_word
                    input_sentence max_target_length with_attention_plot g
       = Ok (words, g') ->
     Inference.generate_predictions encoder decoder word_to_index index_to_word
                                    input_sentence max_target_length g
       = Ok (words, g'))
  /\ (forall e,
        Inference.generate_predictions encoder decoder word_to_index index_to_word
                                       input_sentence max_target_length g
          = Raise e ->
        Inference.test encoder decoder word_to_index index_to_word
                       input_sentence max_target_length with_attention_plot g
          = Raise e)
  /\ (forall words g',
        Inference.generate_predictions encoder decoder word_to_index index_to_word
                                       input_sentence max_target_length g
          = Ok (words, g') ->
        let result :=
          Inference.test encoder decoder word_to_index index_to_word
                         input_sentence max_target_length with_attention_plot g in
        result = Ok (words, g') \/ result = Raise KeyError \/ result = Raise ValueError).
Proof.
  destruct (inference_cases input_sentence max_target_length with_attention_plot g)
    as [(e & Htest & Hgen)|(input_tokens & encoder_outputs & hidden & cell & g1 & sos
                            & Htok & Henc & Hsos)].
  { rewrite Htest, Hgen. split; [discriminate|]. split; [trivial | discriminate]. }
  rewrite (test_eq encoder decoder word_to_index index_to_word _ _ _ _ _ _ _ _ _ _
             Htok Henc Hsos).
  rewrite (generate_predictions_eq encoder decoder word_to_index index_to_word
             _ _ _ _ _ _ _ _ _ Htok Henc Hsos).
  pose proof (loops_agree encoder_outputs max_target_length (initial sos hidden cell)
                (initial sos hidden cell) g1 eq_refl eq_refl eq_refl eq_refl) as Hloops.
  destruct (Inference.test_loop decoder word_to_index encoder_outputs max_target_length
              (initial sos hidden cell) g1) as [[st g2]|e0].
  2: { rewrite Hloops. split; [discriminate|]. split; [trivial | discriminate]. }
  destruct Hloops as (st2 & -> & Hout). unfold lift. rewrite Hout.
  destruct (list_comp (dict_getitem index_to_word) input_tokens) as [ws0|e1] eqn:Hin.
  - destruct (list_comp (dict_getitem index_to_word) (Inference.output_sequence st))
      as [ws|e2] eqn:Hws.
    + destruct (vstack (Inference.attention_matrices st)) as [stacked|e3] eqn:Hstack.
      * split; [trivial|]. split; [discriminate|]. intros words g' Heq. now left.
      * apply vstack_Raise in Hstack as ->.
        split; [discriminate|]. split; [discriminate|]. intros words g' _. right. now right.
    + split; [discriminate|]. split; [trivial|]. discriminate.
  - apply list_comp_getitem_Raise in Hin as ->.
    split; [discriminate|]. split.
    + intros e He. destruct (list_comp _ (Inference.output_sequence st)) as [ws|e2] eqn:Hws;
        [discriminate|].
      apply list_comp_getitem_Raise in Hws as ->. exact He.
    + intros words g' _. right. now left.
Qed.

End agreement.

(** ** [objective] decodes over the padding *)

Lemma le_max_upto n f i : i < n -> f i <= max_upto n f.
Proof.
  induction n as [|n IH]; intros Hi; [lia|]. simpl.
  destruct (decide (i = n)) as [->|Hne]; [lia|].
  assert (f i <= max_upto n f) by (apply IH; lia). lia.
Qed.

Lemma count_upto_none n p : (forall i, i < n -> p i = false) -> count_upto n p = 0.
Proof.
  induction n as [|n IH]; intros Hp; [reflexivity|]. simpl.
  rewrite IH by (intros i Hi; apply Hp; lia). now rewrite (Hp n) by lia.
Qed.

Section objective_facts.
Variable encoder : encoder_call.
Variable decoder : decoder_call.
Variable criterion : CrossEntropyLoss.t.
Variable word_to_index : list (string * nat).

Abbreviation objective_loop := (Objective.timestep_loop decoder criterion).

Lemma objective_loop_cons encoder_outputs target_seq t rest st g :
  t < cols target_seq ->
  objective_loop encoder_outputs target_seq (t :: rest) st g
  = match decoder (Objective.decoder_input st) (Objective.decoder_hidden st)
                  (Objective.decoder_cell st) encoder_outputs g with
    | Raise e => Raise e
    | Ok (output, hidden, cell, weights, g1) =>
        match CrossEntropyLoss.forward criterion output (column target_seq t) with
        | Raise e => Raise e
        | Ok c =>
            objective_loop encoder_outputs target_seq rest
              (objective_after_step target_seq st t output hidden cell c) g1
        end
    end.
Proof.
  intros Ht. cbn [Objective.timestep_loop]. unfold bindM at 1.
  destruct (decoder _ _ _ _ g) as [[[[[output hidden] cell] weights] g1]|e]; [|reflexivity].
  assert (Hcol : select_col target_seq t = Ok (column target_seq t)).
  { unfold select_col. now rewrite decide_True. }
  unfold bindM at 1, lift at 1. rewrite Hcol.
  unfold bindM at 1, lift at 1.
  destruct (CrossEntropyLoss.forward criterion output (column target_seq t)) as [c|e];
    [|reflexivity].
  reflexivity.
Qed.

(** What the loop over the columns [ts] leaves behind: one decoder call and
    one call of the criterion per column. *)
Lemma objective_loop_trace encoder_outputs target_seq ts : forall st g st' g',
  Forall (fun t => t < cols target_seq) ts ->
  objective_loop encoder_outputs target_seq ts st g = Ok (st', g') ->
  exists outs,
    Objective.outputs st' = Objective.outputs st ++ outs
    /\ length outs = length ts
    /\ Objective.fed st' ++ [Objective.decoder_input st']
       = Objective.fed st ++ [Objective.decoder_input st] ++ map (column target_seq) ts
    /\ Forall2 (fun t output =>
                  exists c, CrossEntropyLoss.forward criterion output (column target_seq t)
                            = Ok c) ts outs.
Proof.
  induction ts as [|t rest IH]; intros st g st' g' Hts Hrun.
  - injection Hrun as <- <-. exists []. rewrite !app_nil_r. simpl. repeat split; auto.
  - apply Forall_cons in Hts as [Ht Hrest].
    rewrite objective_loop_cons in Hrun by exact Ht.
    destruct (decoder _ _ _ _ g) as [[[[[output hidden] cell] weights] g1]|e];
      [|discriminate].
    destruct (CrossEntropyLoss.forward criterion output (column target_seq t))
      as [c|e] eqn:Hc; [|discriminate].
    destruct (IH _ _ _ _ Hrest Hrun) as (outs & Houts & Hlen & Hfed & Hall).
    exists (output :: outs). simpl in *.
    split; [now rewrite Houts, <- app_assoc|].
    split; [now rewrite Hlen|].
    split; [now rewrite Hfed, <- !app_assoc|].
    constructor; eauto.
Qed.

Lemma objective_loop_returns target_seq fit encoder_outputs :
  decoder_trains decoder criterion target_seq fit encoder_outputs ->
  forall ts st g,
    Forall (fun t => t < cols target_seq) ts ->
    fit (Objective.decoder_input st) (Objective.decoder_hidden st)
        (Objective.decoder_cell st) ->
    exists st' g', objective_loop encoder_outputs target_seq ts st g = Ok (st', g').
Proof.
  intros Hdec. induction ts as [|t rest IH]; intros st g Hts Hfit.
  - now exists st, g.
  - apply Forall_cons in Hts as [Ht Hrest].
    rewrite objective_loop_cons by exact Ht.
    destruct (Hdec _ _ _ g Hfit) as (output & hidden & cell & weights & g1 & -> & Hnext).
    destruct (Hnext t Ht) as [[c ->] Hfit'].
    apply IH; [exact Hrest | exact Hfit'].
Qed.

(** [objective] gets through every batch on which the model answers. *)
Lemma objective_batch_returns input_seq target_seq g sos :
  dict_get word_to_index START_OF_SEQUENCE = Some sos ->
  model_trains encoder decoder criterion input_seq target_seq sos ->
  exists st g',
    Objective.batch encoder decoder criterion word_to_index input_seq target_seq g
      = Ok (st, g').
Proof.
  intros Hsos (fit & Henc & Hdec).
  destruct (Henc g) as (encoder_outputs & hidden & cell & g1 & Hrun & Hfit).
  unfold Objective.batch.
  rewrite (bindM_Ok _ _ _ _ _ Hrun).
  unfold bindM at 1, lift at 1, dict_getitem at 1. rewrite Hsos.
  apply (objective_loop_returns target_seq (fit encoder_outputs) encoder_outputs
           (Hdec encoder_outputs)).
  - apply seq_below.
  - exact Hfit.
Qed.

(** X14. [objective] decodes over the padding.  Unlike [train], the loop of
    [objective] runs over all [target_seq.size(1)] columns of the batch and
    applies the criterion to each of them unmasked.  In every batch it gets
    through, the decoder is called once per column (teacher-forced: the
    start token, then the columns in order) and the criterion once per
    column.  On a right-padded batch with the criterion ignoring the padding
    id, every column at or after the length of the batch's longest target
    holds nothing but padding, so there the criterion averages over no row
    at all, and the decoder is fed a column of padding tokens at the next
    step. *)
Theorem objective_decodes_padding (input_seq target_seq : tensor2 nat) (g : oracle)
    (pad : nat) (st : Objective.state) (g' : oracle) :
  CrossEntropyLoss.ignore_index criterion = pad ->
  right_padded pad target_seq ->
  Objective.batch encoder decoder criterion word_to_index input_seq target_seq g
    = Ok (st, g') ->
  (exists sos,
     dict_get word_to_index START_OF_SEQUENCE = Some sos
     /\ Objective.fed st ++ [Objective.decoder_input st]
        = tensor_of_list 0 (repeat sos (rows input_seq))
          :: map (column target_seq) (seq 0 (cols target_seq)))
  /\ length (Objective.fed st) = cols target_seq
  /\ Forall2 (fun t output =>
                exists c, CrossEntropyLoss.forward criterion output (column target_seq t)
                          = Ok c)
             (seq 0 (cols target_seq)) (Objective.outputs st)
  /\ forall t,
       max_upto (rows target_seq) (at1 (Training.lengths target_seq pad)) <= t ->
       t < cols target_seq ->
       (forall b, b < rows target_seq -> at2 target_seq b t = pad)
       /\ count_upto (rows target_seq)
                     (CrossEntropyLoss.counted criterion (column target_seq t)) = 0.
Proof.
  intros Hignore Hpadded. unfold Objective.batch. unfold bindM at 1.
  destruct (encoder input_seq g) as [[[encoder_outputs [hidden cell]] g1]|e];
    [|discriminate].
  unfold bindM at 1, lift at 1, dict_getitem at 1.
  destruct (dict_get word_to_index START_OF_SEQUENCE) as [sos|]; [|discriminate].
  intros Hloop.
  destruct (objective_loop_trace encoder_outputs target_seq _ _ _ _ _
              (seq_below (cols target_seq)) Hloop)
    as (outs & Houts & Hlen & Hfed & Hall).
  simpl in Houts, Hfed. rewrite Houts.
  split; [exists sos; split; [reflexivity | exact Hfed]|].
  split.
  { apply (f_equal (@length _)) in Hfed.
    rewrite length_app in Hfed. simpl in Hfed. rewrite length_map, length_seq in Hfed. lia. }
  split; [exact Hall|].
  intros t Hlong Ht.
  assert (Hpad : forall b, b < rows target_seq -> at2 target_seq b t = pad).
  { intros b Hb. apply Nat.eqb_eq. rewrite Hpadded by assumption.
    apply negb_true_iff, Nat.ltb_ge.
    pose proof (le_max_upto (rows target_seq) (at1 (Training.lengths target_seq pad)) b Hb).
    lia. }
  split; [exact Hpad|].
  apply count_upto_none. intros b Hb. unfold CrossEntropyLoss.counted. cbn [column at1].
  rewrite Hignore, (Hpad b Hb). now rewrite Nat.eqb_refl.
Qed.

End objective_facts.

Lemma sample_padded_target_right_padded : right_padded 2 sample_padded_target_seq.
Proof.
  intros b j Hb Hj. simpl in Hb, Hj.
  destruct b as [|[|b]]; [| |lia]; destruct j as [|[|[|j]]]; try lia; reflexivity.
Qed.

Lemma objective_decodes_padding_witness :
  exists st g',
    Objective.batch (Encoder.forward tiny_encoder) (Decoder.forward tiny_decoder)
      sample_criterion sample_vocabulary sample_input_seq sample_padded_target_seq oracle0
    = Ok (st, g')
    /\ length (Objective.fed st) = 3
    /\ count_upto 2 (CrossEntropyLoss.counted sample_criterion
                       (column sample_padded_target_seq 2)) = 0.
Proof.
  destruct (objective_batch_returns (Encoder.forward tiny_encoder)
              (Decoder.forward tiny_decoder) sample_criterion sample_vocabulary
              sample_input_seq sample_padded_target_seq oracle0 0 eq_refl)
    as (st & g' & Hrun).
  { apply fitting_model_trains.
    - exact tiny_model_fits.
    - reflexivity.
    - simpl. lia.
    - intros i j Hi Hj. simpl in *.
      destruct i as [|[|i]]; [| |lia]; destruct j as [|j]; try lia; simpl; lia.
    - simpl. lia.
    - intros b t Hb Ht. simpl in *.
      destruct b as [|[|b]]; [| |lia]; destruct t as [|[|[|t]]]; try lia; simpl; lia. }
  exists st, g'. split; [exact Hrun|].
  destruct (objective_decodes_padding (Encoder.forward tiny_encoder)
              (Decoder.forward tiny_decoder) sample_criterion sample_vocabulary
              sample_input_seq sample_padded_target_seq oracle0 2 st g' eq_refl
              sample_padded_target_right_padded Hrun)
    as (_ & Hlen & _ & Hpad).
  split; [exact Hlen|].
  destruct (Hpad 2) as [_ Hcount]; [simpl; lia | simpl; lia | exact Hcount].
Defined.

(** ** The problems the generator makes *)

Lemma length_flat_map_const {A B : Type} (f : A -> list B) (k : nat) (xs : list A) :
  (forall x, length (f x) = k) -> length (flat_map f xs) = length xs * k.
Proof.
  intros Hf. induction xs as [|x xs IH]; [reflexivity|].
  simpl. rewrite length_app, Hf, IH. lia.
Qed.

Lemma In_operands z : (1 <= z <= 100)%Z -> In z operands.
Proof.
  intros Hz. unfold operands. apply in_map_iff. exists (Z.to_nat z).
  split; [lia|]. apply in_seq. lia.
Qed.

Section generator_rows_facts.
Variable float : Type.
Variable truediv : Z -> Z -> float.
Variable round : float -> Z -> float.
Variable num2words_int : Z -> string.
Variable num2words_float : float -> string.

Abbreviation generator_ := (SimpleMathProblemsGenerator.t float).
Abbreviation standard_ :=
  (SimpleMathProblemsGenerator.standard_operations float truediv round).
Abbreviation attempt_once_ :=
  (SimpleMathProblemsGenerator.attempt_once float num2words_int num2words_float).
Abbreviation generate_problem_ :=
  (SimpleMathProblemsGenerator.generate_problem float num2words_int num2words_float).
Abbreviation generate_rows_ :=
  (SimpleMathProblemsGenerator.generate_rows float num2words_int num2words_float).
Abbreviation generate_dataset_ :=
  (SimpleMathProblemsGenerator.generate_dataset float num2words_int num2words_float).
Abbreviation row_of_ := (row_of float num2words_int num2words_float).
Abbreviation all_rows_ := (all_rows float truediv round num2words_int num2words_float).
Abbreviation within_ := (within float truediv round num2words_int num2words_float).

Lemma attempt_once_within (self : generator_) g a g' :
  SimpleMathProblemsGenerator.operations self = standard_ ->
  attempt_once_ self g = Ok (a, g') ->
  within_ (SimpleMathProblemsGenerator.question a, SimpleMathProblemsGenerator.answer a).
Proof.
  intros Hops. unfold SimpleMathProblemsGenerator.attempt_once.
  destruct (randint_spec 1 100 g) as (n1 & Hn1 & Hr1); [lia|].
  unfold bindM at 1. rewrite Hn1.
  destruct (randint_spec 1 100 (snd (draw g))) as (n2 & Hn2 & Hr2); [lia|].
  unfold bindM at 1. rewrite Hn2.
  destruct (choice_spec standard_ (snd (draw (snd (draw g))))) as ([op func] & Hop & Hin);
    [discriminate|].
  unfold bindM at 1. rewrite Hops, Hop.
  assert (Hkeep : (if decide (op = "divided by" /\ n2 = 0%Z)
                   then randint 1 100 else ret n2) = ret n2).
  { rewrite decide_False; [reflexivity | lia]. }
  rewrite Hkeep. unfold bindM at 1, ret at 1.
  intros Hrun. exists n1, n2, (op, func).
  split; [exact Hr1|]. split; [exact Hr2|]. split; [exact Hin|].
  unfold row_of, spell. cbn [fst snd].
  simpl in Hin.
  destruct Hin as [[= <- <-]|[[= <- <-]|[[= <- <-]|[[= <- <-]|[]]]]];
    try (injection Hrun as <- _; reflexivity).
  rewrite decide_True in Hrun |- * by lia.
  injection Hrun as <- _. reflexivity.
Qed.

Lemma generate_problem_within fuel : forall (self : generator_) g row self' g',
  SimpleMathProblemsGenerator.operations self = standard_ ->
  generate_problem_ fuel self g = Some (Ok (row, self', g')) ->
  within_ row.
Proof.
  induction fuel as [|fuel IH]; intros self g row self' g' Hops Hrun; simpl in Hrun;
    [discriminate|].
  destruct (attempt_once_ self g) as [[a g1]|e] eqn:Hattempt; [|discriminate].
  destruct (decide _) as [Hnew|Hold].
  - injection Hrun as <- _ _. now apply (attempt_once_within self g a g1).
  - now apply (IH self g1 row self' g').
Qed.

Lemma generate_rows_within fuel n : forall (self : generator_) g data self' g',
  SimpleMathProblemsGenerator.operations self = standard_ ->
  generate_rows_ fuel n self g = Some (Ok (data, self', g')) ->
  List.Forall within_ data.
Proof.
  induction n as [|n IH]; intros self g data self' g' Hops Hrun; simpl in Hrun.
  - injection Hrun as <- _ _. constructor.
  - destruct (generate_problem_ fuel self g) as [[[[row self1] g1]|e]|] eqn:Hgen;
      [|discriminate|discriminate].
    destruct (generate_rows_ fuel n self1 g1) as [[[[d self2] g2]|e]|] eqn:Hrest;
      [|discriminate|discriminate].
    injection Hrun as <- _ _.
    destruct (generate_problem_sound float truediv round num2words_int num2words_float
                fuel self g Hops) as [_ Hrow].
    destruct (Hrow row self1 g1 Hgen) as (_ & _ & _ & Hops1 & _).
    constructor.
    + now apply (generate_problem_within fuel self g row self1 g1).
    + now apply (IH self1 g1 d self2 g2).
Qed.

Lemma within_all_rows row : within_ row -> In row all_rows_.
Proof.
  intros (num1 & num2 & operation & H1 & H2 & Hop & ->).
  unfold all_rows. apply in_flat_map. exists num1. split; [now apply In_operands|].
  apply in_flat_map. exists num2. split; [now apply In_operands|].
  now apply in_map.
Qed.

Lemma length_all_rows : length all_rows_ = 4 * 100 * 100.
Proof.
  unfold all_rows.
  rewrite (length_flat_map_const _ (100 * 4)).
  - unfold operands. rewrite length_map, length_seq. reflexivity.
  - intros num1. rewrite (length_flat_map_const _ 4).
    + unfold operands. now rewrite length_map, length_seq.
    + intros num2. now rewrite length_map.
Qed.

(** X15. Every answer is the result of its question.  Every problem
    [generate_problem] returns, from a generator as its constructor sets it
    up, is made of two integers [num1] and [num2] of 1..100 and one of the
    four operations: the question spells [num1], the operation and [num2];
    the answer spells [num1 + num2] for "plus", [num1 - num2] for "minus",
    [num1 * num2] for "times", and [num1 / num2] rounded to two places for
    "divided by".  Hyphens are replaced by blanks in both, and commas are
    dropped from the answer. *)
Theorem answers_are_computed (fuel : nat) (self : generator_) (g : oracle)
    (row : string * string) (self' : generator_) (g' : oracle) :
  SimpleMathProblemsGenerator.operations self = standard_ ->
  generate_problem_ fuel self g = Some (Ok (row, self', g')) ->
  exists num1 num2,
    (1 <= num1 <= 100)%Z /\ (1 <= num2 <= 100)%Z
    /\ let question operation :=
         replace "-" " "
           (num2words_int num1 ++ " " ++ operation ++ " " ++ num2words_int num2)%string in
       let spell_int z := replace "," EmptyString (replace "-" " " (num2words_int z)) in
       let spell_float f := replace "," EmptyString (replace "-" " " (num2words_float f)) in
       row = (question "plus", spell_int (num1 + num2)%Z)
       \/ row = (question "minus", spell_int (num1 - num2)%Z)
       \/ row = (question "times", spell_int (num1 * num2)%Z)
       \/ row = (question "divided by", spell_float (round (truediv num1 num2) 2)).
Proof.
  intros Hops Hrun.
  destruct (generate_problem_within fuel self g row self' g' Hops Hrun)
    as (num1 & num2 & operation & H1 & H2 & Hop & ->).
  exists num1, num2. split; [exact H1|]. split; [exact H2|].
  simpl in Hop. unfold row_of, spell.
  destruct Hop as [<-|[<-|[<-|[<-|[]]]]]; cbn [fst snd].
  - now left.
  - right. now left.
  - right. right. now left.
  - right. right. right. rewrite decide_True by lia. reflexivity.
Qed.

(** X16. The generator can make at most 40000 different problems, and asking
    for more never ends.  A data set that [generate_dataset] returns has at
    most [4 * 100 * 100] rows, each of them one of the problems over the
    operands 1..100 and the four operations.  So with [num_samples] above
    that number [generate_dataset] neither returns nor raises: however many
    passes through the loop of [generate_problem] are allowed, some call of
    it is still looking for an unseen problem. *)
Theorem generate_dataset_exhausts (fuel : nat) (self : generator_) (g : oracle) :
  SimpleMathProblemsGenerator.operations self = standard_ ->
  (forall data self' g',
     generate_dataset_ fuel self g = Some (Ok (data, self', g')) ->
     SimpleMathProblemsGenerator.num_samples self <= 4 * 100 * 100
     /\ forall row, In row data -> In row all_rows_)
  /\ (4 * 100 * 100 < SimpleMathProblemsGenerator.num_samples self ->
      generate_dataset_ fuel self g = None).
Proof.
  intros Hops.
  assert (Hbound : forall data self' g',
            generate_dataset_ fuel self g = Some (Ok (data, self', g')) ->
            SimpleMathProblemsGenerator.num_samples self <= 4 * 100 * 100
            /\ forall row, In row data -> In row all_rows_).
  { intros data self' g' Hrun.
    destruct (generate_rows_sound float truediv round num2words_int num2words_float
                fuel (SimpleMathProblemsGenerator.num_samples self) self g Hops)
      as [_ Hrows].
    destruct (Hrows data self' g' Hrun) as (_ & Hlen & Hnd).
    pose proof (generate_rows_within fuel _ self g data self' g' Hops Hrun) as Hall.
    rewrite List.Forall_forall in Hall.
    assert (Hincl : incl data all_rows_)
      by (intros row Hrow; apply within_all_rows, Hall, Hrow).
    split; [|exact Hincl].
    rewrite <- Hlen, <- length_all_rows. now apply List.NoDup_incl_length. }
  split; [exact Hbound|].
  intros Hmany.
  destruct (generate_dataset_ fuel self g) as [[[[data self'] g']|e]|] eqn:Hrun;
    [| |reflexivity].
  - destruct (Hbound data self' g' eq_refl) as [Hle _]. lia.
  - destruct (generate_rows_sound float truediv round num2words_int num2words_float
                fuel (SimpleMathProblemsGenerator.num_samples self) self g Hops)
      as [Hsafe _].
    now destruct (Hsafe e).
Qed.

End generator_rows_facts.

Lemma answers_are_computed_witness :
  exists num1 num2,
    (1 <= num1 <= 100)%Z /\ (1 <= num2 <= 100)%Z
    /\ let question operation :=
         replace "-" " "
           (sample_num2words_int num1 ++ " " ++ operation ++ " "
            ++ sample_num2words_int num2)%string in
       let spell_int z :=
         replace "," EmptyString (replace "-" " " (sample_num2words_int z)) in
       let spell_float f :=
         replace "," EmptyString (replace "-" " " (sample_num2words_float f)) in
       ("two divided by three", "zero point six seven")
         = (question "plus", spell_int (num1 + num2)%Z)
       \/ ("two divided by three", "zero point six seven")
          = (question "minus", spell_int (num1 - num2)%Z)
       \/ ("two divided by three", "zero point six seven")
          = (question "times", spell_int (num1 * num2)%Z)
       \/ ("two divided by three", "zero point six seven")
          = (question "divided by",
             spell_float (sample_round (sample_truediv num1 num2) 2)).
Proof.
  eapply (answers_are_computed (Z * Z) sample_truediv sample_round
            sample_num2words_int sample_num2words_float 1 sample_generator oracle1).
  - reflexivity.
  - vm_compute. reflexivity.
Defined.

Lemma generate_dataset_exhausts_witness :
  SimpleMathProblemsGenerator.generate_dataset (Z * Z)
    sample_num2words_int sample_num2words_float 3
    (SimpleMathProblemsGenerator.init (Z * Z) sample_truediv sample_round
       (S (4 * 100 * 100)) "simple_math_problems.csv")
    oracle1
  = None.
Proof.
  apply (generate_dataset_exhausts (Z * Z) sample_truediv sample_round
           sample_num2words_int sample_num2words_float 3
           (SimpleMathProblemsGenerator.init (Z * Z) sample_truediv sample_round
              (S (4 * 100 * 100)) "simple_math_problems.csv")
           oracle1 eq_refl).
  exact (Nat.lt_succ_diag_r (4 * 100 * 100)).
Defined.

(** ** Training on the batches of the corpus *)

Lemma list_comp_total {A B : Type} (f : A -> result B) (P : A -> B -> Prop) (xs : list A) :
  (forall x, In x xs -> exists y, f x = Ok y /\ P x y) ->
  exists ys, list_comp f xs = Ok ys /\ Forall2 P xs ys.
Proof.
  induction xs as [|x xs IH]; intros Hxs.
  - exists []. split; [reflexivity | constructor].
  - destruct (Hxs x) as (y & Hy & Hp); [now left|].
    destruct IH as (ys & Hys & Hall); [intros x' Hx'; apply Hxs; now right|].
    exists (y :: ys). simpl. rewrite Hy. simpl. rewrite Hys. simpl.
    split; [reflexivity | now constructor].
Qed.

Lemma list_comp_map_Ok {A B : Type} (f : A -> result B) (h : A -> B) (xs : list A) :
  (forall x, In x xs -> f x = Ok (h x)) -> list_comp f xs = Ok (map h xs).
Proof.
  induction xs as [|x xs IH]; intros Hxs; [reflexivity|].
  simpl. rewrite (Hxs x) by now left. simpl.
  rewrite IH by (intros x' Hx'; apply Hxs; now right). reflexivity.
Qed.

Lemma Forall2_In_r {A B : Type} (P : A -> B -> Prop) xs ys y :
  Forall2 P xs ys -> In y ys -> exists x, In x xs /\ P x y.
Proof.
  induction 1 as [|x0 y0 xs ys Hp _ IH]; intros Hin; [destruct Hin|].
  destruct Hin as [<-|Hin].
  - exists x0. split; [now left | exact Hp].
  - destruct (IH Hin) as (x & Hx & Hpx). exists x. split; [now right | exact Hpx].
Qed.

Lemma Forall2_In_l {A B : Type} (P : A -> B -> Prop) xs ys x :
  Forall2 P xs ys -> In x xs -> exists y, In y ys /\ P x y.
Proof.
  induction 1 as [|x0 y0 xs ys Hp _ IH]; intros Hin; [destruct Hin|].
  destruct Hin as [<-|Hin].
  - exists y0. split; [now left | exact Hp].
  - destruct (IH Hin) as (y & Hy & Hpy). exists y. split; [now right | exact Hpy].
Qed.

(** The batches of an unshuffled loader are non-empty, hold at most
    [batch_size] indices, and only indices of the data set. *)
Lemma batch_indices_spec n batch_size indices :
  batch_size <> 0 ->
  In indices (DataLoader.batch_indices n batch_size) ->
  indices <> [] /\ length indices <= batch_size /\ Forall (fun i => i < n) indices.
Proof.
  intros Hbs Hin. unfold DataLoader.batch_indices in Hin.
  apply in_map_iff in Hin as (k & <- & Hk). apply in_seq in Hk.
  set (q := (n + batch_size - 1) / batch_size) in *.
  assert (Hq : batch_size * q <= n + batch_size - 1) by apply Nat.Div0.mul_div_le.
  assert (Hk' : batch_size * (k + 1) <= batch_size * q)
    by (apply Nat.mul_le_mono_l; lia).
  assert (Hlt : k * batch_size < n) by lia.
  split; [|split].
  - intros Hnil. apply (f_equal (@length _)) in Hnil.
    rewrite length_seq in Hnil. simpl in Hnil. lia.
  - rewrite length_seq. lia.
  - apply Forall_forall. intros i Hi. apply elem_of_seq in Hi. lia.
Qed.

Lemma batch_indices_nonempty n batch_size :
  batch_size <> 0 -> n <> 0 -> DataLoader.batch_indices n batch_size <> [].
Proof.
  intros Hbs Hn. unfold DataLoader.batch_indices.
  assert (Hq : 0 < (n + batch_size - 1) / batch_size)
    by (apply Nat.div_str_pos; lia).
  destruct ((n + batch_size - 1) / batch_size) as [|q]; [lia | discriminate].
Qed.

Lemma select_row_Ok {A : Type} (data : tensor2 A) idx :
  idx < rows data -> select_row data idx = Ok (tensor_row data idx).
Proof. intros Hidx. unfold select_row. now rewrite decide_True. Qed.

Lemma promote_same (element_type : dtype) (indices : list nat) :
  indices <> [] ->
  fold_right promote int64 (map (fun _ => element_type) indices) = element_type.
Proof.
  induction indices as [|i indices IH]; [congruence|]. intros _. simpl.
  destruct indices as [|i' indices].
  - simpl. now destruct element_type.
  - rewrite IH by discriminate. now destruct element_type.
Qed.

Lemma stack_rows {A : Type} (element_type : dtype) (data : tensor2 A)
    (indices : list nat) :
  indices <> [] ->
  exists batch,
    DataLoader.stack (map (fun idx => (element_type, tensor_row data idx)) indices)
      = Ok (element_type, batch)
    /\ is_batch data indices batch.
Proof.
  intros Hne. pose proof (promote_same element_type indices Hne) as Htype.
  destruct indices as [|i0 indices]; [congruence|].
  set (item := fun idx => (element_type, tensor_row data idx)) in *.
  unfold DataLoader.stack. cbn [map].
  change (item i0 :: map item indices) with (map item (i0 :: indices)).
  assert (Hall : forallb (fun y => (len1 (snd y) =? len1 (snd (item i0)))%nat)
                         (map item (i0 :: indices)) = true).
  { apply forallb_forall. intros y Hy. apply in_map_iff in Hy as (k & <- & _).
    apply Nat.eqb_refl. }
  rewrite Hall.
  assert (Htypes : map fst (map item (i0 :: indices))
                   = map (fun _ => element_type) (i0 :: indices))
    by (rewrite map_map; apply map_ext; reflexivity).
  change ((item i0).1 :: map fst (map item indices))
    with (map fst (map item (i0 :: indices))).
  rewrite Htypes, Htype.
  eexists. split; [reflexivity|].
  split; [cbn [rows]; now rewrite length_map|]. split; [reflexivity|].
  intros i j Hi. cbn [at2].
  rewrite (nth_indep _ _ (item 0)) by (now rewrite length_map).
  now rewrite map_nth.
Qed.

Lemma loader_batches (dataset : DynamicMathWordProblemDataset.t) (batch_size : nat) :
  batch_size <> 0 ->
  rows (snd (DynamicMathWordProblemDataset.input_data dataset))
  = rows (snd (DynamicMathWordProblemDataset.target_data dataset)) ->
  exists batches,
    DataLoader.batches (DynamicMathWordProblemDataset.len dataset)
      (DynamicMathWordProblemDataset.getitem dataset) batch_size = Ok batches
    /\ Forall2 (fun indices batch =>
                  fst (fst batch) = fst (DynamicMathWordProblemDataset.input_data dataset)
                  /\ fst (snd batch)
                     = fst (DynamicMathWordProblemDataset.target_data dataset)
                  /\ is_batch (snd (DynamicMathWordProblemDataset.input_data dataset))
                              indices (snd (fst batch))
                  /\ is_batch (snd (DynamicMathWordProblemDataset.target_data dataset))
                              indices (snd (snd batch)))
               (DataLoader.batch_indices (DynamicMathWordProblemDataset.len dataset)
                                         batch_size)
               batches.
Proof.
  intros Hbs Hrows. unfold DataLoader.batches. rewrite decide_False by exact Hbs.
  apply list_comp_total. intros indices Hin.
  destruct (batch_indices_spec _ _ _ Hbs Hin) as (Hne & _ & Hall).
  destruct (DynamicMathWordProblemDataset.input_data dataset) as [itype inputs] eqn:Hi.
  destruct (DynamicMathWordProblemDataset.target_data dataset) as [ttype targets] eqn:Ht.
  cbn [fst snd] in *.
  set (item := fun idx =>
         ((itype, tensor_row inputs idx), (ttype, tensor_row targets idx))).
  rewrite (list_comp_map_Ok _ item).
  - simpl. unfold DataLoader.collate.
    assert (Hfst : map fst (map item indices)
                   = map (fun idx => (itype, tensor_row inputs idx)) indices)
      by (rewrite map_map; apply map_ext; reflexivity).
    assert (Hsnd : map snd (map item indices)
                   = map (fun idx => (ttype, tensor_row targets idx)) indices)
      by (rewrite map_map; apply map_ext; reflexivity).
    rewrite Hfst, Hsnd.
    destruct (stack_rows itype inputs indices Hne) as (input_seq & -> & Hinputs).
    destruct (stack_rows ttype targets indices Hne) as (target_seq & -> & Htargets).
    simpl. eexists. split; [reflexivity|]. cbn [fst snd]. auto.
  - intros idx Hidx. rewrite Forall_forall in Hall.
    apply list_elem_of_In, Hall in Hidx.
    unfold DynamicMathWordProblemDataset.len in Hidx. rewrite Hi in Hidx. simpl in Hidx.
    unfold DynamicMathWordProblemDataset.getitem. rewrite Hi, Ht. cbn [fst snd].
    rewrite select_row_Ok by exact Hidx. simpl.
    rewrite select_row_Ok by (rewrite <- Hrows; exact Hidx). reflexivity.
Qed.

Lemma pad_sequence_Ok (sequences : list (list nat)) (pad : nat) :
  sequences <> [] ->
  pad_sequence (map torch_tensor sequences) pad
  = Ok (fst (torch_tensor (hd [] sequences)), pad_rows sequences pad).
Proof.
  intros Hne. unfold pad_sequence.
  assert (Hsnd : map snd (map torch_tensor sequences) = sequences).
  { rewrite map_map. simpl. apply map_id. }
  destruct sequences as [|row rest]; [congruence|].
  cbn [map hd] in *. unfold torch_tensor at 1. now rewrite Hsnd.
Qed.

Lemma is_batch_right_padded data indices batch pad :
  right_padded pad data ->
  is_batch data indices batch ->
  Forall (fun i => i < rows data) indices ->
  right_padded pad batch.
Proof.
  intros Hdata (Hrows & Hcols & Hat) Hall b j Hb Hj.
  rewrite Hrows in Hb. rewrite Hcols in Hj.
  assert (Hrow : nth b indices 0 < rows data).
  { rewrite Forall_forall in Hall. apply Hall, list_elem_of_In, nth_In, Hb. }
  rewrite (Hat b j Hb), (Hdata _ j Hrow Hj). f_equal. f_equal.
  cbn [Training.lengths at1]. rewrite Hcols. symmetry.
  apply count_upto_ext. intros j' _. now rewrite (Hat b j' Hb).
Qed.

Lemma padded_entry_below (sequences : list (list nat)) (pad bound : nat) k j :
  (forall row i, In row sequences -> In i row -> i < bound) ->
  pad < bound ->
  nth j (nth k sequences []) pad < bound.
Proof.
  intros Hrows Hpad.
  destruct (nth_in_or_default k sequences []) as [Hrow|Hrow].
  - destruct (nth_in_or_default j (nth k sequences []) pad) as [Hi|Hi].
    + now apply (Hrows (nth k sequences [])).
    + now rewrite Hi.
  - rewrite Hrow. now destruct j.
Qed.

Lemma is_batch_lengths data indices batch pad b :
  is_batch data indices batch ->
  b < length indices ->
  at1 (Training.lengths batch pad) b = at1 (Training.lengths data pad) (nth b indices 0).
Proof.
  intros (Hrows & Hcols & Hat) Hb. cbn [Training.lengths at1]. rewrite Hcols.
  apply count_upto_ext. intros j _. now rewrite (Hat b j Hb).
Qed.

(** The target rows of a corpus start with the start token, end with the
    end token and hold no padding id. *)
Lemma corpus_target_rows (input_sentences target_sentences : list string) (c : corpus) :
  build_corpus input_sentences target_sentences = Ok c ->
  forall row, In row (target_data c) ->
    ~ In 2 row /\ 2 <= length row /\ nth 0 row 2 = 0
    /\ forall i, In i row -> i < length (word_to_index c).
Proof.
  intros Hrun row Hrow.
  destruct (build_corpus_ranges _ _ _ Hrun) as (Hsize & _ & Htargets).
  destruct (Htargets row Hrow) as (tokens & -> & Hall).
  rewrite List.Forall_forall in Hall.
  split; [|split; [|split]].
  - intros [Heq|Hi]; [discriminate|].
    apply in_app_or in Hi as [Hi|[Heq|[]]]; [|discriminate].
    destruct (Hall 2 Hi). lia.
  - simpl. rewrite length_app. simpl. lia.
  - reflexivity.
  - intros i [<-|Hi]; [lia|].
    apply in_app_or in Hi as [Hi|[<-|[]]]; [now destruct (Hall i Hi) | lia].
Qed.

(** What the cells of the corpus, the padding and the data loader hand to
    [train]: batches stacked from rows of the padded corpus.  The targets
    are integer tensors; the inputs have the element type of the tensor made
    of the first input row. *)
Lemma corpus_loader_spec (input_sentences target_sentences : list string)
    (batch_size : nat) :
  length input_sentences = length target_sentences ->
  input_sentences <> [] ->
  batch_size <> 0 ->
  exists c batches,
    build_corpus input_sentences target_sentences = Ok c
    /\ dataloader c batch_size = Ok batches
    /\ batches <> []
    /\ forall input_seq target_seq,
         In (input_seq, target_seq) batches ->
         exists indices,
           indices <> []
           /\ length indices <= batch_size
           /\ Forall (fun i => i < length (target_data c)) indices
           /\ fst input_seq = fst (torch_tensor (hd [] (input_data c)))
           /\ fst target_seq = int64
           /\ is_batch (pad_rows (input_data c) 2) indices (snd input_seq)
           /\ is_batch (pad_rows (target_data c) 2) indices (snd target_seq).
Proof.
  intros Hsame Hsentences Hbs.
  destruct (build_corpus_numbered input_sentences target_sentences)
    as (c & Hrun & Hnum & (Hsos & Heos & Hpad) & _).
  destruct (build_corpus_rows _ _ _ Hrun) as [Hin Hout].
  pose proof (Forall2_length _ _ _ Hin) as Hlen_in.
  pose proof (Forall2_length _ _ _ Hout) as Hlen_out.
  assert (Hinputs : input_data c <> []).
  { intros Hnil. rewrite Hnil in Hlen_in. destruct input_sentences; [congruence|].
    discriminate. }
  assert (Htargets : target_data c <> []).
  { intros Hnil. rewrite Hnil in Hlen_out. rewrite <- Hsame in Hlen_out.
    destruct input_sentences; [congruence | discriminate]. }
  assert (Htype : fst (torch_tensor (hd [] (target_data c))) = int64).
  { destruct (target_data c) as [|row rows] eqn:Hdata; [congruence|].
    destruct (corpus_target_rows _ _ _ Hrun row) as (_ & Hlong & _);
      [rewrite Hdata; now left|].
    cbn [hd]. destruct row; [simpl in Hlong; lia | reflexivity]. }
  destruct (loader_batches
              (DynamicMathWordProblemDataset.init
                 (fst (torch_tensor (hd [] (input_data c))), pad_rows (input_data c) 2)
                 (fst (torch_tensor (hd [] (target_data c))), pad_rows (target_data c) 2))
              batch_size Hbs) as (batches & Hload & Hbatches).
  { simpl. congruence. }
  exists c, batches. split; [exact Hrun|].
  split.
  { unfold dataloader, build_dataset, dict_getitem. rewrite Hpad.
    cbv beta iota zeta delta [rbind].
    rewrite (pad_sequence_Ok _ 2 Hinputs), (pad_sequence_Ok _ 2 Htargets). exact Hload. }
  split.
  { intros ->. apply Forall2_length in Hbatches. simpl in Hbatches.
    apply length_zero_iff_nil in Hbatches.
    apply (batch_indices_nonempty (length (input_data c)) batch_size Hbs);
      [|exact Hbatches].
    destruct (input_data c); [congruence | discriminate]. }
  intros input_seq target_seq Hbatch.
  destruct (Forall2_In_r _ _ _ _ Hbatches Hbatch)
    as (indices & Hindices & Hitype & Httype & Hi & Ht).
  cbn [fst snd DynamicMathWordProblemDataset.init
       DynamicMathWordProblemDataset.input_data
       DynamicMathWordProblemDataset.target_data] in Hitype, Httype, Hi, Ht.
  destruct (batch_indices_spec _ _ _ Hbs Hindices) as (Hne & Hle & Hall).
  unfold DynamicMathWordProblemDataset.len in Hall. simpl in Hall.
  exists indices. split; [exact Hne|]. split; [exact Hle|].
  split; [now rewrite <- Hlen_out, <- Hsame, Hlen_in|].
  split; [exact Hitype|]. split; [congruence|]. now split.
Qed.

(** X17. What training on the corpus meets.  For as many input as target
    sentences and a positive batch size, the cells that build the corpus,
    pad it and load it all return, with at least one batch; every batch has
    between 1 and [batch_size] examples, as many inputs as targets, and
    integer targets whose padding only follows the tokens.  If the first
    input sentence is blank, its tensor is empty and of floating type, so is
    the padded input, and [encoder(input_seq)], the first call [train] makes
    on a batch, raises [RuntimeError] for every encoder.  If the first input
    sentence is ASCII text and not blank, every input batch is an integer
    tensor, and [train] gets through every batch for every encoder and
    decoder whose shapes fit and which have at least [len(word_to_index)]
    embeddings and classes (the notebook builds them with exactly that
    many), whatever their weights are. *)
Theorem corpus_training_returns (first : string) (rest target_sentences : list string)
    (batch_size : nat) :
  length (first :: rest) = length target_sentences ->
  batch_size <> 0 ->
  exists c batches,
    build_corpus (first :: rest) target_sentences = Ok c
    /\ dataloader c batch_size = Ok batches
    /\ batches <> []
    /\ forall input_seq target_seq,
         In (input_seq, target_seq) batches ->
         fst target_seq = int64
         /\ rows (snd input_seq) = rows (snd target_seq)
         /\ 1 <= rows (snd input_seq) <= batch_size
         /\ right_padded 2 (snd target_seq)
         /\ (split (lower first) = [] ->
             fst input_seq = float32
             /\ forall (encoder : Encoder.t) (g : oracle),
                  Encoder.call encoder input_seq g = Raise RuntimeError)
         /\ (ascii_only first = true ->
             split (lower first) <> [] ->
             fst input_seq = int64
             /\ forall (encoder : Encoder.t) (decoder : Decoder.t)
                       (criterion : CrossEntropyLoss.t) (g : oracle),
                  model_fits encoder decoder ->
                  length (word_to_index c)
                    <= Embedding.num_embeddings (Encoder.embedding encoder) ->
                  length (word_to_index c) <= Linear.out_features (Decoder.fc decoder) ->
                  Encoder.call encoder input_seq g
                  = Encoder.forward encoder (snd input_seq) g
                  /\ exists st g',
                       Training.train_batch (Encoder.forward encoder)
                         (Decoder.forward decoder) criterion (word_to_index c)
                         (snd input_seq) (snd target_seq) g
                       = Ok (st, g')).
Proof.
  intros Hsame Hbs.
  destruct (corpus_loader_spec (first :: rest) target_sentences batch_size Hsame)
    as (c & batches & Hrun & Hload & Hne & Hbatches); [discriminate | exact Hbs |].
  destruct (build_corpus_numbered (first :: rest) target_sentences)
    as (c' & Hrun' & Hnum & (Hsos & Heos & Hpad) & _).
  assert (c' = c) as -> by congruence.
  destruct (build_corpus_ranges _ _ _ Hrun) as (Hsize & Hinputs & _).
  destruct (build_corpus_rows _ _ _ Hrun) as [Hin _].
  assert (Hinput_below : forall row i, In row (input_data c) -> In i row ->
                           i < length (word_to_index c)).
  { intros row i Hrow Hi. specialize (Hinputs row Hrow).
    rewrite List.Forall_forall in Hinputs. now destruct (Hinputs i Hi). }
  (* the first input row has one token per word of the first sentence *)
  assert (Hfirst : exists row rows, input_data c = row :: rows
                                    /\ length row = length (split (lower first))).
  { inversion Hin as [|s row ss rows Hrow _ Hs Hrows]. subst.
    exists row, rows. split; [reflexivity|]. symmetry. exact (Forall2_length _ _ _ Hrow). }
  destruct Hfirst as (row & rows_ & Hdata & Hlen_first).
  exists c, batches. split; [exact Hrun|]. split; [exact Hload|]. split; [exact Hne|].
  intros input_seq target_seq Hbatch.
  destruct (Hbatches input_seq target_seq Hbatch)
    as (indices & Hnonempty & Hle & Hall & Hitype & Httype & Hi & Ht).
  rewrite Hdata in Hitype. cbn [hd] in Hitype.
  pose proof Hi as (Hirows & Hicols & Hiat). pose proof Ht as (Htrows & Htcols & Htat).
  assert (Hpos : 1 <= length indices) by (destruct indices; [congruence | simpl; lia]).
  split; [exact Httype|]. split; [congruence|]. split; [lia|]. split.
  { apply (is_batch_right_padded (pad_rows (target_data c) 2) indices).
    - apply pad_sequence_right_padded. intros row' Hrow'.
      now destruct (corpus_target_rows _ _ _ Hrun row' Hrow').
    - exact Ht.
    - exact Hall. }
  split.
  { intros Hblank. rewrite Hblank in Hlen_first.
    destruct row; [|discriminate]. cbn [torch_tensor fst] in Hitype.
    split; [exact Hitype|]. intros encoder g. unfold Encoder.call. now rewrite Hitype. }
  intros _ Hwords.
  assert (Hint : fst input_seq = int64).
  { destruct row as [|token row]; [|exact Hitype].
    simpl in Hlen_first. destruct (split (lower first)); [congruence | discriminate]. }
  split; [exact Hint|].
  intros encoder decoder criterion g Hfits Henc Hdec.
  split; [unfold Encoder.call; now rewrite Hint|].
  assert (Hcols : cols (pad_rows (input_data c) 2) <> 0).
  { pose proof (length_le_max (input_data c) 0) as Hmax. rewrite Hdata in Hmax.
    cbn [nth] in Hmax. rewrite <- Hdata in Hmax. simpl.
    destruct (split (lower first)); [congruence|]. simpl in Hlen_first. lia. }
  apply (train_batch_returns _ _ _ _ _ _ _ 0 2 Hsos Hpad); [lia|].
  pose proof Hfits as (_ & _ & _ & _ & Hemb).
  apply fitting_model_trains.
  - exact Hfits.
  - congruence.
  - congruence.
  - intros i j Hrow _. rewrite Hirows in Hrow. rewrite (Hiat i j Hrow). simpl.
    apply (Nat.lt_le_trans _ (length (word_to_index c))); [|exact Henc].
    apply padded_entry_below; [exact Hinput_below | lia].
  - lia.
  - intros b t Hrow _. rewrite Htrows in Hrow. rewrite (Htat b t Hrow). simpl.
    apply (Nat.lt_le_trans _ (length (word_to_index c))); [|exact Hdec].
    apply padded_entry_below; [|lia].
    intros row' i Hr. now apply (corpus_target_rows _ _ _ Hrun row' Hr).
Qed.

Lemma corpus_training_returns_witness :
  exists c batches,
    build_corpus ["two plus four"; ""] ["six"; "two"] = Ok c
    /\ dataloader c 64 = Ok batches
    /\ forall input_seq target_seq,
         In (input_seq, target_seq) batches ->
         fst input_seq = int64 /\ fst target_seq = int64.
Proof.
  destruct (corpus_training_returns "two plus four" [""] ["six"; "two"] 64)
    as (c & batches & Hrun & Hload & _ & Hbatches).
  - reflexivity.
  - discriminate.
  - exists c, batches. split; [exact Hrun|]. split; [exact Hload|].
    intros input_seq target_seq Hbatch.
    destruct (Hbatches input_seq target_seq Hbatch) as (Htarget & _ & _ & _ & _ & Hint).
    split; [|exact Htarget]. now destruct Hint as [Hint _]; [reflexivity | discriminate |].
Defined.

(** ** Inference with a model sized to the corpus *)

Lemma eval_model_fits encoder decoder :
  model_fits encoder decoder -> model_fits (Encoder.eval encoder) (Decoder.eval decoder).
Proof. intros Hfits. exact Hfits. Qed.

Lemma vstack_Ok ms k :
  ms <> [] -> List.Forall (fun m => cols m = k) ms -> exists stacked, vstack ms = Ok stacked.
Proof.
  intros Hne Hall. unfold vstack. destruct ms as [|m ms]; [congruence|].
  assert (Hcols : forallb (fun m' => (cols m' =? cols m)%nat) (m :: ms) = true).
  { apply forallb_forall. intros m' Hm'. rewrite List.Forall_forall in Hall.
    apply Nat.eqb_eq. rewrite (Hall m' Hm'). symmetry. apply Hall. now left. }
  rewrite Hcols. eauto.
Qed.

(** Ids below the size of a numbered vocabulary turn back into words. *)
Lemma words_of_tokens d tokens :
  numbered d ->
  List.Forall (fun i => i < length d) tokens ->
  exists words,
    list_comp (dict_getitem (invert_vocab d)) tokens = Ok words
    /\ Forall2 (fun i w => dict_get d w = Some i) tokens words.
Proof.
  intros Hnum Hall. apply list_comp_total. intros i Hi.
  rewrite List.Forall_forall in Hall.
  destruct (numbered_has_word d i Hnum (Hall i Hi)) as [w Hw].
  exists w. split; [|exact Hw].
  unfold dict_getitem. now rewrite (numbered_round_trip d w i Hnum Hw).
Qed.

(** With a decoder whose shapes fit, the loop of [test] returns, keeps only
    tokens among the decoder's classes, and keeps attention rows over the
    encoder's time steps. *)
Lemma test_loop_fitting (decoder : Decoder.t) (word_to_index : list (string * nat))
    (encoder_outputs : tensor3 R) (eos : nat) :
  decoder_fits decoder (dim2 encoder_outputs) ->
  dim0 encoder_outputs = 1 ->
  Linear.out_features (Decoder.fc decoder) <> 0 ->
  Linear.out_features (Decoder.fc decoder)
    <= Embedding.num_embeddings (Decoder.embedding decoder) ->
  dict_get word_to_index END_OF_SEQUENCE = Some eos ->
  forall n st g,
    len1 (Inference.decoder_input st) = 1 ->
    at1 (Inference.decoder_input st) 0
      < Embedding.num_embeddings (Decoder.embedding decoder) ->
    shape3 (Inference.decoder_hidden st) = (1, 1, LSTM.hidden_size (Decoder.lstm decoder)) ->
    shape3 (Inference.decoder_cell st) = (1, 1, LSTM.hidden_size (Decoder.lstm decoder)) ->
    exists st',
      Inference.test_loop (Decoder.forward decoder) word_to_index encoder_outputs n st g
        = Ok (st', g)
      /\ (List.Forall (fun i => i < Linear.out_features (Decoder.fc decoder))
                      (Inference.output_sequence st) ->
          List.Forall (fun i => i < Linear.out_features (Decoder.fc decoder))
                      (Inference.output_sequence st'))
      /\ (List.Forall (fun m => cols m = dim1 encoder_outputs)
                      (Inference.attention_matrices st) ->
          List.Forall (fun m => cols m = dim1 encoder_outputs)
                      (Inference.attention_matrices st')).
Proof.
  intros Hfit Hbatch Hout Hemb Heos.
  induction n as [|n IH]; intros st g Hlen Hin Hh Hc.
  - exists st. split; [reflexivity|]. now split.
  - rewrite test_loop_S.
    destruct (decoder_forward_Ok decoder (Inference.decoder_input st)
                (Inference.decoder_hidden st) (Inference.decoder_cell st)
                encoder_outputs g)
      as (output & hidden' & cell' & weights & Hrun & Hrows & Hcols & Hh' & Hc' & _ & Hwc).
    + exact Hfit.
    + intros b Hb. assert (b = 0) as -> by lia. exact Hin.
    + now rewrite Hlen.
    + now rewrite Hlen.
    + now rewrite Hlen.
    + rewrite Hrun. rewrite Hlen in *.
      destruct (argmax_item_Ok output Hrows) as (token & -> & Htoken); [lia|].
      unfold dict_getitem. rewrite Heos.
      destruct (decide (token = eos)) as [->|Hne].
      * eexists. split; [reflexivity|]. now split.
      * destruct (IH (advanced st token (Inference.attention_matrices st ++ [weights])
                               hidden' cell') g)
          as (st' & Hloop & Htokens & Hatt); simpl; try assumption; try reflexivity; [lia|].
        exists st'. split; [exact Hloop|]. simpl in Htokens, Hatt. split.
        -- intros Hall. apply Htokens. apply List.Forall_app. split; [exact Hall|].
           constructor; [lia | constructor].
        -- intros Hall. apply Hatt. apply List.Forall_app. split; [exact Hall|].
           constructor; [exact Hwc | constructor].
Qed.

(** X18. Inference with a model sized to the corpus.  After the corpus cell,
    take an encoder and a decoder whose shapes fit, the encoder with at
    least [len(word_to_index)] embeddings and the decoder with exactly
    [len(word_to_index)] classes, both in evaluation mode, and a sentence
    that is not blank and whose words, as written, are all in the
    vocabulary.  Then, whatever the weights of the model are and without
    drawing randomness, [generate_predictions] returns: a list of at most
    [max_target_length] words, each of them a word of the vocabulary, none
    of them the end token.  [test] returns the same list, except when the
    list is empty, where it raises [ValueError]. *)
Theorem inference_on_corpus (input_sentences target_sentences : list string) :
  exists c,
    build_corpus input_sentences target_sentences = Ok c
    /\ forall (encoder : Encoder.t) (decoder : Decoder.t) (input_sentence : string)
              (max_target_length : nat) (with_attention_plot : bool) (g : oracle),
         model_fits encoder decoder ->
         length (word_to_index c)
           <= Embedding.num_embeddings (Encoder.embedding encoder) ->
         Linear.out_features (Decoder.fc decoder) = length (word_to_index c) ->
         split input_sentence <> [] ->
         (forall w, In w (split input_sentence) ->
            exists i, dict_get (word_to_index c) w = Some i) ->
         exists tokens words,
           Inference.generate_predictions
             (Encoder.forward (Encoder.eval encoder))
             (Decoder.forward (Decoder.eval decoder))
             (word_to_index c) (index_to_word c) input_sentence max_target_length g
           = Ok (words, g)
           /\ Forall2 (fun i w => dict_get (word_to_index c) w = Some i) tokens words
           /\ length words <= max_target_length
           /\ ~ In END_OF_SEQUENCE words
           /\ Inference.test
                (Encoder.forward (Encoder.eval encoder))
                (Decoder.forward (Decoder.eval decoder))
                (word_to_index c) (index_to_word c)
                input_sentence max_target_length with_attention_plot g
              = match words with
                | [] => Raise ValueError
                | _ => Ok (words, g)
                end.
Proof.
  destruct (build_corpus_numbered input_sentences target_sentences)
    as (c & Hrun & Hnum & (Hsos & Heos & Hpad) & Hinv).
  exists c. split; [exact Hrun|].
  intros encoder decoder input_sentence max_target_length with_attention_plot g
         Hfits Henc Hclasses Hblank Hknown.
  assert (Hsize : 3 <= length (word_to_index c))
    by (apply (numbered_id_below _ _ _ Hnum) in Hpad; lia).
  pose proof (eval_model_fits _ _ Hfits) as (Hefit & Hdfit & Hsame & Hout & Hemb).
  set (E := Encoder.eval encoder) in *. set (D := Decoder.eval decoder) in *.
  assert (HclassesD : Linear.out_features (Decoder.fc D) = length (word_to_index c))
    by exact Hclasses.
  assert (HencE : length (word_to_index c)
                  <= Embedding.num_embeddings (Encoder.embedding E)) by exact Henc.
  (* the sentence is tokenized *)
  destruct (list_comp_lookup (word_to_index c) (split input_sentence) Hknown)
    as (input_tokens & Htok & Hlen).
  assert (Hbelow : List.Forall (fun i => i < length (word_to_index c)) input_tokens).
  { pose proof (list_comp_Forall2 _ _ _ Htok) as Hall. clear -Hall Hnum.
    induction Hall as [|w i ws ts Hw _ IH]; constructor; [|exact IH].
    unfold dict_getitem in Hw.
    destruct (dict_get (word_to_index c) w) as [i'|] eqn:Hget; [|discriminate].
    injection Hw as ->. now apply (numbered_id_below _ w). }
  (* the encoder answers *)
  destruct (encoder_forward_Ok E (unsqueeze0_1 (tensor_of_list 0 input_tokens)) g)
    as (encoder_outputs & hidden & cell & Hencoder & [= Ho0 Ho1 Ho2] & Hh & Hc).
  { exact Hefit. }
  { simpl. rewrite Hlen. destruct (split input_sentence); [congruence | simpl; lia]. }
  { intros i j _ Hj. simpl in *. rewrite List.Forall_forall in Hbelow.
    apply (Nat.lt_le_trans _ (length (word_to_index c))); [|exact HencE].
    apply Hbelow, nth_In, Hj. }
  simpl in Ho0.
  (* the loop of [test] returns *)
  destruct (test_loop_fitting D (word_to_index c) encoder_outputs 1)
    with (n := max_target_length) (st := initial 0 hidden cell) (g := g)
    as (st & Hloop & Htokens & Hatt).
  { now rewrite Ho2. }
  { exact Ho0. }
  { exact Hout. }
  { exact Hemb. }
  { exact Heos. }
  { reflexivity. }
  { change (0 < Embedding.num_embeddings (Decoder.embedding D)). lia. }
  { change (shape3 hidden = (1, 1, LSTM.hidden_size (Decoder.lstm D))).
    rewrite Hsame. exact Hh. }
  { change (shape3 cell = (1, 1, LSTM.hidden_size (Decoder.lstm D))).
    rewrite Hsame. exact Hc. }
  specialize (Htokens (List.Forall_nil _)). specialize (Hatt (List.Forall_nil _)).
  rewrite HclassesD in Htokens.
  destruct (test_loop_decoded (Decoder.forward D) (word_to_index c) encoder_outputs 1 Heos
              _ _ _ _ _ Hloop) as [Hdecoded Hrows].
  apply decoded_bounded in Hdecoded.
  pose proof (bounded_length _ _ _ Hdecoded) as Hshort.
  destruct Hdecoded as (_ & Hfree & _).
  simpl in Hrows.
  (* the loop of [generate_predictions] keeps the same tokens *)
  pose proof (loops_agree (Decoder.forward D) (word_to_index c) encoder_outputs
                max_target_length (initial 0 hidden cell) (initial 0 hidden cell) g
                eq_refl eq_refl eq_refl eq_refl) as Hagree.
  rewrite Hloop in Hagree. destruct Hagree as (st2 & Hloop2 & Hsame_out).
  (* tokens turn back into words *)
  destruct (words_of_tokens (word_to_index c) (Inference.output_sequence st) Hnum Htokens)
    as (words & Hwords & Hspell).
  destruct (words_of_tokens (word_to_index c) input_tokens Hnum Hbelow)
    as (input_words & Hinput_words & _).
  rewrite <- Hinv in Hwords, Hinput_words.
  exists (Inference.output_sequence st), words.
  split.
  { rewrite (generate_predictions_eq _ _ _ _ _ _ _ _ _ _ _ _ _ Htok Hencoder Hsos).
    rewrite Hloop2, Hsame_out. unfold lift. now rewrite Hwords. }
  split; [exact Hspell|].
  pose proof (Forall2_length _ _ _ Hspell) as Hlen_words.
  split; [lia|].
  split.
  { intros Hin. apply Hfree.
    destruct (Forall2_In_r _ _ _ _ Hspell Hin) as (i & Hi & Hget).
    assert (i = 1) as <- by congruence. exact Hi. }
  rewrite (test_eq _ _ _ _ _ _ _ _ _ _ _ _ _ _ Htok Hencoder Hsos).
  rewrite Hloop, Hinput_words, Hwords.
  destruct words as [|w ws].
  - destruct (Inference.attention_matrices st); [reflexivity|].
    destruct (Inference.output_sequence st); simpl in *; lia.
  - destruct (vstack_Ok (Inference.attention_matrices st) (dim1 encoder_outputs))
      as (stacked & ->); [|exact Hatt|reflexivity].
    intros Hnil. rewrite Hnil in Hrows.
    destruct (Inference.output_sequence st); simpl in *; lia.
Qed.

(** ** The first training step *)

(** X20. Training teaches the decoder to repeat the start token.  In every
    batch the data loader makes of the corpus, each target row starts with
    the start token (id 0) and holds at least two tokens.  So in every such
    batch that [train] gets through, with any encoder and decoder, the
    decoder is called at least twice; at step 0 its input is the start token
    for every example and the target it is scored against is the start token
    again; and at step 1 its input is the start token once more. *)
Theorem first_target_is_start_token (input_sentences target_sentences : list string)
    (batch_size : nat) :
  length input_sentences = length target_sentences ->
  input_sentences <> [] ->
  batch_size <> 0 ->
  exists c batches,
    build_corpus input_sentences target_sentences = Ok c
    /\ dataloader c batch_size = Ok batches
    /\ forall input_seq target_seq,
         In (input_seq, target_seq) batches ->
         fst target_seq = int64
         /\ (forall b, b < rows (snd target_seq) ->
               at2 (snd target_seq) b 0 = 0
               /\ 2 <= at1 (Training.lengths (snd target_seq) 2) b)
         /\ forall (encoder : encoder_call) (decoder : decoder_call)
                   (criterion : CrossEntropyLoss.t) (g : oracle)
                   (st : Training.state) (g' : oracle),
              Training.train_batch encoder decoder criterion (word_to_index c)
                                   (snd input_seq) (snd target_seq) g = Ok (st, g') ->
              exists first second rest,
                Training.fed st = first :: second :: rest
                /\ forall b, b < rows (snd target_seq) ->
                     at1 first b = 0 /\ at1 second b = 0.
Proof.
  intros Hsame Hsentences Hbs.
  destruct (corpus_loader_spec input_sentences target_sentences batch_size
              Hsame Hsentences Hbs)
    as (c & batches & Hrun & Hload & _ & Hbatches).
  destruct (build_corpus_numbered input_sentences target_sentences)
    as (c' & Hrun' & _ & (Hsos & _ & Hpad) & _).
  assert (c' = c) as -> by congruence.
  exists c, batches. split; [exact Hrun|]. split; [exact Hload|].
  intros [itype input_seq] [ttype target_seq] Hbatch.
  destruct (Hbatches _ _ Hbatch)
    as (indices & Hnonempty & _ & Hall & _ & Httype & (Hirows & _) & Ht).
  cbn [fst snd] in *.
  pose proof Ht as (Htrows & _ & Htat).
  assert (Hrows : forall b, b < rows target_seq ->
            at2 target_seq b 0 = 0 /\ 2 <= at1 (Training.lengths target_seq 2) b).
  { intros b Hb. rewrite Htrows in Hb.
    assert (Hk : nth b indices 0 < length (target_data c)).
    { rewrite Forall_forall in Hall. apply Hall, list_elem_of_In, nth_In, Hb. }
    assert (Hclean : forall row, In row (target_data c) -> ~ In 2 row).
    { intros row Hrow. now destruct (corpus_target_rows _ _ _ Hrun row Hrow). }
    destruct (corpus_target_rows _ _ _ Hrun (nth (nth b indices 0) (target_data c) []))
      as (_ & Hlong & Hfirst & _); [now apply nth_In|].
    split.
    - rewrite (Htat b 0 Hb). exact Hfirst.
    - rewrite (is_batch_lengths _ _ _ 2 b Ht Hb).
      now rewrite (pad_sequence_lengths _ 2 _ Hk Hclean). }
  split; [exact Httype|]. split; [exact Hrows|].
  intros encoder decoder criterion g st g' Htrain.
  destruct (teacher_forcing_trace encoder decoder criterion (word_to_index c)
              input_seq target_seq g st g' Htrain)
    as (sos & pad & Hsos' & Hpad' & Htrace).
  assert (sos = 0) as -> by congruence. assert (pad = 2) as -> by congruence.
  cbv zeta in Htrace. destruct Htrace as [Hlen Hfed].
  assert (Hpos : 0 < rows target_seq)
    by (rewrite Htrows; destruct indices; [congruence | simpl; lia]).
  assert (Hsteps : 2 <= max_upto (rows target_seq)
                                 (at1 (Training.lengths target_seq 2))).
  { pose proof (le_max_upto (rows target_seq) (at1 (Training.lengths target_seq 2))
                  0 Hpos) as Hmax.
    destruct (Hrows 0 Hpos) as [_ Hlong]. lia. }
  destruct (max_upto (rows target_seq) (at1 (Training.lengths target_seq 2)))
    as [|[|steps]]; [lia | lia |].
  destruct (Training.fed st) as [|first [|second rest]]; [discriminate | discriminate |].
  cbn [seq map app] in Hfed. injection Hfed as -> -> _.
  exists (tensor_of_list 0 (repeat 0 (rows input_seq))), (column target_seq 0), rest.
  split; [reflexivity|]. intros b Hb. split.
  - simpl. apply nth_repeat_below. congruence.
  - simpl. now destruct (Hrows b Hb).
Qed.

Lemma first_target_is_start_token_witness :
  exists c batches,
    build_corpus ["two plus four"; "two"] ["six"; "two"] = Ok c
    /\ dataloader c 64 = Ok batches
    /\ forall input_seq target_seq b,
         In (input_seq, target_seq) batches -> b < rows (snd target_seq) ->
         at2 (snd target_seq) b 0 = 0.
Proof.
  destruct (first_target_is_start_token ["two plus four"; "two"] ["six"; "two"] 64)
    as (c & batches & Hrun & Hload & Hbatches);
    [reflexivity | discriminate | discriminate |].
  exists c, batches. split; [exact Hrun|]. split; [exact Hload|].
  intros input_seq target_seq b Hbatch Hb.
  destruct (Hbatches input_seq target_seq Hbatch) as (_ & Hrows & _).
  now destruct (Hrows b Hb).
Defined.
